(** * Gusto browser-testing backend: persistence store, admission queue,
      HTTP handlers, report builder, decision client and agent loop.

    A shallow embedding of the JavaScript sources under [backend/]:
    - [database/db.js]               -> Module [Db]
    - [services/report-service.js]   -> Module [ReportService]
    - [services/browserbase-service.js] (recording lookup) -> Module [Browserbase]
    - [routes/test-routes.js]        -> Module [Routes]
    - [services/agent-service.js]    -> Modules [Json] and [Agent]
    Module [Number] holds the binary64 numbers these compute with.  The
    listing and deleting functions of [db.js], [connectPlaywright],
    [GET /list] and [utils/cleanup.js] follow the properties of the
    modules above.

    Conventions.  Everything the code obtains from outside the process (the
    clock, the remote-browser provider, the language model, the automation
    driver) is an explicit input of the function that consumes it.  A JS
    function that may throw returns an [outcome].  Mutable module-level
    state ([activeSessions], [testQueue], [isProcessingQueue], the SQLite
    tables) is threaded explicitly. *)

From Stdlib Require Import String Ascii List ZArith QArith Qabs Qpower Bool.
From Stdlib Require Import Lia Lqa.
From Stdlib Require Import DecimalString.
From stdpp Require Import gmap strings.
Import ListNotations.

Local Open Scope string_scope.
Local Open Scope list_scope.

(** ** JavaScript control effects *)

(** The result of evaluating a JS call: a value, or a thrown [Error] whose
    [message] is recorded. *)
Inductive outcome (A : Type) : Type :=
| Return (a : A)
| Throw (msg : string).
Arguments Return {A} a.
Arguments Throw {A} msg.

Definition bind {A B} (m : outcome A) (k : A -> outcome B) : outcome B :=
  match m with
  | Return a => k a
  | Throw e => Throw e
  end.

Notation "'do' x <- m ; k" := (bind m (fun x => k))
  (at level 10, x name, m at level 100, k at level 200).

(** JS truthiness of a string, and of a possibly-undefined string. *)
Definition truthy (s : string) : bool := negb (String.eqb s "").

Definition truthy_opt (o : option string) : bool :=
  match o with
  | Some s => truthy s
  | None => false
  end.

(** [a || b] on possibly-undefined strings. *)
Definition or_else (o : option string) (d : string) : string :=
  match o with
  | Some s => if truthy s then s else d
  | None => d
  end.

(** [x || null] as used for bound SQL parameters. *)
Definition or_null (o : option string) : option string :=
  match o with
  | Some s => if truthy s then Some s else None
  | None => None
  end.

(** ** JavaScript numbers *)

(** A JS number is an IEEE 754 binary64 value.  A finite one is kept as
    the rational it denotes exactly (the two zeros are not told apart:
    they print alike, are both falsy, and nothing modelled divides by a
    zero).  Arithmetic on numbers is exact arithmetic followed by [b64],
    the rounding to the nearest binary64 value, ties to the even
    significand. *)
Module Number.

Definition pow2 (k : Z) : Q := Qpower 2 k.

Definition pow10 (k : Z) : Q := Qpower 10 k.

(** The integer nearest to [s], the even one on a tie. *)
Definition rne (s : Q) : Z :=
  let fl := (Qnum s / Zpos (Qden s))%Z in
  let r := (Qnum s mod Zpos (Qden s))%Z in
  match (2 * r ?= Zpos (Qden s))%Z with
  | Lt => fl
  | Gt => (fl + 1)%Z
  | Eq => if Z.even fl then fl else (fl + 1)%Z
  end.

(** For [a > 0], the integer [l] with [2^l <= a < 2^(l+1)]. *)
Definition ilog2 (a : Q) : Z :=
  let d := (Z.log2 (Qnum a) - Z.log2 (Zpos (Qden a)))%Z in
  if Qle_bool (pow2 d) a then d else (d - 1)%Z.

(** The exponent of the last place of the binary64 values around
    [a > 0]: 53 significant bits, and never below the exponent of the
    subnormal numbers. *)
Definition exponent (a : Q) : Z := Z.max (ilog2 a - 52) (-1074).

(** Rounding of [a > 0] to a multiple of [2^exponent]. *)
Definition round (a : Q) : Q :=
  let e := exponent a in
  inject_Z (rne (a * pow2 (- e))) * pow2 e.

(** The binary64 value nearest to [x], as long as that value is finite;
    the result is in lowest terms. *)
Definition b64 (x : Q) : Q :=
  let x := Qred x in
  match Qnum x with
  | Z0 => 0
  | Zpos _ => Qred (round x)
  | Zneg _ => Qred (- round (- x))
  end.

Inductive number : Type :=
| NaN
| Infinity (negative : bool)
| Finite (value : Q).

(** The number for the real [x]: rounding that reaches [2^1024]
    overflows to an infinity. *)
Definition of_Q (x : Q) : number :=
  let r := b64 x in
  if Qle_bool (pow2 1024) (Qabs r) then Infinity (Qnum r <? 0)%Z
  else Finite r.

Definition of_Z (z : Z) : number := of_Q (inject_Z z).

(** JS truthiness of a number. *)
Definition truthy (n : number) : bool :=
  match n with
  | NaN => false
  | Infinity _ => true
  | Finite value => negb (Qeq_bool value 0)
  end.

(** [n || d]. *)
Definition or_else (n d : number) : number := if truthy n then n else d.

Definition digits (n : Z) : string :=
  NilZero.string_of_uint (N.to_uint (Z.to_N n)).

Definition floor (x : Q) : Z := (Qnum x / Zpos (Qden x))%Z.

(** For [a > 0], the integer [l] with [10^l <= a < 10^(l+1)]. *)
Definition ilog10 (a : Q) : Z :=
  let d := (Z.of_nat (String.length (digits (Qnum a)))
            - Z.of_nat (String.length (digits (Zpos (Qden a)))))%Z in
  if Qle_bool (pow10 d) a then d else (d - 1)%Z.

(** Whether the real [v] has the number value [x]. *)
Definition is_value (x v : Q) : bool :=
  match of_Q v with
  | Finite r => Qeq_bool r x
  | _ => false
  end.

(** [Number::toString], the choice of the digits: among the decimals
    [s * 10^(n-k)] with [k] digits that have the number value [x], the
    one nearest to [x] (the even [s] on a tie), if there is one. *)
Definition candidate (x : Q) (n0 k : Z) : option (Z * Z) :=
  let scale := pow10 (n0 - k) in
  let lo := floor (x / scale) in
  let hi := (lo + 1)%Z in
  let ok_lo := is_value x (inject_Z lo * scale) in
  let ok_hi := is_value x (inject_Z hi * scale) in
  let pick :=
    if ok_lo && ok_hi then
      match Qcompare (x - inject_Z lo * scale) (inject_Z hi * scale - x) with
      | Lt => Some lo
      | Gt => Some hi
      | Eq => Some (if Z.even lo then lo else hi)
      end
    else if ok_lo then Some lo
    else if ok_hi then Some hi
    else None in
  match pick with
  | Some s => if (s =? 10 ^ k)%Z then Some ((n0 + 1)%Z, (10 ^ (k - 1))%Z)
              else Some (n0, s)
  | None => None
  end.

(** The least [k] that has a candidate; seventeen digits always do. *)
Fixpoint shortest (x : Q) (n0 k : Z) (more : nat) : Z * Z * Z :=
  match more with
  | O => (n0, k, floor (x / pow10 (n0 - k)))
  | S more' =>
      match candidate x n0 k with
      | Some (n, s) => (n, k, s)
      | None => shortest x n0 (k + 1) more'
      end
  end.

Fixpoint zeros (n : nat) : string :=
  match n with
  | O => ""
  | S n' => String "0" (zeros n')
  end.

Definition exponent_part (n : Z) : string :=
  "e" ++ (if (n - 1 <? 0)%Z then "-" else "+") ++ digits (Z.abs (n - 1)).

(** [Number::toString(x)] for a finite [x > 0], radix 10. *)
Definition toString_pos (x : Q) : string :=
  let '(n, k, s) := shortest x (ilog10 x + 1) 1 17 in
  let ds := digits s in
  if ((k <=? n) && (n <=? 21))%Z then ds ++ zeros (Z.to_nat (n - k))
  else if ((0 <? n) && (n <=? 21))%Z then
    String.substring 0 (Z.to_nat n) ds ++ "."
      ++ String.substring (Z.to_nat n) (Z.to_nat (k - n)) ds
  else if ((-6 <? n) && (n <=? 0))%Z then
    "0." ++ zeros (Z.to_nat (- n)) ++ ds
  else if (k =? 1)%Z then ds ++ exponent_part n
  else String.substring 0 1 ds ++ "."
         ++ String.substring 1 (Z.to_nat (k - 1)) ds ++ exponent_part n.

(** [String(n)], as a template literal renders a number. *)
Definition toString (n : number) : string :=
  match n with
  | NaN => "NaN"
  | Infinity negative => if negative then "-Infinity" else "Infinity"
  | Finite value =>
      match Qnum value with
      | Z0 => "0"
      | Zpos _ => toString_pos value
      | Zneg _ => "-" ++ toString_pos (- value)
      end
  end.

End Number.

(** ** Data carried by action logs and reports *)

(** Numbers.  Counts and step numbers are [nat]; millisecond instants and
    their differences are [Z]; the two ratios computed by the report
    builder are binary64 values, kept as the rationals they denote (they
    are finite: each is a quotient by a positive count).  A timestamp is
    the instant, in milliseconds since the epoch, that the ISO-8601 string
    written by [new Date().toISOString()] denotes and that [new Date(s)]
    reads back. *)

(** The decision executed in one step, shaped as documented for
    [analyzeAndAct]: [{action, target?, value?, reasoning}]. *)
Record Action : Type := mkAction {
  a_action : string;
  a_target : option string;
  a_value : option string;
  a_reasoning : option string
}.

(** What [executeAction] reports: [{success, message, error?}]. *)
Record Result : Type := mkResult {
  r_success : bool;
  r_message : string;
  r_error : option string
}.

(** Page context at the time of the step: [{url, title?}]. *)
Record Context : Type := mkContext {
  c_url : string;
  c_title : option string
}.

(** One entry of the action log: [{timestamp, action, result, context}]. *)
Record ActionLog : Type := mkActionLog {
  timestamp : Z;
  action : Action;
  result : Result;
  context : Context
}.

Record NavigationStep : Type := mkNavigationStep {
  nav_step : nat;
  nav_url : string;
  nav_title : string;
  nav_timestamp : Z
}.

Record IssueDetails : Type := mkIssueDetails {
  d_action : string;
  d_target : option string;
  d_error : option string
}.

Record Issue : Type := mkIssue {
  severity : string;
  type : string;
  message : string;
  issue_timestamp : Z;
  page : string;
  details : IssueDetails
}.

Record TimelineEntry : Type := mkTimelineEntry {
  tl_step : nat;
  tl_timestamp : Z;
  tl_action : string;
  tl_target : option string;
  tl_value : option string;
  tl_reasoning : option string;
  tl_success : bool;
  tl_message : string;
  tl_page : Context
}.

Record Summary : Type := mkSummary {
  s_pagesVisited : nat;
  actionsPerformed : nat;
  issuesFound : nat;
  duration : Z;
  s_successRate : string
}.

Record PerformanceMetrics : Type := mkPerformanceMetrics {
  totalDuration : Z;
  averageActionTime : Q;
  successRate : Q
}.

Record Report : Type := mkReport {
  testId : string;
  browserbaseSessionId : string;
  recordingUrl : option string;
  report_timestamp : string;
  summary : Summary;
  navigationPath : list NavigationStep;
  pagesVisited : list string;
  actionsTimeline : list TimelineEntry;
  issues : list Issue;
  performanceMetrics : PerformanceMetrics
}.

(** ** database/db.js *)

Module Db.

(** A row of table [tests].  Column [status] is TEXT: the store accepts
    any string, the callers write 'pending', 'queued', 'running',
    'completed', 'failed' and 'stopped'. *)
Record TestRow : Type := mkTestRow {
  url : string;
  status : string;
  created_at : string;
  started_at : option string;
  completed_at : option string;
  browserbase_session_id : option string;
  error : option string
}.

(** The [tests] table is a finite map keyed by its PRIMARY KEY [id]. *)

(** [createTest]: INSERT; the PRIMARY KEY constraint makes the statement
    throw when the id is already present. *)
Definition createTest (now : string) (testId url : string)
    (browserbaseSessionId : option string) (db : gmap string TestRow)
  : outcome (gmap string TestRow) :=
  match db !! testId with
  | Some _ => Throw "UNIQUE constraint failed: tests.id"
  | None =>
      Return (<[testId := {| url := url; status := "pending";
                             created_at := now; started_at := None;
                             completed_at := None;
                             browserbase_session_id := browserbaseSessionId;
                             error := None |}]> db)
  end.

Definition set_running (now : string) (st : string) (r : TestRow) : TestRow :=
  {| url := url r; status := st; created_at := created_at r;
     started_at := Some now; completed_at := completed_at r;
     browserbase_session_id := browserbase_session_id r;
     error := error r |}.

Definition set_finished (now : string) (st : string) (err : option string)
    (r : TestRow) : TestRow :=
  {| url := url r; status := st; created_at := created_at r;
     started_at := started_at r; completed_at := Some now;
     browserbase_session_id := browserbase_session_id r;
     error := err |}.

Definition set_status (st : string) (r : TestRow) : TestRow :=
  {| url := url r; status := st; created_at := created_at r;
     started_at := started_at r; completed_at := completed_at r;
     browserbase_session_id := browserbase_session_id r;
     error := error r |}.

(** [updateTestStatus(testId, status, error = null)].  Each branch is one
    UPDATE ... WHERE id = ?, which changes nothing when no row matches. *)
Definition updateTestStatus (now : string) (testId status : string)
    (error : option string) (db : gmap string TestRow) : gmap string TestRow :=
  if String.eqb status "running" then
    alter (set_running now status) testId db
  else if String.eqb status "completed" || String.eqb status "failed" then
    alter (set_finished now status error) testId db
  else
    alter (set_status status) testId db.

(** [getTest]: SELECT * FROM tests WHERE id = ?. *)
Definition getTest (testId : string) (db : gmap string TestRow) : option TestRow :=
  db !! testId.

(** A row of table [reports]; [data] stands for the [data_json] text, which
    [getReport] parses back into the report object.  The AUTOINCREMENT key
    [id] is left out: nothing modelled here reads it. *)
Record ReportRow : Type := mkReportRow {
  test_id : string;
  data : Report;
  browserbase_recording_url : option string;
  issues_count : nat;
  pages_visited : nat;
  actions_count : nat;
  report_created_at : string
}.

(** The two tables the handlers below read and write.  [reports] is kept
    in insertion order. *)
Record Store : Type := mkStore {
  tests : gmap string TestRow;
  reports : list ReportRow
}.

(** [createReport]: INSERT into [reports].  Foreign keys are enabled, so
    the statement throws unless the owning test row exists. *)
Definition createReport (now : string) (testId : string) (reportData : Report)
    (browserbaseRecordingUrl : option string) (st : Store) : outcome Store :=
  match tests st !! testId with
  | None => Throw "FOREIGN KEY constraint failed"
  | Some _ =>
      Return {| tests := tests st;
                reports := reports st ++
                  [ {| test_id := testId;
                       data := reportData;
                       browserbase_recording_url := browserbaseRecordingUrl;
                       issues_count := issuesFound (summary reportData);
                       pages_visited := s_pagesVisited (summary reportData);
                       actions_count := actionsPerformed (summary reportData);
                       report_created_at := now |} ] |}
  end.

(** The row with the greatest [created_at] among [rows], the earliest
    inserted one on a tie (SQL leaves the order of ties open). *)
Fixpoint latest (rows : list ReportRow) (best : option ReportRow)
  : option ReportRow :=
  match rows with
  | [] => best
  | r :: rest =>
      match best with
      | None => latest rest (Some r)
      | Some b =>
          if String.ltb (report_created_at b) (report_created_at r)
          then latest rest (Some r)
          else latest rest (Some b)
      end
  end.

(** [getReport]: SELECT ... WHERE test_id = ? ORDER BY created_at DESC
    LIMIT 1. *)
Definition getReport (testId : string) (st : Store) : option ReportRow :=
  latest (List.filter (fun r => String.eqb (test_id r) testId) (reports st)) None.

End Db.

(** ** services/browserbase-service.js: the recording lookup *)

Module Browserbase.

(** What [browserbase.sessions.retrieve] returns, as far as it is read. *)
Record SessionInfo : Type := mkSessionInfo {
  session_status : string;
  endedAt : option string
}.

(** What [browserbase.sessions.create] returns, as far as it is read. *)
Record ProviderSession : Type := mkProviderSession {
  id : string;
  liveUrl : option string;
  debugUrl : option string
}.

Record CreatedSession : Type := mkCreatedSession {
  sessionId : string;
  liveViewUrl : string;
  cs_debugUrl : option string
}.

(** [createSession]: the provider's error is rethrown with a prefix. *)
Definition createSession (create : outcome ProviderSession)
  : outcome CreatedSession :=
  match create with
  | Return session =>
      Return {| sessionId := id session;
                liveViewUrl :=
                  or_else (liveUrl session)
                          ("https://browserbase.com/sessions/" ++ id session);
                cs_debugUrl := or_null (debugUrl session) |}
  | Throw msg => Throw ("Failed to create Browserbase session: " ++ msg)
  end.

Definition recordingUrlOf (sessionId : string) : string :=
  "https://browserbase.com/sessions/" ++ sessionId.

(** The [for] loop of [getRecordingUrl]: [attempt] runs from its current
    value while [remaining] attempts are left; [retrieve n] is what the
    provider answers (or throws) on attempt [n].  The fixed delay between
    attempts has no effect on the result. *)
Fixpoint getRecordingUrl_loop (retrieve : nat -> outcome SessionInfo)
    (sessionId : string) (remaining attempt : nat) : option string :=
  match remaining with
  | O =>
      (* "Even if session is not marked as completed, return the URL anyway" *)
      Some (recordingUrlOf sessionId)
  | S k =>
      match retrieve attempt with
      | Return session =>
          if String.eqb (session_status session) "COMPLETED"
             || truthy_opt (endedAt session)
          then Some (recordingUrlOf sessionId)
          else getRecordingUrl_loop retrieve sessionId k (S attempt)
      | Throw _ => getRecordingUrl_loop retrieve sessionId k (S attempt)
      end
  end.

(** [getRecordingUrl(sessionId, maxRetries = 5, retryDelay = 2000)],
    declared to return [string|null]. *)
Definition getRecordingUrl (retrieve : nat -> outcome SessionInfo)
    (sessionId : string) (maxRetries : nat) : option string :=
  getRecordingUrl_loop retrieve sessionId maxRetries 1.

Definition defaultMaxRetries : nat := 5.

End Browserbase.

(** ** services/report-service.js *)

Module ReportService.

Import Browserbase.

(** [[...new Set(xs)]]: the distinct elements in first-seen order. *)
Fixpoint uniq (seen xs : list string) : list string :=
  match xs with
  | [] => []
  | x :: rest =>
      if existsb (String.eqb x) seen then uniq seen rest
      else x :: uniq (x :: seen) rest
  end.

(** [xs.map((x, index) => f(index, x))], with [index] counted from [i]. *)
Fixpoint mapi_from {A B} (i : nat) (f : nat -> A -> B) (xs : list A) : list B :=
  match xs with
  | [] => []
  | x :: rest => f i x :: mapi_from (S i) f rest
  end.

Definition mapi {A B} (f : nat -> A -> B) (xs : list A) : list B :=
  mapi_from 0 f xs.

(** [actionLogs.map(log => log.context?.url).filter(Boolean)], made
    distinct. *)
Definition pagesVisitedOf (actionLogs : list ActionLog) : list string :=
  uniq [] (List.filter truthy (map (fun log => c_url (context log)) actionLogs)).

Definition navigationPathOf (actionLogs : list ActionLog) : list NavigationStep :=
  mapi (fun index log =>
          {| nav_step := index + 1;
             nav_url := c_url (context log);
             nav_title := or_else (c_title (context log)) "Unknown";
             nav_timestamp := timestamp log |})
       (List.filter (fun log => truthy (c_url (context log))) actionLogs).

Definition issueOf (log : ActionLog) : Issue :=
  {| severity := "error";
     type := "action_failed";
     message := "Failed to " ++ a_action (action log) ++ ": "
                ++ or_else (r_error (result log)) (r_message (result log));
     issue_timestamp := timestamp log;
     page := c_url (context log);
     details := {| d_action := a_action (action log);
                   d_target := a_target (action log);
                   d_error := r_error (result log) |} |}.

(** The [forEach] that pushes one issue per log whose [result.success] is
    falsy, onto the issues collected so far. *)
Fixpoint pushIssues (issues : list Issue) (actionLogs : list ActionLog)
  : list Issue :=
  match actionLogs with
  | [] => issues
  | log :: rest =>
      if negb (r_success (result log))
      then pushIssues (issues ++ [issueOf log]) rest
      else pushIssues issues rest
  end.

Definition issuesOf (actionLogs : list ActionLog) : list Issue :=
  pushIssues [] actionLogs.

Definition actionsTimelineOf (actionLogs : list ActionLog) : list TimelineEntry :=
  mapi (fun index log =>
          {| tl_step := index + 1;
             tl_timestamp := timestamp log;
             tl_action := a_action (action log);
             tl_target := a_target (action log);
             tl_value := a_value (action log);
             tl_reasoning := a_reasoning (action log);
             tl_success := r_success (result log);
             tl_message := r_message (result log);
             tl_page := {| c_url := c_url (context log);
                           c_title := c_title (context log) |} |})
       actionLogs.

(** [startTime && endTime ? new Date(endTime) - new Date(startTime) : 0]
    with [startTime = actionLogs[0]?.timestamp] and
    [endTime = actionLogs[actionLogs.length - 1]?.timestamp]. *)
Definition durationOf (actionLogs : list ActionLog) : Z :=
  match nth_error actionLogs 0,
        nth_error actionLogs (length actionLogs - 1) with
  | Some first, Some final => (timestamp final - timestamp first)%Z
  | _, _ => 0%Z
  end.

(** [actionLogs.length > 0
      ? (actionLogs.filter(log => log.result.success).length
         / actionLogs.length) * 100
      : 0]: a binary64 division followed by a binary64 multiplication. *)
Definition successRateOf (actionLogs : list ActionLog) : Q :=
  if (0 <? length actionLogs)%nat then
    Number.b64
      (Number.b64
         (inject_Z (Z.of_nat
                      (length (List.filter
                                 (fun log => r_success (result log))
                                 actionLogs)))
          / inject_Z (Z.of_nat (length actionLogs)))
       * 100)
  else 0.

(** [actionLogs.length > 0 ? duration / actionLogs.length : 0]. *)
Definition averageActionTimeOf (actionLogs : list ActionLog) : Q :=
  if (0 <? length actionLogs)%nat then
    Number.b64 (inject_Z (durationOf actionLogs)
                / inject_Z (Z.of_nat (length actionLogs)))
  else 0.

Definition digits (n : Z) : string :=
  NilZero.string_of_uint (N.to_uint (Z.to_N n)).

(** [x.toFixed(2)] for a number below [10^21], given by the rational it
    denotes: the integer [n] nearest to [100 x] (the larger one on a
    tie), printed with two decimals. *)
Definition toFixed2_nonneg (x : Q) : string :=
  let n := ((Qnum x * 200 + Zpos (Qden x)) / (2 * Zpos (Qden x)))%Z in
  let frac := (n mod 100)%Z in
  digits (n / 100) ++ "."
    ++ (if (frac <? 10)%Z then "0" else "") ++ digits frac.

Definition toFixed2 (x : Q) : string :=
  if (Qnum x <? 0)%Z then "-" ++ toFixed2_nonneg (- x) else toFixed2_nonneg x.

(** The report object assembled by [generateReport]. *)
Definition buildReport (isoNow : string) (recordingUrl : option string)
    (testId : string) (actionLogs : list ActionLog)
    (browserbaseSessionId : string) : Report :=
  let pagesVisited := pagesVisitedOf actionLogs in
  let navigationPath := navigationPathOf actionLogs in
  let issues := issuesOf actionLogs in
  let actionsTimeline := actionsTimelineOf actionLogs in
  let duration := durationOf actionLogs in
  let performanceMetrics :=
    {| totalDuration := duration;
       averageActionTime := averageActionTimeOf actionLogs;
       successRate := successRateOf actionLogs |} in
  {| testId := testId;
     browserbaseSessionId := browserbaseSessionId;
     recordingUrl := recordingUrl;
     report_timestamp := isoNow;
     summary := {| s_pagesVisited := length pagesVisited;
                   actionsPerformed := length actionLogs;
                   issuesFound := length issues;
                   duration := duration;
                   s_successRate :=
                     toFixed2 (successRate performanceMetrics) ++ "%" |};
     navigationPath := navigationPath;
     pagesVisited := pagesVisited;
     actionsTimeline := actionsTimeline;
     issues := issues;
     performanceMetrics := performanceMetrics |}.

(** [generateReport(testId, actionLogs, browserbaseSessionId)].
    [isoNow] is the process clock read for [report.timestamp], [dbNow]
    the store's [datetime('now')], [retrieve] the provider's answers to
    the recording lookup.  Whatever the body throws is rethrown with the
    prefix below. *)
Definition generateReport (isoNow dbNow : string)
    (retrieve : nat -> outcome SessionInfo)
    (testId : string) (actionLogs : list ActionLog)
    (browserbaseSessionId : string) (st : Db.Store)
  : outcome (Report * Db.Store) :=
  let recordingUrl :=
    getRecordingUrl retrieve browserbaseSessionId defaultMaxRetries in
  let report :=
    buildReport isoNow recordingUrl testId actionLogs browserbaseSessionId in
  match Db.createReport dbNow testId report recordingUrl st with
  | Return st' => Return (report, st')
  | Throw msg => Throw ("Report generation failed: " ++ msg)
  end.

(** [getTestReport]: the stored report object of the latest row.  (The
    narrative summary that the handler may attach under [aiSummary] lives
    in a column the schema of [db.js] does not declare; it is left out.) *)
Definition getTestReport (testId : string) (st : Db.Store) : option Report :=
  match Db.getReport testId st with
  | None => None
  | Some row => Some (Db.data row)
  end.

End ReportService.

(** ** routes/test-routes.js *)

Module Routes.

Import Browserbase.

Record ProgressEvent : Type := mkProgressEvent {
  p_timestamp : string;
  p_status : string;
  p_message : string
}.

(** A value of the [activeSessions] map. *)
Record Session : Type := mkSession {
  status : string;
  progress : list ProgressEvent;
  queuePosition : option nat;
  queuedAt : option string;
  startedAt : option string;
  completedAt : option string;
  session_recordingUrl : option string
}.

(** An element of [testQueue].  No producer sets [updateCallback], so the
    two [if (queuedTest.updateCallback)] blocks of [processQueue] never
    run and the field is left out. *)
Record QueuedTest : Type := mkQueuedTest {
  q_testId : string;
  q_url : string;
  q_queuedAt : string
}.

(** The module-level state of the router together with the store. *)
Record Server : Type := mkServer {
  store : Db.Store;
  activeSessions : gmap string Session;
  testQueue : list QueuedTest;
  isProcessingQueue : bool
}.

Definition initial : Server :=
  {| store := {| Db.tests := ∅; Db.reports := [] |};
     activeSessions := ∅;
     testQueue := [];
     isProcessingQueue := false |}.

(** One reading of the two clocks: SQLite's [datetime('now')] and
    [new Date().toISOString()]. *)
Record Clock : Type := mkClock {
  dbNow : string;
  isoNow : string
}.

Inductive Body : Type :=
| ErrorBody (error message : string) (status : option string)
| QueuedBody (testId : string) (queuePosition : nat)
| StartingBody (testId sessionId liveViewUrl : string)
| ActiveStatusBody (testId : string) (session : Session)
| StoredStatusBody (testId : string) (row : Db.TestRow)
    (recordingUrl : option string)
| RecordingBody (testId sessionId recordingUrl : string)
| ReportBody (report : Report)
| StoppedBody (testId status : string).

Record Response : Type := mkResponse {
  code : nat;
  body : Body
}.

Definition with_tests (tests : gmap string Db.TestRow) (s : Server) : Server :=
  {| store := {| Db.tests := tests; Db.reports := Db.reports (store s) |};
     activeSessions := activeSessions s;
     testQueue := testQueue s;
     isProcessingQueue := isProcessingQueue s |}.

Definition with_store (st : Db.Store) (s : Server) : Server :=
  {| store := st;
     activeSessions := activeSessions s;
     testQueue := testQueue s;
     isProcessingQueue := isProcessingQueue s |}.

Definition with_activeSessions (m : gmap string Session) (s : Server) : Server :=
  {| store := store s;
     activeSessions := m;
     testQueue := testQueue s;
     isProcessingQueue := isProcessingQueue s |}.

Definition with_testQueue (q : list QueuedTest) (s : Server) : Server :=
  {| store := store s;
     activeSessions := activeSessions s;
     testQueue := q;
     isProcessingQueue := isProcessingQueue s |}.

Definition with_isProcessingQueue (b : bool) (s : Server) : Server :=
  {| store := store s;
     activeSessions := activeSessions s;
     testQueue := testQueue s;
     isProcessingQueue := b |}.

Definition tests (s : Server) : gmap string Db.TestRow := Db.tests (store s).

(** [updateTestStatus] applied to the server's store. *)
Definition updateTestStatus (clk : Clock) (testId status : string)
    (error : option string) (s : Server) : Server :=
  with_tests (Db.updateTestStatus (dbNow clk) testId status error (tests s)) s.

(** The synchronous head of [runTestInBackground]: everything before its
    first [await]. *)
Definition runTestInBackground_begin (clk : Clock) (testId : string)
    (s : Server) : Server :=
  let s := updateTestStatus clk testId "running" None s in
  with_activeSessions
    (<[testId := {| status := "running"; progress := [];
                    queuePosition := None; queuedAt := None;
                    startedAt := Some (isoNow clk); completedAt := None;
                    session_recordingUrl := None |}]> (activeSessions s)) s.

(** The [while] loop of [processQueue].  [create n] is the provider's
    answer to the [n]-th session request of this pass.  The loop removes
    one element of [testQueue] per iteration, so it is written by recursion
    on the queue it starts from. *)
Fixpoint processQueue_while (clk : Clock)
    (create : nat -> outcome ProviderSession) (n : nat)
    (queue : list QueuedTest) (s : Server) : Server :=
  match queue with
  | [] => s
  | queuedTest :: rest =>
      if (1 <=? size (activeSessions s))%nat then
        (* "Queue processing paused": break *)
        s
      else
        (* testQueue.shift() *)
        let s := with_testQueue rest s in
        let started :=
          do session <- createSession (create n);
          do tests' <- Db.createTest (dbNow clk) (q_testId queuedTest)
                         (q_url queuedTest) (Some (sessionId session)) (tests s);
          Return (runTestInBackground_begin clk (q_testId queuedTest)
                    (with_tests tests' s)) in
        match started with
        | Return s' => processQueue_while clk create (S n) rest s'
        | Throw msg =>
            processQueue_while clk create (S n) rest
              (updateTestStatus clk (q_testId queuedTest) "failed" (Some msg) s)
        end
  end.

(** [processQueue()]. *)
Definition processQueue (clk : Clock) (create : nat -> outcome ProviderSession)
    (s : Server) : Server :=
  if isProcessingQueue s || (length (testQueue s) =? 0)%nat then s
  else
    let s := with_isProcessingQueue true s in
    let s := processQueue_while clk create 0 (testQueue s) s in
    with_isProcessingQueue false s.

Definition respond (code : nat) (body : Body) (s : Server) : Response * Server :=
  ({| code := code; body := body |}, s).

(** [POST /start].  [url] is [req.body.url]; [urlParses] tells whether
    [new URL(url)] returns; [uuid] is the value of [randomUUID()];
    [create] is the provider's answer should a session be requested. *)
Definition post_start (clk : Clock) (url : option string) (urlParses : bool)
    (uuid : string) (create : outcome ProviderSession) (s : Server)
  : Response * Server :=
  match or_null url with
  | None =>
      respond 400 (ErrorBody "URL is required"
                     "Please provide a website URL to test" None) s
  | Some url =>
      if negb urlParses then
        respond 400 (ErrorBody "Invalid URL"
          "Please provide a valid URL including protocol (e.g., https://example.com)"
          None) s
      else
        let testId := uuid in
        if (1 <=? size (activeSessions s))%nat then
          match Db.createTest (dbNow clk) testId url None (tests s) with
          | Throw msg =>
              respond 500 (ErrorBody "Failed to start test" msg None) s
          | Return tests' =>
              let s := with_tests tests' s in
              let s := updateTestStatus clk testId "queued" None s in
              let s := with_testQueue
                         (testQueue s ++ [ {| q_testId := testId; q_url := url;
                                              q_queuedAt := isoNow clk |} ]) s in
              let s := with_activeSessions
                         (<[testId := {| status := "queued"; progress := [];
                                         queuePosition := Some (length (testQueue s));
                                         queuedAt := Some (isoNow clk);
                                         startedAt := None; completedAt := None;
                                         session_recordingUrl := None |}]>
                            (activeSessions s)) s in
              respond 200 (QueuedBody testId (length (testQueue s))) s
          end
        else
          match createSession create with
          | Throw msg =>
              respond 500 (ErrorBody "Failed to start test" msg None) s
          | Return session =>
              match Db.createTest (dbNow clk) testId url
                      (Some (sessionId session)) (tests s) with
              | Throw msg =>
                  (* the session is released best-effort; no state of the
                     server changes *)
                  respond 500 (ErrorBody "Failed to start test" msg None) s
              | Return tests' =>
                  let s := runTestInBackground_begin clk testId
                             (with_tests tests' s) in
                  respond 200 (StartingBody testId (sessionId session)
                                 (liveViewUrl session)) s
              end
          end
  end.

(** How the awaited part of [runTestInBackground] went up to the point
    where the report is generated: some awaited call threw, or the
    scripted protocol ran through and produced its action log, after
    which [retrieve] answers the recording lookup of [generateReport]. *)
Inductive JobRun : Type :=
| Threw (msg : string)
| Finished (actionLogs : list ActionLog)
    (retrieve : nat -> outcome SessionInfo).

(** The tail of [runTestInBackground]: the end of the [try] block, or the
    [catch] block, each followed by [activeSessions.delete] and
    [processQueue()].  The fields written to the in-memory session just
    before it is deleted are not observable and are left out, as is the
    narrative-summary step, whose failure is swallowed. *)
Definition runTestInBackground_end (clk : Clock)
    (create : nat -> outcome ProviderSession)
    (testId browserbaseSessionId : string) (run : JobRun) (s : Server)
  : Server :=
  let tried :=
    match run with
    | Threw msg => Throw msg
    | Finished actionLogs retrieve =>
        match ReportService.generateReport (isoNow clk) (dbNow clk) retrieve
                testId actionLogs browserbaseSessionId (store s) with
        | Throw msg => Throw msg
        | Return (_, st') =>
            Return (updateTestStatus clk testId "completed" None
                      (with_store st' s))
        end
    end in
  let s :=
    match tried with
    | Return s' => s'
    | Throw msg => updateTestStatus clk testId "failed" (Some msg) s
    end in
  let s := with_activeSessions (delete testId (activeSessions s)) s in
  processQueue clk create s.

(** [GET /:testId/status]. *)
Definition get_status (testId : string) (s : Server) : Response :=
  match activeSessions s !! testId with
  | Some activeSession =>
      {| code := 200; body := ActiveStatusBody testId activeSession |}
  | None =>
      match Db.getTest testId (tests s) with
      | None =>
          {| code := 404;
             body := ErrorBody "Test not found"
                       ("No test found with ID: " ++ testId) None |}
      | Some test =>
          let recordingUrl :=
            if String.eqb (Db.status test) "completed" then
              match Db.getReport testId (store s) with
              | Some report => recordingUrl (Db.data report)
              | None => None
              end
            else None in
          {| code := 200; body := StoredStatusBody testId test recordingUrl |}
      end
  end.

(** [GET /:testId/recording]; [retrieve] answers the lookup's polls. *)
Definition get_recording (retrieve : nat -> outcome SessionInfo)
    (testId : string) (s : Server) : Response :=
  match Db.getTest testId (tests s) with
  | None =>
      {| code := 404;
         body := ErrorBody "Test not found"
                   ("No test found with ID: " ++ testId) None |}
  | Some test =>
      match or_null (Db.browserbase_session_id test) with
      | None =>
          {| code := 400;
             body := ErrorBody "No session ID"
                       "Test does not have a Browserbase session ID" None |}
      | Some sid =>
          match or_null (getRecordingUrl retrieve sid defaultMaxRetries) with
          | None =>
              {| code := 404;
                 body := ErrorBody "Recording not available"
                   "Session recording is not yet available. Please try again in a few moments."
                   None |}
          | Some recordingUrl =>
              {| code := 200; body := RecordingBody testId sid recordingUrl |}
          end
      end
  end.

(** [GET /:testId/report]. *)
Definition get_report (testId : string) (s : Server) : Response :=
  match Db.getTest testId (tests s) with
  | None =>
      {| code := 404;
         body := ErrorBody "Test not found"
                   ("No test found with ID: " ++ testId) None |}
  | Some test =>
      if negb (String.eqb (Db.status test) "completed") then
        {| code := 400;
           body := ErrorBody "Test not completed"
                     ("Test is currently " ++ Db.status test
                      ++ ". Reports are only available for completed tests.")
                     (Some (Db.status test)) |}
      else
        match ReportService.getTestReport testId (store s) with
        | None =>
            {| code := 404;
               body := ErrorBody "Report not found"
                         "Test completed but report was not generated" None |}
        | Some report => {| code := 200; body := ReportBody report |}
        end
  end.

(** [POST /:testId/stop].  Ending the remote session is best-effort and
    touches no state of the server. *)
Definition post_stop (clk : Clock) (testId : string) (s : Server)
  : Response * Server :=
  match Db.getTest testId (tests s) with
  | None =>
      respond 404 (ErrorBody "Test not found"
                     ("No test found with ID: " ++ testId) None) s
  | Some test =>
      if negb (String.eqb (Db.status test) "running") then
        respond 400 (ErrorBody "Test not running"
                       ("Test is currently " ++ Db.status test
                        ++ " and cannot be stopped.")
                       (Some (Db.status test))) s
      else
        let s := updateTestStatus clk testId "stopped"
                   (Some "Manually stopped by user") s in
        let s := with_activeSessions (delete testId (activeSessions s)) s in
        respond 200 (StoppedBody testId "stopped") s
  end.

(** The things that happen to a server.  A request is served up to its
    response in one step, and so is the tail of a background job: the calls
    they await (session creation, the recording lookup) are answered by
    the event's arguments before any other event is taken. *)
Inductive Event : Type :=
| StartRequest (clk : Clock) (url : option string) (urlParses : bool)
    (uuid : string) (create : outcome ProviderSession)
| StopRequest (clk : Clock) (testId : string)
| JobEnds (clk : Clock) (create : nat -> outcome ProviderSession)
    (testId browserbaseSessionId : string) (run : JobRun).

Definition step (s : Server) (e : Event) : Server :=
  match e with
  | StartRequest clk url urlParses uuid create =>
      snd (post_start clk url urlParses uuid create s)
  | StopRequest clk testId => snd (post_stop clk testId s)
  | JobEnds clk create testId sid run =>
      runTestInBackground_end clk create testId sid run s
  end.

Definition run (events : list Event) (s : Server) : Server :=
  fold_left step events s.

(** The stored status of a run, as [getTest] shows it. *)
Definition statusOf (testId : string) (s : Server) : option string :=
  Db.status <$> Db.getTest testId (tests s).

End Routes.

(** ** JSON text, as read by [JSON.parse] *)

Module Json.

(** A parsed JSON value.  A number keeps its literal; an object keeps its
    members in source order (a later duplicate key shadows an earlier
    one, see [get]). *)
#[local] Set Warnings "-register-all".
Inductive value : Type :=
| JNull
| JBool (b : bool)
| JNumber (literal : string)
| JString (s : string)
| JArray (items : list value)
| JObject (members : list (string * value)).

Inductive token : Type :=
| TLBrace | TRBrace | TLBracket | TRBracket | TColon | TComma
| TString (s : string)
| TNumber (literal : string)
| TTrue | TFalse | TNull.

(** States of the number grammar: an optional minus sign; a zero, or a
    nonzero digit followed by digits; optionally a dot and one or more
    digits; optionally an exponent mark, a sign and one or more digits. *)
Inductive num_state : Type :=
| NMinus | NZero | NInt | NDot | NFrac | NExp | NExpSign | NExpDigits.

Definition num_accepting (st : num_state) : bool :=
  match st with
  | NZero | NInt | NFrac | NExpDigits => true
  | _ => false
  end.

Definition is_digit (c : ascii) : bool :=
  let n := nat_of_ascii c in (48 <=? n)%nat && (n <=? 57)%nat.

Definition num_step (st : num_state) (c : ascii) : option num_state :=
  match st with
  | NMinus =>
      if Ascii.eqb c "0" then Some NZero
      else if is_digit c then Some NInt else None
  | NZero =>
      if Ascii.eqb c "." then Some NDot
      else if Ascii.eqb c "e" || Ascii.eqb c "E" then Some NExp else None
  | NInt =>
      if is_digit c then Some NInt
      else if Ascii.eqb c "." then Some NDot
      else if Ascii.eqb c "e" || Ascii.eqb c "E" then Some NExp else None
  | NDot => if is_digit c then Some NFrac else None
  | NFrac =>
      if is_digit c then Some NFrac
      else if Ascii.eqb c "e" || Ascii.eqb c "E" then Some NExp else None
  | NExp =>
      if Ascii.eqb c "+" || Ascii.eqb c "-" then Some NExpSign
      else if is_digit c then Some NExpDigits else None
  | NExpSign => if is_digit c then Some NExpDigits else None
  | NExpDigits => if is_digit c then Some NExpDigits else None
  end.

Definition hex_value (c : ascii) : option N :=
  let n := N_of_ascii c in
  if (48 <=? n)%N && (n <=? 57)%N then Some (n - 48)%N
  else if (65 <=? n)%N && (n <=? 70)%N then Some (n - 55)%N
  else if (97 <=? n)%N && (n <=? 102)%N then Some (n - 87)%N
  else None.

(** The characters a [\uXXXX] escape contributes.  Strings are kept as
    sequences of 8-bit units; a code unit above 7F is written in the
    one-to-three unit form UTF-8 uses for it. *)
Definition code_unit (n : N) : list ascii :=
  if (n <? 128)%N then [ascii_of_N n]
  else if (n <? 2048)%N then
    [ascii_of_N (192 + n / 64); ascii_of_N (128 + n mod 64)]
  else
    [ascii_of_N (224 + n / 4096); ascii_of_N (128 + (n / 64) mod 64);
     ascii_of_N (128 + n mod 64)].

(** The four units of a character beyond the basic plane. *)
Definition supplementary (n : N) : list ascii :=
  [ascii_of_N (240 + n / 262144); ascii_of_N (128 + (n / 4096) mod 64);
   ascii_of_N (128 + (n / 64) mod 64); ascii_of_N (128 + n mod 64)].

(** The high surrogate that ends the characters read so far (latest
    first), with what precedes it. *)
Definition ends_with_high_surrogate (acc : list ascii)
  : option (N * list ascii) :=
  match acc with
  | c3 :: c2 :: c1 :: before =>
      let n1 := N_of_ascii c1 in
      let n2 := N_of_ascii c2 in
      let n3 := N_of_ascii c3 in
      if (n1 =? 237)%N && (160 <=? n2)%N && (n2 <=? 175)%N
         && (128 <=? n3)%N && (n3 <=? 191)%N
      then Some (55296 + (n2 - 160) * 64 + (n3 - 128), before)%N
      else None
  | _ => None
  end.

(** The characters read so far once the code unit [n] of an escape is
    added: a low surrogate that follows a high one makes one character
    with it. *)
Definition push_code_unit (n : N) (acc : list ascii) : list ascii :=
  if (56320 <=? n)%N && (n <=? 57343)%N then
    match ends_with_high_surrogate acc with
    | Some (high, before) =>
        rev (supplementary (65536 + (high - 55296) * 1024 + (n - 56320))%N)
        ++ before
    | None => rev (code_unit n) ++ acc
    end
  else rev (code_unit n) ++ acc.

Definition of_rev (acc : list ascii) : string :=
  string_of_list_ascii (rev acc).

(** Lexer modes: between tokens, inside a string (after a backslash,
    inside a [\u] escape), inside a number, inside a literal name. *)
Inductive mode : Type :=
| MNormal
| MString (acc : list ascii)
| MEscape (acc : list ascii)
| MUnicode (acc : list ascii) (count : nat) (code : N)
| MNumber (acc : list ascii) (st : num_state)
| MLiteral (expected : list ascii) (tok : token).

Definition is_ws (c : ascii) : bool :=
  Ascii.eqb c " " || Ascii.eqb c "009" || Ascii.eqb c "010" || Ascii.eqb c "013".

(** One character read between tokens: the new mode and the tokens
    emitted, or [None] on a character that starts no token. *)
Definition normal_step (c : ascii) : option (mode * list token) :=
  if is_ws c then Some (MNormal, [])
  else if Ascii.eqb c "{" then Some (MNormal, [TLBrace])
  else if Ascii.eqb c "}" then Some (MNormal, [TRBrace])
  else if Ascii.eqb c "[" then Some (MNormal, [TLBracket])
  else if Ascii.eqb c "]" then Some (MNormal, [TRBracket])
  else if Ascii.eqb c ":" then Some (MNormal, [TColon])
  else if Ascii.eqb c "," then Some (MNormal, [TComma])
  else if Ascii.eqb c "034" then Some (MString [], [])
  else if Ascii.eqb c "-" then Some (MNumber [c] NMinus, [])
  else if Ascii.eqb c "0" then Some (MNumber [c] NZero, [])
  else if is_digit c then Some (MNumber [c] NInt, [])
  else if Ascii.eqb c "t" then
    Some (MLiteral (list_ascii_of_string "rue") TTrue, [])
  else if Ascii.eqb c "f" then
    Some (MLiteral (list_ascii_of_string "alse") TFalse, [])
  else if Ascii.eqb c "n" then
    Some (MLiteral (list_ascii_of_string "ull") TNull, [])
  else None.

Definition escape_char (c : ascii) : option ascii :=
  if Ascii.eqb c "034" then Some c
  else if Ascii.eqb c "\" then Some c
  else if Ascii.eqb c "/" then Some c
  else if Ascii.eqb c "b" then Some "008"%char
  else if Ascii.eqb c "f" then Some "012"%char
  else if Ascii.eqb c "n" then Some "010"%char
  else if Ascii.eqb c "r" then Some "013"%char
  else if Ascii.eqb c "t" then Some "009"%char
  else None.

Definition lex_step (m : mode) (c : ascii) : option (mode * list token) :=
  match m with
  | MNormal => normal_step c
  | MString acc =>
      if Ascii.eqb c "034" then Some (MNormal, [TString (of_rev acc)])
      else if Ascii.eqb c "\" then Some (MEscape acc, [])
      else if (nat_of_ascii c <? 32)%nat then None
      else Some (MString (c :: acc), [])
  | MEscape acc =>
      if Ascii.eqb c "u" then Some (MUnicode acc 0 0%N, [])
      else match escape_char c with
           | Some e => Some (MString (e :: acc), [])
           | None => None
           end
  | MUnicode acc count code =>
      match hex_value c with
      | None => None
      | Some h =>
          let code := (16 * code + h)%N in
          if (count =? 3)%nat
          then Some (MString (push_code_unit code acc), [])
          else Some (MUnicode acc (S count) code, [])
      end
  | MNumber acc st =>
      match num_step st c with
      | Some st' => Some (MNumber (c :: acc) st', [])
      | None =>
          if num_accepting st then
            match normal_step c with
            | Some (m', toks) => Some (m', TNumber (of_rev acc) :: toks)
            | None => None
            end
          else None
      end
  | MLiteral expected tok =>
      match expected with
      | [] => None
      | e :: rest =>
          if Ascii.eqb c e then
            match rest with
            | [] => Some (MNormal, [tok])
            | _ => Some (MLiteral rest tok, [])
            end
          else None
      end
  end.

(** The token sequence of a text, or [None] when it has none. *)
Fixpoint lex (m : mode) (s : string) : option (list token) :=
  match s with
  | EmptyString =>
      match m with
      | MNormal => Some []
      | MNumber acc st =>
          if num_accepting st then Some [TNumber (of_rev acc)] else None
      | _ => None
      end
  | String c rest =>
      match lex_step m c with
      | None => None
      | Some (m', toks) =>
          match lex m' rest with
          | None => None
          | Some more => Some (toks ++ more)
          end
      end
  end.

(** A container that is still open, with what it holds so far (latest
    first); an object frame also holds the key whose value is awaited. *)
Inductive frame : Type :=
| FArray (items : list value)
| FObject (members : list (string * value)) (key : string).

Inductive state : Type :=
| ExpValue (stack : list frame)
| ExpValueOrClose (stack : list frame)
| ExpKeyOrClose (stack : list frame)
| ExpKey (members : list (string * value)) (stack : list frame)
| ExpColon (members : list (string * value)) (key : string)
    (stack : list frame)
| AfterElement (items : list value) (stack : list frame)
| AfterMember (members : list (string * value)) (stack : list frame)
| Finished (v : value).

(** A complete value [v] goes into the innermost open container. *)
Definition push_value (v : value) (stack : list frame) : state :=
  match stack with
  | [] => Finished v
  | FArray items :: stack' => AfterElement (v :: items) stack'
  | FObject members key :: stack' => AfterMember ((key, v) :: members) stack'
  end.

Definition start_value (t : token) (stack : list frame) : option state :=
  match t with
  | TLBrace => Some (ExpKeyOrClose stack)
  | TLBracket => Some (ExpValueOrClose stack)
  | TString s => Some (push_value (JString s) stack)
  | TNumber l => Some (push_value (JNumber l) stack)
  | TTrue => Some (push_value (JBool true) stack)
  | TFalse => Some (push_value (JBool false) stack)
  | TNull => Some (push_value JNull stack)
  | TRBrace | TRBracket | TColon | TComma => None
  end.

Definition parse_step (st : state) (t : token) : option state :=
  match st with
  | ExpValue stack => start_value t stack
  | ExpValueOrClose stack =>
      match t with
      | TRBracket => Some (push_value (JArray []) stack)
      | _ => start_value t (FArray [] :: stack)
      end
  | ExpKeyOrClose stack =>
      match t with
      | TRBrace => Some (push_value (JObject []) stack)
      | TString k => Some (ExpColon [] k stack)
      | _ => None
      end
  | ExpKey members stack =>
      match t with
      | TString k => Some (ExpColon members k stack)
      | _ => None
      end
  | ExpColon members key stack =>
      match t with
      | TColon => Some (ExpValue (FObject members key :: stack))
      | _ => None
      end
  | AfterElement items stack =>
      match t with
      | TComma => Some (ExpValue (FArray items :: stack))
      | TRBracket => Some (push_value (JArray (rev items)) stack)
      | _ => None
      end
  | AfterMember members stack =>
      match t with
      | TComma => Some (ExpKey members stack)
      | TRBrace => Some (push_value (JObject (rev members)) stack)
      | _ => None
      end
  | Finished _ => None
  end.

Fixpoint parse_tokens (st : state) (toks : list token) : option value :=
  match toks with
  | [] => match st with Finished v => Some v | _ => None end
  | t :: rest =>
      match parse_step st t with
      | None => None
      | Some st' => parse_tokens st' rest
      end
  end.

(** [JSON.parse(text)]: [None] stands for the [SyntaxError] it throws. *)
Definition parse (text : string) : option value :=
  match lex MNormal text with
  | None => None
  | Some toks => parse_tokens (ExpValue []) toks
  end.

(** [o[key]] on a parsed object: the last member named [key]. *)
Fixpoint lookup_last (key : string) (members : list (string * value))
    (found : option value) : option value :=
  match members with
  | [] => found
  | (k, v) :: rest =>
      lookup_last key rest (if String.eqb k key then Some v else found)
  end.

(** Reading property [key] of [v]: [null] has no properties and the read
    throws a [TypeError]; only objects have members of their own. *)
Definition get (key : string) (v : value) : outcome (option value) :=
  match v with
  | JNull =>
      Throw ("Cannot read properties of null (reading '" ++ key ++ "')")
  | JObject members => Return (lookup_last key members None)
  | _ => Return None
  end.

(** What a number literal has been read into so far: the digits of its
    integer and fraction parts as one integer, the number of fraction
    digits, and the exponent. *)
Record decimal : Type := mkDecimal {
  negative : bool;
  coefficient : Z;
  fraction_digits : Z;
  exponent_negative : bool;
  exponent_digits : Z
}.

Inductive decimal_part : Type := InInteger | InFraction | InExponent.

Fixpoint read_decimal (part : decimal_part) (d : decimal) (s : string)
  : decimal :=
  match s with
  | EmptyString => d
  | String c rest =>
      if is_digit c then
        let digit := (Z.of_nat (nat_of_ascii c) - 48)%Z in
        match part with
        | InInteger =>
            read_decimal part
              {| negative := negative d;
                 coefficient := (10 * coefficient d + digit)%Z;
                 fraction_digits := fraction_digits d;
                 exponent_negative := exponent_negative d;
                 exponent_digits := exponent_digits d |} rest
        | InFraction =>
            read_decimal part
              {| negative := negative d;
                 coefficient := (10 * coefficient d + digit)%Z;
                 fraction_digits := (fraction_digits d + 1)%Z;
                 exponent_negative := exponent_negative d;
                 exponent_digits := exponent_digits d |} rest
        | InExponent =>
            read_decimal part
              {| negative := negative d;
                 coefficient := coefficient d;
                 fraction_digits := fraction_digits d;
                 exponent_negative := exponent_negative d;
                 exponent_digits := (10 * exponent_digits d + digit)%Z |}
              rest
        end
      else if Ascii.eqb c "." then read_decimal InFraction d rest
      else if Ascii.eqb c "e" || Ascii.eqb c "E" then
        read_decimal InExponent d rest
      else if Ascii.eqb c "-" then
        match part with
        | InExponent =>
            read_decimal part
              {| negative := negative d;
                 coefficient := coefficient d;
                 fraction_digits := fraction_digits d;
                 exponent_negative := true;
                 exponent_digits := exponent_digits d |} rest
        | _ =>
            read_decimal part
              {| negative := true;
                 coefficient := coefficient d;
                 fraction_digits := fraction_digits d;
                 exponent_negative := exponent_negative d;
                 exponent_digits := exponent_digits d |} rest
        end
      else read_decimal part d rest
  end.

(** The number a literal of the JSON grammar denotes: its decimal value,
    rounded to binary64. *)
Definition number_value (literal : string) : Number.number :=
  let d := read_decimal InInteger
             {| negative := false; coefficient := 0; fraction_digits := 0;
                exponent_negative := false; exponent_digits := 0 |}
             literal in
  let power :=
    ((if exponent_negative d then - exponent_digits d else exponent_digits d)
     - fraction_digits d)%Z in
  Number.of_Q (inject_Z (if negative d then - coefficient d else coefficient d)
               * Number.pow10 power).

End Json.

(** ** services/agent-service.js *)

Module Agent.

Import Json.

(** The double-quote character, for messages that contain one. *)
Definition dquote : string := String "034" EmptyString.

(** *** The decision client *)

(** The prefix of [s] that ends at its last closing brace. *)
Fixpoint upto_last_close (s : string) : option string :=
  match s with
  | EmptyString => None
  | String c rest =>
      match upto_last_close rest with
      | Some p => Some (String c p)
      | None => if Ascii.eqb c "}" then Some (String c EmptyString) else None
      end
  end.

(** [responseText.match(/\{[\s\S]*\}/)]: at the leftmost opening brace
    from which a match exists, the longest run of arbitrary characters
    that is followed by a closing brace.  The result is [jsonMatch[0]]. *)
Fixpoint match_braces (s : string) : option string :=
  match s with
  | EmptyString => None
  | String c rest =>
      if Ascii.eqb c "{" then
        match upto_last_close rest with
        | Some p => Some (String c p)
        | None => match_braces rest
        end
      else match_braces rest
  end.

(** One block of [message.content]; [text] is absent on blocks that are
    not text blocks. *)
Record ContentBlock : Type := mkContentBlock {
  text : option string
}.

(** What [anthropic.messages.create] does: reject, or resolve to a
    message. *)
Inductive ModelReply : Type :=
| Rejected (msg : string)
| Message (content : list ContentBlock).

Definition completeWith (reasoning : string) : value :=
  JObject [("action", JString "complete"); ("reasoning", JString reasoning)].

(** The inner [try]/[catch] of [analyzeAndAct]: the value assigned to
    [actionData].  Calling [match] on an undefined [responseText] throws
    inside the [try] and is caught like a failed parse. *)
Definition extractAction (responseText : option string) : value :=
  match responseText with
  | None => completeWith "Invalid response format"
  | Some responseText =>
      match match_braces responseText with
      | Some jsonMatch =>
          match parse jsonMatch with
          | Some actionData => actionData
          | None => completeWith "Invalid response format"
          end
      | None => completeWith "Could not parse action from response"
      end
  end.

(** [analyzeAndAct(screenshot, context)], given the model's reply.  The
    prompt is built from the arguments without any call that can throw. *)
Definition analyzeAndAct (reply : ModelReply) : outcome value :=
  let tried :=
    match reply with
    | Rejected msg => Throw msg
    | Message [] =>
        Throw "Cannot read properties of undefined (reading 'text')"
    | Message (block :: _) =>
        let actionData := extractAction (text block) in
        (* console.log(..., actionData.action, '-', actionData.reasoning) *)
        do _ <- get "action" actionData;
        do _ <- get "reasoning" actionData;
        Return actionData
    end in
  match tried with
  | Return actionData => Return actionData
  | Throw msg => Throw ("AI analysis failed: " ++ msg)
  end.

(** *** Executing an action *)

(** JS truthiness of a possibly-undefined parsed value. *)
Definition js_truthy (v : option value) : bool :=
  match v with
  | None => false
  | Some JNull => false
  | Some (JBool b) => b
  | Some (JNumber l) => Number.truthy (number_value l)
  | Some (JString s) => truthy s
  | Some (JArray _) => true
  | Some (JObject _) => true
  end.

(** [String(v)], as a template literal renders [v]. *)
Fixpoint display (v : value) : string :=
  match v with
  | JNull => "null"
  | JBool true => "true"
  | JBool false => "false"
  | JNumber l => Number.toString (number_value l)
  | JString s => s
  | JArray items =>
      String.concat ","
        (map (fun item => match item with
                          | JNull => ""
                          | _ => display item
                          end) items)
  | JObject _ => "[object Object]"
  end.

Definition display_opt (v : option value) : string :=
  match v with
  | Some v => display v
  | None => "undefined"
  end.

(** One white-space or line-terminator character at the head of [s], as
    [parseInt] skips them: the rest of [s] after it.  Strings are
    sequences of 8-bit units, so the characters beyond ASCII come in
    their UTF-8 form. *)
Definition after_space (s : string) : option string :=
  match s with
  | String c rest =>
      let n := nat_of_ascii c in
      if ((9 <=? n)%nat && (n <=? 13)%nat) || (n =? 32)%nat then Some rest
      else
        match n, rest with
        | 194%nat, String d rest' =>
            if (nat_of_ascii d =? 160)%nat then Some rest' else None
        | 225%nat, String d (String e rest') =>
            if (nat_of_ascii d =? 154)%nat && (nat_of_ascii e =? 128)%nat
            then Some rest' else None
        | 226%nat, String d (String e rest') =>
            let m := nat_of_ascii e in
            if (nat_of_ascii d =? 128)%nat
               && (((128 <=? m)%nat && (m <=? 138)%nat)
                   || (m =? 168)%nat || (m =? 169)%nat || (m =? 175)%nat)
            then Some rest'
            else if (nat_of_ascii d =? 129)%nat && (m =? 159)%nat
            then Some rest' else None
        | 227%nat, String d (String e rest') =>
            if (nat_of_ascii d =? 128)%nat && (nat_of_ascii e =? 128)%nat
            then Some rest' else None
        | 239%nat, String d (String e rest') =>
            if (nat_of_ascii d =? 187)%nat && (nat_of_ascii e =? 191)%nat
            then Some rest' else None
        | _, _ => None
        end
  | EmptyString => None
  end.

(** [s] without its leading white space; [more] bounds the number of
    characters skipped and is the length of the text. *)
Fixpoint skip_spaces_upto (more : nat) (s : string) : string :=
  match more with
  | O => s
  | S more' =>
      match after_space s with
      | Some rest => skip_spaces_upto more' rest
      | None => s
      end
  end.

Definition skip_spaces (s : string) : string :=
  skip_spaces_upto (String.length s) s.

(** The longest prefix of digits in the given radix, read as a number;
    [None] when there is no digit. *)
Fixpoint read_digits (radix : N) (s : string) (acc : option N) : option N :=
  match s with
  | EmptyString => acc
  | String c rest =>
      match hex_value c with
      | Some d =>
          if (d <? radix)%N then
            read_digits radix rest
              (Some (radix * match acc with Some a => a | None => 0 end + d)%N)
          else acc
      | None => acc
      end
  end.

Definition read_unsigned (s : string) : option N :=
  match s with
  | String "0" (String x rest) =>
      if Ascii.eqb x "x" || Ascii.eqb x "X" then read_digits 16 rest None
      else read_digits 10 s None
  | _ => read_digits 10 s None
  end.

Definition signed (negative : bool) (magnitude : option N) : Number.number :=
  match magnitude with
  | Some n => Number.of_Z (if negative then - Z.of_N n else Z.of_N n)
  | None => Number.NaN
  end.

(** [parseInt(text)]: the integer the leading digits denote, rounded to
    binary64. *)
Definition parseInt (s : string) : Number.number :=
  match skip_spaces s with
  | String "-" rest => signed true (read_unsigned rest)
  | String "+" rest => signed false (read_unsigned rest)
  | s' => signed false (read_unsigned s')
  end.

Definition ok (message : string) : Result :=
  {| r_success := true; r_message := message; r_error := None |}.

Definition is_action (name : string) (actionType : option value) : bool :=
  match actionType with
  | Some (JString s) => String.eqb s name
  | _ => false
  end.

(** [executeAction(page, action)].  [driver] is how the one Playwright
    call of the selected case goes, if that case makes one. *)
Definition executeAction (driver : outcome unit) (action : value)
  : outcome Result :=
  let tried :=
    do actionType <- get "action" action;
    do target <- get "target" action;
    do value <- get "value" action;
    if is_action "click" actionType then
      if negb (js_truthy target)
      then Throw "Click action requires a target selector"
      else do _ <- driver;
           Return (ok ("Clicked on " ++ display_opt target))
    else if is_action "type" actionType then
      if negb (js_truthy target)
      then Throw "Type action requires a target selector"
      else if negb (js_truthy value)
      then Throw "Type action requires a value"
      else do _ <- driver;
           Return (ok ("Typed " ++ dquote ++ display_opt value ++ dquote
                       ++ " into " ++ display_opt target))
    else if is_action "scroll" actionType then
      do _ <- driver;
      Return (ok ("Scrolled " ++ display_opt target))
    else if is_action "navigate" actionType then
      if negb (js_truthy target)
      then Throw "Navigate action requires a target URL"
      else do _ <- driver;
           Return (ok ("Navigated to " ++ display_opt target))
    else if is_action "wait" actionType then
      let duration :=
        Number.or_else (parseInt (display_opt value)) (Number.of_Z 1000) in
      do _ <- driver;
      Return (ok ("Waited for " ++ Number.toString duration ++ "ms"))
    else if is_action "complete" actionType then
      Return (ok "Testing complete")
    else
      Return {| r_success := false;
                r_message := "Unknown action: " ++ display_opt actionType;
                r_error := None |} in
  match tried with
  | Return r => Return r
  | Throw msg =>
      do name <- get "action" action;
      Return {| r_success := false;
                r_message := "Failed to execute " ++ display_opt name;
                r_error := Some msg |}
  end.

(** *** The testing loop *)

(** An entry of the loop's [actionLog]; [entry_action] is the decision
    object as the model produced it. *)
Record LogEntry : Type := mkLogEntry {
  entry_timestamp : Z;
  entry_action : value;
  entry_result : Result;
  entry_context : Context
}.

(** What the page, the model and the clock answer during one iteration of
    the loop, in the order the iteration asks. *)
Record Turn : Type := mkTurn {
  settle : outcome unit;        (* page.waitForTimeout(1000) *)
  page_url : string;            (* page.url() *)
  page_title : outcome string;  (* await page.title() *)
  screenshot : outcome unit;    (* await page.screenshot(...) *)
  reply : ModelReply;           (* the model call of analyzeAndAct *)
  driver : outcome unit;        (* the Playwright call of executeAction *)
  logged_at : Z;                (* new Date() when the entry is pushed *)
  pause : outcome unit          (* page.waitForTimeout(500) *)
}.

Definition maxActions : nat := 15.

(** The [while (actionCount < maxActions)] loop.  [remaining] is
    [maxActions - actionCount].  The result is the log together with the
    message of the error that left the loop, if one did. *)
Fixpoint testWebsite_while (remaining : nat) (turns : nat -> Turn)
    (actionCount : nat) (actionLog : list LogEntry)
  : list LogEntry * option string :=
  match remaining with
  | O => (actionLog, None)
  | S remaining' =>
      let actionCount := S actionCount in
      let turn := turns actionCount in
      let decided :=
        do _ <- settle turn;
        do title <- page_title turn;
        do _ <- screenshot turn;
        do action <- analyzeAndAct (reply turn);
        do name <- get "action" action;
        Return ({| c_url := page_url turn; c_title := Some title |},
                action, name) in
      match decided with
      | Throw msg => (actionLog, Some msg)
      | Return (context, action, name) =>
          if is_action "complete" name then
            (actionLog ++
               [ {| entry_timestamp := logged_at turn;
                    entry_action := action;
                    entry_result := ok "Testing completed by AI";
                    entry_context := context |} ], None)
          else
            match executeAction (driver turn) action with
            | Throw msg => (actionLog, Some msg)
            | Return result =>
                let actionLog :=
                  actionLog ++
                    [ {| entry_timestamp := logged_at turn;
                         entry_action := action;
                         entry_result := result;
                         entry_context := context |} ] in
                match pause turn with
                | Throw msg => (actionLog, Some msg)
                | Return _ =>
                    testWebsite_while remaining' turns actionCount actionLog
                end
            end
      end
  end.

(** What the page and the clock answer outside the loop. *)
Record Visit : Type := mkVisit {
  has_viewport : bool;           (* page.viewportSize() is set *)
  set_viewport : outcome unit;   (* await page.setViewportSize(...) *)
  goto : outcome unit;           (* await page.goto(url, ...) *)
  turns : nat -> Turn;
  failed_at : Z;                 (* new Date() in the catch block *)
  failed_url : string            (* page.url() in the catch block *)
}.

(** [testWebsite(page, url, progressCallback)], with the default
    [progressCallback], which does nothing. *)
Definition testWebsite (visit : Visit) : list LogEntry :=
  let opened :=
    do _ <- (if has_viewport visit then Return tt else set_viewport visit);
    goto visit in
  let ran :=
    match opened with
    | Throw msg => ([], Some msg)
    | Return _ => testWebsite_while maxActions (turns visit) 0 []
    end in
  match ran with
  | (actionLog, None) => actionLog
  | (actionLog, Some msg) =>
      actionLog ++
        [ {| entry_timestamp := failed_at visit;
             entry_action :=
               JObject [("action", JString "error");
                        ("reasoning", JString "Testing failed")];
             entry_result := {| r_success := false; r_message := msg;
                                r_error := None |};
             entry_context := {| c_url := failed_url visit;
                                 c_title := None |} |} ]
  end.

End Agent.

(** * Properties *)

(** ** Shared facts about the store *)

Lemma updateTestStatus_other (now testId status other : string)
    (error : option string) (db : gmap string Db.TestRow) :
  other <> testId ->
  Db.updateTestStatus now testId status error db !! other = db !! other.
Proof.
  intros Hne. unfold Db.updateTestStatus.
  destruct (String.eqb status "running");
    [| destruct (String.eqb status "completed" || String.eqb status "failed")];
    apply lookup_alter_ne; congruence.
Qed.

Lemma updateTestStatus_stopped (now testId : string) (error : option string)
    (db : gmap string Db.TestRow) :
  Db.updateTestStatus now testId "stopped" error db
  = alter (Db.set_status "stopped") testId db.
Proof. reflexivity. Qed.

Lemma updateTestStatus_status (now testId status : string)
    (error : option string) (db : gmap string Db.TestRow) (row : Db.TestRow) :
  db !! testId = Some row ->
  Db.status <$> (Db.updateTestStatus now testId status error db !! testId)
  = Some status.
Proof.
  intros Hrow. unfold Db.updateTestStatus.
  destruct (String.eqb status "running");
    [| destruct (String.eqb status "completed" || String.eqb status "failed")];
    rewrite lookup_alter_eq, Hrow; reflexivity.
Qed.

(** ** The stop update (C10) *)

(** C10.  The status update that records a manual stop changes only the
    [status] column of the run's row: with the arguments the stop endpoint
    passes (status 'stopped', reason 'Manually stopped by user') the row
    keeps its [completed_at], its [error] and every other column, the
    reason is not stored (any reason, or none, gives the same table), and
    no other row changes; the stop endpoint stores exactly this update.
    Only the updates to 'completed' and 'failed' write [completed_at] and
    [error]. *)
Theorem stop_update_changes_only_status :
  forall (now testId : string) (reason : option string)
         (db : gmap string Db.TestRow) (row : Db.TestRow),
    db !! testId = Some row ->
    (exists row',
        Db.updateTestStatus now testId "stopped" reason db !! testId = Some row'
        /\ Db.status row' = "stopped"
        /\ Db.completed_at row' = Db.completed_at row
        /\ Db.error row' = Db.error row
        /\ Db.url row' = Db.url row
        /\ Db.created_at row' = Db.created_at row
        /\ Db.started_at row' = Db.started_at row
        /\ Db.browserbase_session_id row' = Db.browserbase_session_id row)
    /\ (forall other, other <> testId ->
          Db.updateTestStatus now testId "stopped" reason db !! other
          = db !! other)
    /\ Db.updateTestStatus now testId "stopped" reason db
       = Db.updateTestStatus now testId "stopped" None db
    /\ (forall clk s,
          Routes.tests s = db -> Db.status row = "running" ->
          Routes.tests (snd (Routes.post_stop clk testId s))
          = Db.updateTestStatus (Routes.dbNow clk) testId "stopped"
              (Some "Manually stopped by user") db)
    /\ (forall status,
          status = "completed" \/ status = "failed" ->
          exists row',
            Db.updateTestStatus now testId status reason db !! testId = Some row'
            /\ Db.completed_at row' = Some now
            /\ Db.error row' = reason).
Proof.
  intros now testId reason db row Hrow.
  repeat split.
  - exists (Db.set_status "stopped" row).
    rewrite updateTestStatus_stopped, lookup_alter_eq, Hrow.
    repeat split; reflexivity.
  - intros other Hne. apply updateTestStatus_other. exact Hne.
  - intros clk s Hdb Hrun. subst db. unfold Routes.post_stop, Db.getTest.
    rewrite Hrow, Hrun. reflexivity.
  - intros status Hstatus.
    exists (Db.set_finished now status reason row).
    destruct Hstatus as [-> | ->];
      unfold Db.updateTestStatus; simpl;
      rewrite lookup_alter_eq, Hrow; repeat split; reflexivity.
Qed.

Definition sample_row : Db.TestRow :=
  {| Db.url := "https://example.com"; Db.status := "running";
     Db.created_at := "2025-10-13 10:00:00";
     Db.started_at := Some "2025-10-13 10:00:01";
     Db.completed_at := None;
     Db.browserbase_session_id := Some "sess-1";
     Db.error := None |}.

Lemma stop_update_changes_only_status_witness :
  (exists row',
      Db.updateTestStatus "2025-10-13 10:00:09" "run-1" "stopped"
        (Some "Manually stopped by user") (<["run-1" := sample_row]> ∅)
        !! "run-1" = Some row'
      /\ Db.status row' = "stopped"
      /\ Db.completed_at row' = None
      /\ Db.error row' = None)
  /\ Db.updateTestStatus "2025-10-13 10:00:09" "run-1" "stopped"
       (Some "Manually stopped by user") (<["run-1" := sample_row]> ∅)
     = Db.updateTestStatus "2025-10-13 10:00:09" "run-1" "stopped" None
         (<["run-1" := sample_row]> ∅).
Proof.
  destruct (stop_update_changes_only_status "2025-10-13 10:00:09" "run-1"
              (Some "Manually stopped by user") (<["run-1" := sample_row]> ∅)
              sample_row)
    as ((row' & Hrow & Hstatus & Hcompleted & Herror & _) & _ & Hreason & _).
  - reflexivity.
  - split; [| exact Hreason].
    exists row'. split; [exact Hrow |]. split; [exact Hstatus |].
    split; [exact Hcompleted | exact Herror].
Defined.

(** ** Rounding to binary64 *)

(** Facts about [Number.b64] on the non-negative reals: it fixes zero,
    is monotone, and moves a real below [2^k] by at most [2^(k-54)], half
    a unit in the last place. *)
Module Binary64Facts.

Import Number.
Local Open Scope Q_scope.

Lemma rne_cases (s : Q) :
  let m := rne s in
  let N := Qnum s in
  let D := Zpos (Qden s) in
  ((2 * m * D - D < 2 * N < 2 * m * D + D)
   \/ ((2 * N = 2 * m * D - D \/ 2 * N = 2 * m * D + D) /\ Z.even m = true))%Z.
Proof.
  unfold rne. cbv zeta. destruct s as [N D]. cbn [Qnum Qden].
  assert (HD : (0 < Zpos D)%Z) by lia.
  generalize dependent (Zpos D). clear D. intros D HD.
  pose proof (Z.div_mod N D ltac:(lia)) as Hdiv.
  pose proof (Z.mod_pos_bound N D ltac:(lia)) as Hmod.
  set (fl := (N / D)%Z) in *. set (r := (N mod D)%Z) in *.
  clearbody fl r.
  destruct (2 * r ?= D)%Z eqn:Hcmp.
  - apply Z.compare_eq in Hcmp.
    destruct (Z.even fl) eqn:Heven.
    + right. split; [right; subst N; lia | exact Heven].
    + right. split; [left; subst N; lia |].
      rewrite Z.even_add, Heven. reflexivity.
  - rewrite Z.compare_lt_iff in Hcmp. left. subst N. lia.
  - rewrite Z.compare_gt_iff in Hcmp. left. subst N. lia.
Qed.

Lemma rne_mono (s t : Q) : s <= t -> (rne s <= rne t)%Z.
Proof.
  unfold Qle. intros Hle.
  pose proof (rne_cases s) as Hs. pose proof (rne_cases t) as Ht.
  cbv zeta in Hs, Ht.
  destruct s as [Ns Ds], t as [Nt Dt]. cbn [Qnum Qden] in *.
  set (ms := rne (Ns # Ds)) in *. set (mt := rne (Nt # Dt)) in *.
  clearbody ms mt.
  assert (HDs : (0 < Zpos Ds)%Z) by lia.
  assert (HDt : (0 < Zpos Dt)%Z) by lia.
  generalize dependent (Zpos Ds). generalize dependent (Zpos Dt).
  clear Ds Dt. intros Dt Ht HDt Ds Hle Hs HDs.
  destruct (Z_le_gt_dec ms mt) as [Hok | Hgt]; [exact Hok | exfalso].
  assert (Hlow : (2 * ms * Ds - Ds <= 2 * Ns)%Z) by lia.
  assert (Hhigh : (2 * Nt <= 2 * mt * Dt + Dt)%Z) by lia.
  assert (Hchain : ((2 * ms - 1) * (Ds * Dt) <= (2 * mt + 1) * (Ds * Dt))%Z)
    by nia.
  assert (Hm : (ms = mt + 1)%Z) by nia.
  destruct Hs as [Hs | [Hs Hes]]; [nia |].
  destruct Ht as [Ht | [Ht Het]]; [nia |].
  rewrite Hm, Z.even_add, Het in Hes. discriminate.
Qed.

Lemma rne_inject (z : Z) : rne (inject_Z z) = z.
Proof.
  unfold rne, inject_Z. cbn [Qnum Qden].
  rewrite Z.div_1_r, Z.mod_1_r. reflexivity.
Qed.


Lemma pow2_pos (k : Z) : 0 < pow2 k.
Proof. apply Qpower_0_lt. reflexivity. Qed.

Lemma pow2_plus (a b : Z) : pow2 (a + b) == pow2 a * pow2 b.
Proof. apply Qpower_plus. discriminate. Qed.

Lemma pow2_le (a b : Z) : (a <= b)%Z -> pow2 a <= pow2 b.
Proof. intros H. apply Qpower_le_compat_l; [exact H | discriminate]. Qed.

Lemma pow2_lt (a b : Z) : (a < b)%Z -> pow2 a < pow2 b.
Proof. intros H. apply Qpower_lt_compat_l; [exact H | reflexivity]. Qed.

Lemma pow2_succ (a : Z) : pow2 (a + 1) == 2 * pow2 a.
Proof. rewrite pow2_plus. unfold pow2 at 2. rewrite Qpower_1_r. ring. Qed.

Lemma pow2_inject (z : Z) : (0 <= z)%Z -> inject_Z (2 ^ z) == pow2 z.
Proof. intros H. apply Zpower_Qpower. exact H. Qed.

Lemma Q_as_quotient (a : Q) : inject_Z (Qnum a) == a * inject_Z (Zpos (Qden a)).
Proof.
  destruct a as [N D]. unfold Qeq, Qmult, inject_Z. cbn [Qnum Qden]. 
  rewrite Pos.mul_1_r. ring.
Qed.

Lemma log2_bounds (n : Z) :
  (0 < n)%Z ->
  pow2 (Z.log2 n) <= inject_Z n /\ inject_Z n < pow2 (Z.log2 n + 1).
Proof.
  intros Hn. destruct (Z.log2_spec n Hn) as [Hlow Hhigh].
  pose proof (Z.log2_nonneg n) as Hnonneg.
  rewrite <- (pow2_inject (Z.log2 n)) by exact Hnonneg.
  rewrite <- (pow2_inject (Z.log2 n + 1)) by lia.
  rewrite <- Zle_Qle, <- Zlt_Qlt. split; [exact Hlow | exact Hhigh].
Qed.

Lemma ilog2_spec (a : Q) :
  0 < a -> pow2 (ilog2 a) <= a /\ a < pow2 (ilog2 a + 1).
Proof.
  intros Ha.
  assert (HN : (0 < Qnum a)%Z).
  { unfold Qlt in Ha. cbn in Ha. lia. }
  destruct (log2_bounds (Qnum a) HN) as [HNlow HNhigh].
  destruct (log2_bounds (Zpos (Qden a)) ltac:(lia)) as [HDlow HDhigh].
  pose proof (Q_as_quotient a) as Hquot.
  unfold ilog2.
  set (la := Z.log2 (Qnum a)) in *. set (lb := Z.log2 (Zpos (Qden a))) in *.
  set (d := (la - lb)%Z).
  assert (Hla : pow2 la == pow2 d * pow2 lb).
  { rewrite <- pow2_plus. unfold d. replace (la - lb + lb)%Z with la by lia.
    reflexivity. }
  rewrite !pow2_succ in *.
  pose proof (pow2_pos d) as HP. pose proof (pow2_pos lb) as HB.
  assert (Hd : pow2 d == 2 * pow2 (d - 1)).
  { rewrite <- pow2_succ. replace (d - 1 + 1)%Z with d by lia. reflexivity. }
  set (P := pow2 d) in *. set (B := pow2 lb) in *.
  set (n := inject_Z (Qnum a)) in *. set (dd := inject_Z (Zpos (Qden a))) in *.
  rewrite Hla in HNlow, HNhigh. rewrite Hquot in HNlow, HNhigh.
  assert (Hdd : 0 < dd) by lra.
  destruct (Qle_bool P a) eqn:Htest.
  - apply Qle_bool_iff in Htest. split; [exact Htest |].
    change (a < 2 * P).
    assert (H1 : 0 <= P * (dd - B))
      by (apply Qmult_le_0_compat; lra).
    apply Qnot_le_lt. intros Hge.
    assert (H2 : 0 <= (a - 2 * P) * dd)
      by (apply Qmult_le_0_compat; lra).
    lra.
  - assert (Hlt : a < P).
    { apply Qnot_le_lt. intros Hle. apply Qle_bool_iff in Hle. congruence. }
    set (P' := pow2 (d - 1)) in *. split; [| lra].
    apply Qnot_lt_le. intros Hsmall.
    assert (H1 : 0 <= a * (2 * B - dd))
      by (apply Qmult_le_0_compat; lra).
    assert (H2 : 0 < (P' - a) * (2 * B))
      by (apply Qmult_lt_0_compat; lra).
    assert (H3 : P * B == 2 * P' * B) by (rewrite Hd; ring).
    lra.
Qed.


Lemma ilog2_mono (a b : Q) : 0 < a -> a <= b -> (ilog2 a <= ilog2 b)%Z.
Proof.
  intros Ha Hab. destruct (ilog2_spec a Ha) as [Hlow _].
  destruct (ilog2_spec b ltac:(lra)) as [_ Hhigh].
  destruct (Z_le_gt_dec (ilog2 a) (ilog2 b)) as [Hok | Hgt];
    [exact Hok | exfalso].
  pose proof (pow2_le (ilog2 b + 1) (ilog2 a) ltac:(lia)). lra.
Qed.

Lemma exponent_mono (a b : Q) : 0 < a -> a <= b -> (exponent a <= exponent b)%Z.
Proof.
  intros Ha Hab. pose proof (ilog2_mono a b Ha Hab). unfold exponent. lia.
Qed.


Lemma scaled_lt (a : Q) :
  0 < a -> a * pow2 (- exponent a) < inject_Z (2 ^ 53).
Proof.
  intros Ha. destruct (ilog2_spec a Ha) as [_ Hhigh].
  pose proof (pow2_le (ilog2 a + 1) (exponent a + 53)
                ltac:(unfold exponent; lia)) as Hle.
  rewrite pow2_inject by lia.
  pose proof (pow2_plus (exponent a + 53) (- exponent a)) as Hsplit.
  replace (exponent a + 53 + - exponent a)%Z with 53%Z in Hsplit by lia.
  rewrite Hsplit.
  apply Qmult_lt_compat_r; [apply pow2_pos | lra].
Qed.

Lemma scaled_ge (a : Q) :
  0 < a -> (-1074 < exponent a)%Z ->
  inject_Z (2 ^ 52) <= a * pow2 (- exponent a).
Proof.
  intros Ha Hnormal. destruct (ilog2_spec a Ha) as [Hlow _].
  assert (He : (ilog2 a = exponent a + 52)%Z) by (unfold exponent in *; lia).
  rewrite He in Hlow.
  rewrite pow2_inject by lia.
  pose proof (pow2_plus (exponent a + 52) (- exponent a)) as Hsplit.
  replace (exponent a + 52 + - exponent a)%Z with 52%Z in Hsplit by lia.
  rewrite Hsplit.
  apply Qmult_le_compat_r; [exact Hlow |]. apply Qlt_le_weak, pow2_pos.
Qed.

Lemma round_mono (a b : Q) : 0 < a -> a <= b -> round a <= round b.
Proof.
  intros Ha Hab. assert (Hb : 0 < b) by lra.
  pose proof (exponent_mono a b Ha Hab) as He.
  unfold round.
  destruct (Z.eq_dec (exponent a) (exponent b)) as [Heq | Hne].
  - rewrite Heq. apply Qmult_le_compat_r; [| apply Qlt_le_weak, pow2_pos].
    rewrite <- Zle_Qle. apply rne_mono.
    apply Qmult_le_compat_r; [exact Hab |]. apply Qlt_le_weak, pow2_pos.
  - assert (Hlt : (exponent a < exponent b)%Z) by lia.
    assert (Hma : (rne (a * pow2 (- exponent a)) <= 2 ^ 53)%Z).
    { rewrite <- (rne_inject (2 ^ 53)). apply rne_mono.
      apply Qlt_le_weak, scaled_lt. exact Ha. }
    assert (Hmb : (2 ^ 52 <= rne (b * pow2 (- exponent b)))%Z).
    { rewrite <- (rne_inject (2 ^ 52)). apply rne_mono.
      apply scaled_ge; [exact Hb |]. unfold exponent in *. lia. }
    rewrite Zle_Qle in Hma, Hmb.
    set (ma := inject_Z (rne (a * pow2 (- exponent a)))) in *.
    set (mb := inject_Z (rne (b * pow2 (- exponent b)))) in *.
    pose proof (pow2_pos (exponent a)) as Hpa.
    pose proof (pow2_pos (exponent b)) as Hpb.
    pose proof (pow2_le (exponent a + 1) (exponent b) ltac:(lia)) as Hstep.
    rewrite pow2_succ in Hstep.
    rewrite (pow2_inject 53) in Hma by lia.
    rewrite (pow2_inject 52) in Hmb by lia.
    assert (H53 : pow2 53 == 2 * pow2 52) by reflexivity.
    pose proof (pow2_pos 52) as H52.
    set (pa := pow2 (exponent a)) in *. set (pb := pow2 (exponent b)) in *.
    set (c := pow2 52) in *.
    apply Qle_trans with (2 * c * pa).
    + rewrite <- H53. apply Qmult_le_compat_r; [exact Hma | lra].
    + apply Qle_trans with (c * pb).
      * assert (0 <= c * (pb - 2 * pa)) by (apply Qmult_le_0_compat; lra).
        lra.
      * apply Qmult_le_compat_r; [exact Hmb | lra].
Qed.


Lemma b64_eq (x y : Q) : x == y -> b64 x = b64 y.
Proof. intros H. unfold b64. rewrite (Qred_complete x y H). reflexivity. Qed.

Lemma b64_zero (x : Q) : x == 0 -> b64 x = 0.
Proof. intros H. rewrite (b64_eq x 0 H). reflexivity. Qed.

Lemma b64_pos (x : Q) : 0 < x -> 0 < Qred x /\ b64 x == round (Qred x).
Proof.
  intros Hx. assert (Hred : 0 < Qred x) by (rewrite Qred_correct; exact Hx).
  split; [exact Hred |]. unfold b64. cbv zeta.
  destruct (Qred x) as [[| p | p] d] eqn:Hq; cbn [Qnum].
  - discriminate Hred.
  - apply Qred_correct.
  - discriminate Hred.
Qed.

Lemma round_nonneg (a : Q) : 0 < a -> 0 <= round a.
Proof.
  intros Ha. unfold round. apply Qmult_le_0_compat.
  - change 0 with (inject_Z 0). rewrite <- Zle_Qle.
    rewrite <- (rne_inject 0). apply rne_mono.
    apply Qmult_le_0_compat; [lra |]. apply Qlt_le_weak, pow2_pos.
  - apply Qlt_le_weak, pow2_pos.
Qed.

Lemma b64_nonneg (x : Q) : 0 <= x -> 0 <= b64 x.
Proof.
  intros Hx. destruct (Qeq_dec x 0) as [Hzero | Hne].
  - rewrite (b64_zero x Hzero). lra.
  - destruct (b64_pos x ltac:(lra)) as [Hred ->]. apply round_nonneg, Hred.
Qed.

Lemma b64_mono (x y : Q) : 0 <= x -> x <= y -> b64 x <= b64 y.
Proof.
  intros Hx Hxy. destruct (Qeq_dec x 0) as [Hzero | Hne].
  - rewrite (b64_zero x Hzero). apply b64_nonneg. lra.
  - destruct (b64_pos x ltac:(lra)) as [Hredx ->].
    destruct (b64_pos y ltac:(lra)) as [Hredy ->].
    apply round_mono; [exact Hredx |]. rewrite !Qred_correct. exact Hxy.
Qed.


End Binary64Facts.

(** ** The report builder (C3, C9) *)

(** The number of entries whose success flag is false, and the number
    whose success flag is true. *)
Fixpoint countFailed (actionLogs : list ActionLog) : nat :=
  match actionLogs with
  | [] => 0
  | log :: rest =>
      (if r_success (result log) then 0 else 1) + countFailed rest
  end.

Fixpoint countSucceeded (actionLogs : list ActionLog) : nat :=
  match actionLogs with
  | [] => 0
  | log :: rest =>
      (if r_success (result log) then 1 else 0) + countSucceeded rest
  end.


Lemma pushIssues_length (actionLogs : list ActionLog) :
  forall issues,
    length (ReportService.pushIssues issues actionLogs)
    = (length issues + countFailed actionLogs)%nat.
Proof.
  induction actionLogs as [| log rest IH]; intros issues; simpl.
  - lia.
  - destruct (r_success (result log)); simpl; rewrite IH.
    + reflexivity.
    + rewrite length_app. simpl. lia.
Qed.

Lemma filter_success_length (actionLogs : list ActionLog) :
  length (List.filter (fun log => r_success (result log)) actionLogs)
  = countSucceeded actionLogs.
Proof.
  induction actionLogs as [| log rest IH]; simpl.
  - reflexivity.
  - destruct (r_success (result log)); simpl; rewrite IH; reflexivity.
Qed.




Lemma generateReport_returns (isoNow dbNow : string)
    (retrieve : nat -> outcome Browserbase.SessionInfo)
    (testId : string) (actionLogs : list ActionLog) (sid : string)
    (st : Db.Store) (report : Report) (st' : Db.Store) :
  ReportService.generateReport isoNow dbNow retrieve testId actionLogs sid st
  = Return (report, st') ->
  report = ReportService.buildReport isoNow
             (Browserbase.getRecordingUrl retrieve sid
                Browserbase.defaultMaxRetries)
             testId actionLogs sid.
Proof.
  unfold ReportService.generateReport.
  destruct (Db.createReport _ _ _ _ _); intros H; inversion H; reflexivity.
Qed.

(** The success rate as the code computes it from the two counts: the
    binary64 quotient, times 100 in binary64. *)
Definition rateOf (succeeded total : nat) : Q :=
  Number.b64
    (Number.b64 (inject_Z (Z.of_nat succeeded) / inject_Z (Z.of_nat total))
     * 100).

Lemma successRateOf_counts (actionLogs : list ActionLog) :
  ReportService.successRateOf actionLogs
  = match actionLogs with
    | [] => 0%Q
    | _ => rateOf (countSucceeded actionLogs) (length actionLogs)
    end.
Proof.
  unfold ReportService.successRateOf, rateOf.
  destruct actionLogs as [| first rest]; [reflexivity |].
  rewrite filter_success_length. reflexivity.
Qed.

Lemma countSucceeded_le (actionLogs : list ActionLog) :
  (countSucceeded actionLogs <= length actionLogs)%nat.
Proof.
  induction actionLogs as [| log rest IH]; simpl; [lia |].
  destruct (r_success (result log)); lia.
Qed.

Module RateFacts.

Import Binary64Facts.
Local Open Scope Q_scope.

Lemma quotient_bounds (s n : nat) :
  (s <= n)%nat -> (0 < n)%nat ->
  0 <= inject_Z (Z.of_nat s) / inject_Z (Z.of_nat n)
  /\ inject_Z (Z.of_nat s) / inject_Z (Z.of_nat n) <= 1.
Proof.
  intros Hsn Hn.
  assert (Hnq : 0 < inject_Z (Z.of_nat n)).
  { change 0 with (inject_Z 0). rewrite <- Zlt_Qlt. lia. }
  assert (Hsq : 0 <= inject_Z (Z.of_nat s)).
  { change 0 with (inject_Z 0). rewrite <- Zle_Qle. lia. }
  assert (Hle : inject_Z (Z.of_nat s) <= inject_Z (Z.of_nat n)).
  { rewrite <- Zle_Qle. lia. }
  split.
  - apply Qle_shift_div_l; [exact Hnq | lra].
  - apply Qle_shift_div_r; [exact Hnq | lra].
Qed.

Lemma rateOf_bounds (s n : nat) :
  (s <= n)%nat -> (0 < n)%nat -> 0 <= rateOf s n /\ rateOf s n <= 100.
Proof.
  intros Hsn Hn. destruct (quotient_bounds s n Hsn Hn) as [Hlow Hhigh].
  unfold rateOf.
  set (q := inject_Z (Z.of_nat s) / inject_Z (Z.of_nat n)) in *.
  pose proof (b64_nonneg q Hlow) as Hq0.
  pose proof (b64_mono q 1 Hlow Hhigh) as Hq1.
  change (Number.b64 1) with 1 in Hq1.
  split.
  - apply b64_nonneg. lra.
  - change 100 with (Number.b64 100) at 2. apply b64_mono; lra.
Qed.

Lemma rateOf_all (n : nat) : (0 < n)%nat -> rateOf n n = 100.
Proof.
  intros Hn. unfold rateOf.
  assert (Hone : inject_Z (Z.of_nat n) / inject_Z (Z.of_nat n) == 1).
  { apply Qmult_inv_r. change 0 with (inject_Z 0). rewrite inject_Z_injective.
    lia. }
  rewrite (b64_eq _ 1 Hone). reflexivity.
Qed.

Lemma rateOf_none (n : nat) : rateOf 0 n = 0.
Proof.
  unfold rateOf.
  assert (Hzero : inject_Z (Z.of_nat 0) / inject_Z (Z.of_nat n) == 0).
  { unfold Qdiv. change (inject_Z (Z.of_nat 0)) with 0. ring. }
  rewrite (b64_eq _ 0 Hzero). reflexivity.
Qed.

(** Within the length of a JS array, one failed entry keeps the rate
    away from 100, and one successful entry keeps it away from 0. *)
Lemma rateOf_below (s n : nat) :
  (s < n)%nat -> (Z.of_nat n <= 2 ^ 32)%Z ->
  rateOf s n <= 100 - (1 # 67108864).
Proof.
  intros Hsn Hn. unfold rateOf.
  assert (Hnq : 0 < inject_Z (Z.of_nat n)).
  { change 0 with (inject_Z 0). rewrite <- Zlt_Qlt. lia. }
  destruct (quotient_bounds s n ltac:(lia) ltac:(lia)) as [Hlow _].
  assert (Hq : inject_Z (Z.of_nat s) / inject_Z (Z.of_nat n)
               <= 4294967295 # 4294967296).
  { apply Qle_shift_div_r; [exact Hnq |].
    unfold Qle, Qmult, inject_Z. cbn [Qnum Qden]. lia. }
  set (q := inject_Z (Z.of_nat s) / inject_Z (Z.of_nat n)) in *.
  pose proof (b64_nonneg q Hlow) as Hq0.
  pose proof (b64_mono q _ Hlow Hq) as Hq1.
  change (Number.b64 (4294967295 # 4294967296))
    with (4294967295 # 4294967296) in Hq1.
  change (100 - (1 # 67108864))
    with (Number.b64 (6710886399 # 67108864)).
  apply b64_mono; lra.
Qed.

Lemma rateOf_above (s n : nat) :
  (0 < s)%nat -> (s <= n)%nat -> (Z.of_nat n <= 2 ^ 32)%Z ->
  (1 # 67108864) <= rateOf s n.
Proof.
  intros Hs Hsn Hn. unfold rateOf.
  assert (Hnq : 0 < inject_Z (Z.of_nat n)).
  { change 0 with (inject_Z 0). rewrite <- Zlt_Qlt. lia. }
  assert (Hq : (1 # 4294967296)
               <= inject_Z (Z.of_nat s) / inject_Z (Z.of_nat n)).
  { apply Qle_shift_div_l; [exact Hnq |].
    unfold Qle, Qmult, inject_Z. cbn [Qnum Qden]. lia. }
  set (q := inject_Z (Z.of_nat s) / inject_Z (Z.of_nat n)) in *.
  pose proof (b64_mono (1 # 4294967296) q
                ltac:(apply Qlt_le_weak; reflexivity) Hq) as Hq1.
  change (Number.b64 (1 # 4294967296)) with (1 # 4294967296) in Hq1.
  change (1 # 67108864) with (Number.b64 (1 # 67108864)).
  apply b64_mono; lra.
Qed.


End RateFacts.




Definition sample_logs : list ActionLog :=
  [ {| timestamp := 1760349600000;
       action := {| a_action := "navigate"; a_target := None; a_value := None;
                    a_reasoning := Some "Initial navigation to target URL" |};
       result := {| r_success := true;
                    r_message := "Navigated to https://example.com";
                    r_error := None |};
       context := {| c_url := "https://example.com/";
                     c_title := Some "Example Domain" |} |};
    {| timestamp := 1760349608000;
       action := {| a_action := "click"; a_target := Some "#missing";
                    a_value := None; a_reasoning := Some "Try the button" |};
       result := {| r_success := false;
                    r_message := "Failed to execute click";
                    r_error := Some "Timeout 5000ms exceeded." |};
       context := {| c_url := "https://example.com/";
                     c_title := Some "Example Domain" |} |} ].

Definition sample_store : Db.Store :=
  {| Db.tests := <["run-1" := sample_row]> ∅; Db.reports := [] |}.

Definition completed_session (attempt : nat)
  : outcome Browserbase.SessionInfo :=
  Return {| Browserbase.session_status := "COMPLETED";
            Browserbase.endedAt := None |}.

Definition sample_report (isoNow : string) : Report :=
  ReportService.buildReport isoNow
    (Some "https://browserbase.com/sessions/sess-1") "run-1" sample_logs
    "sess-1".

Definition sample_store_after (isoNow dbNow : string) (st : Db.Store)
  : Db.Store :=
  match Db.createReport dbNow "run-1" (sample_report isoNow)
          (Some "https://browserbase.com/sessions/sess-1") st with
  | Return st' => st'
  | Throw _ => st
  end.



(** C9.  The report builder is a deterministic function of its inputs:
    two calls with the same action-log list, session id and stubbed
    recording lookup return reports whose summary, navigation path and
    issues sections are identical, whatever the clocks read and whatever
    the store holds at each call (in particular when the second call runs
    on the store the first one left). *)
Theorem report_sections_deterministic :
  forall (isoNow1 dbNow1 isoNow2 dbNow2 : string)
         (retrieve : nat -> outcome Browserbase.SessionInfo)
         (testId : string) (actionLogs : list ActionLog) (sid : string)
         (st1 st2 : Db.Store) (report1 report2 : Report)
         (st1' st2' : Db.Store),
    ReportService.generateReport isoNow1 dbNow1 retrieve testId actionLogs sid
      st1 = Return (report1, st1') ->
    ReportService.generateReport isoNow2 dbNow2 retrieve testId actionLogs sid
      st2 = Return (report2, st2') ->
    summary report1 = summary report2
    /\ navigationPath report1 = navigationPath report2
    /\ issues report1 = issues report2.
Proof.
  intros isoNow1 dbNow1 isoNow2 dbNow2 retrieve testId actionLogs sid
         st1 st2 report1 report2 st1' st2' H1 H2.
  apply generateReport_returns in H1.
  apply generateReport_returns in H2.
  subst report1 report2. repeat split.
Qed.

Lemma report_sections_deterministic_witness :
  summary (sample_report "2025-10-13T10:00:10.000Z")
  = summary (sample_report "2025-10-13T10:00:12.000Z")
  /\ navigationPath (sample_report "2025-10-13T10:00:10.000Z")
     = navigationPath (sample_report "2025-10-13T10:00:12.000Z")
  /\ issues (sample_report "2025-10-13T10:00:10.000Z")
     = issues (sample_report "2025-10-13T10:00:12.000Z").
Proof.
  apply (report_sections_deterministic
           "2025-10-13T10:00:10.000Z" "2025-10-13 10:00:10"
           "2025-10-13T10:00:12.000Z" "2025-10-13 10:00:12"
           completed_session "run-1" sample_logs "sess-1"
           sample_store
           (sample_store_after "2025-10-13T10:00:10.000Z"
              "2025-10-13 10:00:10" sample_store)
           (sample_report "2025-10-13T10:00:10.000Z")
           (sample_report "2025-10-13T10:00:12.000Z")
           (sample_store_after "2025-10-13T10:00:10.000Z"
              "2025-10-13 10:00:10" sample_store)
           (sample_store_after "2025-10-13T10:00:12.000Z"
              "2025-10-13 10:00:12"
              (sample_store_after "2025-10-13T10:00:10.000Z"
                 "2025-10-13 10:00:10" sample_store)));
    vm_compute; reflexivity.
Defined.

(** ** The recording endpoint (C7) *)

Lemma getRecordingUrl_loop_always
    (retrieve : nat -> outcome Browserbase.SessionInfo) (sessionId : string) :
  forall remaining attempt,
    Browserbase.getRecordingUrl_loop retrieve sessionId remaining attempt
    = Some (Browserbase.recordingUrlOf sessionId).
Proof.
  induction remaining as [| k IH]; intros attempt; simpl.
  - reflexivity.
  - destruct (retrieve attempt) as [session | msg].
    + destruct (String.eqb (Browserbase.session_status session) "COMPLETED"
                || truthy_opt (Browserbase.endedAt session));
        [reflexivity | apply IH].
    + apply IH.
Qed.

Lemma truthy_nonempty (s : string) : s <> "" -> truthy s = true.
Proof.
  intros Hne. unfold truthy. apply negb_true_iff.
  apply String.eqb_neq. exact Hne.
Qed.

(** A provider that reports the session as still running, with no end
    time, at every poll: the recording never becomes available. *)
Definition still_running (attempt : nat) : outcome Browserbase.SessionInfo :=
  Return {| Browserbase.session_status := "RUNNING";
            Browserbase.endedAt := None |}.

Definition sample_server : Routes.Server :=
  {| Routes.store := sample_store;
     Routes.activeSessions := ∅;
     Routes.testQueue := [];
     Routes.isProcessingQueue := false |}.

(** C7, refuted as stated: for a run whose session is never reported
    completed or ended by any of the bounded polls, the recording endpoint
    does not answer 404; it answers 200 with a recording URL. *)
Lemma recording_unavailable_still_answers_url :
  (forall attempt,
      still_running attempt
      = Return {| Browserbase.session_status := "RUNNING";
                  Browserbase.endedAt := None |})
  /\ Routes.get_recording still_running "run-1" sample_server
     = {| Routes.code := 200;
          Routes.body := Routes.RecordingBody "run-1" "sess-1"
                           "https://browserbase.com/sessions/sess-1" |}
  /\ Routes.code (Routes.get_recording still_running "run-1" sample_server)
     <> 404%nat.
Proof.
  split; [reflexivity |]. split; [vm_compute; reflexivity |].
  vm_compute. discriminate.
Qed.

(** C7, amended.  For every run that exists and has a remote-session id,
    the recording endpoint answers 200 with the URL
    [https://browserbase.com/sessions/<session id>], whatever the provider
    answers to the bounded polls: the lookup yields that URL for every
    input, so the 'Recording not available' branch is never taken.  The
    endpoint answers 404 exactly when the test id is unknown. *)
Theorem recording_endpoint_always_answers_url :
  forall (retrieve : nat -> outcome Browserbase.SessionInfo)
         (testId : string) (s : Routes.Server),
    (forall maxRetries sid,
        Browserbase.getRecordingUrl retrieve sid maxRetries
        = Some ("https://browserbase.com/sessions/" ++ sid)%string)
    /\ (forall test sid,
          Db.getTest testId (Routes.tests s) = Some test ->
          Db.browserbase_session_id test = Some sid ->
          sid <> "" ->
          Routes.get_recording retrieve testId s
          = {| Routes.code := 200;
               Routes.body :=
                 Routes.RecordingBody testId sid
                   ("https://browserbase.com/sessions/" ++ sid)%string |})
    /\ (Routes.code (Routes.get_recording retrieve testId s) = 404%nat
        <-> Db.getTest testId (Routes.tests s) = None).
Proof.
  intros retrieve testId s. split; [| split].
  - intros maxRetries sid. apply getRecordingUrl_loop_always.
  - intros test sid Htest Hsid Hne. unfold Routes.get_recording.
    rewrite Htest, Hsid. simpl. rewrite (truthy_nonempty sid Hne).
    unfold Browserbase.getRecordingUrl.
    rewrite getRecordingUrl_loop_always. reflexivity.
  - unfold Routes.get_recording.
    destruct (Db.getTest testId (Routes.tests s)) as [test |];
      [| split; reflexivity].
    split; [| discriminate].
    destruct (or_null (Db.browserbase_session_id test)) as [sid |];
      [| simpl; discriminate].
    unfold Browserbase.getRecordingUrl.
    rewrite getRecordingUrl_loop_always. simpl. discriminate.
Qed.

Lemma recording_endpoint_always_answers_url_witness :
  Routes.get_recording still_running "run-1" sample_server
  = {| Routes.code := 200;
       Routes.body := Routes.RecordingBody "run-1" "sess-1"
                        "https://browserbase.com/sessions/sess-1" |}.
Proof.
  apply (proj1 (proj2 (recording_endpoint_always_answers_url
                         still_running "run-1" sample_server))
           sample_row "sess-1").
  - reflexivity.
  - reflexivity.
  - discriminate.
Defined.

(** ** Stopping a run (C6) *)

Lemma post_stop_running (clk : Routes.Clock) (testId : string)
    (s : Routes.Server) (test : Db.TestRow) :
  Db.getTest testId (Routes.tests s) = Some test ->
  Db.status test = "running" ->
  Routes.post_stop clk testId s
  = ({| Routes.code := 200;
        Routes.body := Routes.StoppedBody testId "stopped" |},
     Routes.with_activeSessions
       (delete testId (Routes.activeSessions s))
       (Routes.updateTestStatus clk testId "stopped"
          (Some "Manually stopped by user") s)).
Proof.
  intros Htest Hrun. unfold Routes.post_stop. rewrite Htest, Hrun.
  reflexivity.
Qed.

Lemma getTest_after_stop (clk : Routes.Clock) (testId : string)
    (s : Routes.Server) (test : Db.TestRow)
    (m : gmap string Routes.Session) :
  Db.getTest testId (Routes.tests s) = Some test ->
  Db.getTest testId
    (Routes.tests
       (Routes.with_activeSessions m
          (Routes.updateTestStatus clk testId "stopped"
             (Some "Manually stopped by user") s)))
  = Some (Db.set_status "stopped" test).
Proof.
  intros Htest.
  change (Db.updateTestStatus (Routes.dbNow clk) testId "stopped"
            (Some "Manually stopped by user") (Routes.tests s) !! testId
          = Some (Db.set_status "stopped" test)).
  rewrite updateTestStatus_stopped, lookup_alter_eq.
  unfold Db.getTest in Htest. rewrite Htest. reflexivity.
Qed.

(** ** Session-creation failure at admission (C8) *)

Lemma createTest_other (now testId url other : string) (sid : option string)
    (db db' : gmap string Db.TestRow) :
  Db.createTest now testId url sid db = Return db' ->
  other <> testId ->
  db' !! other = db !! other.
Proof.
  unfold Db.createTest. intros Hcreate Hne.
  destruct (db !! testId); [discriminate |].
  inversion Hcreate; subst. apply lookup_insert_ne. congruence.
Qed.

Lemma runTestInBackground_begin_other (clk : Routes.Clock)
    (testId other : string) (s : Routes.Server) :
  other <> testId ->
  Routes.tests (Routes.runTestInBackground_begin clk testId s) !! other
  = Routes.tests s !! other
  /\ Routes.activeSessions (Routes.runTestInBackground_begin clk testId s)
       !! other
     = Routes.activeSessions s !! other.
Proof.
  intros Hne. split.
  - apply updateTestStatus_other. exact Hne.
  - unfold Routes.runTestInBackground_begin. cbn [Routes.activeSessions
      Routes.with_activeSessions Routes.updateTestStatus Routes.with_tests].
    apply lookup_insert_ne. congruence.
Qed.

(** A pass of the drain loop leaves alone every run that is not in the
    queue it works on: its row and its in-memory session. *)
Lemma processQueue_while_other (clk : Routes.Clock)
    (create : nat -> outcome Browserbase.ProviderSession) (other : string) :
  forall (queue : list Routes.QueuedTest) (n : nat) (s : Routes.Server),
    ~ In other (map Routes.q_testId queue) ->
    Routes.tests (Routes.processQueue_while clk create n queue s) !! other
    = Routes.tests s !! other
    /\ Routes.activeSessions (Routes.processQueue_while clk create n queue s)
         !! other
       = Routes.activeSessions s !! other.
Proof.
  induction queue as [| queuedTest rest IH]; intros n s Hnotin.
  - split; reflexivity.
  - assert (Hne : other <> Routes.q_testId queuedTest)
      by (intros ->; apply Hnotin; left; reflexivity).
    assert (Hrest : ~ In other (map Routes.q_testId rest))
      by (intros Hin; apply Hnotin; right; exact Hin).
    cbn [Routes.processQueue_while].
    destruct (1 <=? size (Routes.activeSessions s))%nat;
      [split; reflexivity |].
    destruct (Browserbase.createSession (create n)) as [session | msg];
      cbn [bind].
    + destruct (Db.createTest (Routes.dbNow clk) (Routes.q_testId queuedTest)
                  (Routes.q_url queuedTest)
                  (Some (Browserbase.sessionId session))
                  (Routes.tests (Routes.with_testQueue rest s)))
        as [tests' | msg] eqn:Hcreate; cbn [bind].
      * destruct (IH (S n)
                    (Routes.runTestInBackground_begin clk
                       (Routes.q_testId queuedTest)
                       (Routes.with_tests tests'
                          (Routes.with_testQueue rest s))) Hrest)
          as [Htests Hactive].
        destruct (runTestInBackground_begin_other clk
                    (Routes.q_testId queuedTest) other
                    (Routes.with_tests tests' (Routes.with_testQueue rest s))
                    Hne) as [Htests' Hactive'].
        rewrite Htests, Hactive, Htests', Hactive'. split; [| reflexivity].
        apply (createTest_other _ _ _ _ _ _ _ Hcreate Hne).
      * destruct (IH (S n)
                    (Routes.updateTestStatus clk (Routes.q_testId queuedTest)
                       "failed" (Some msg) (Routes.with_testQueue rest s))
                    Hrest) as [Htests Hactive].
        rewrite Htests, Hactive. split; [| reflexivity].
        apply updateTestStatus_other. exact Hne.
    + destruct (IH (S n)
                  (Routes.updateTestStatus clk (Routes.q_testId queuedTest)
                     "failed" (Some msg) (Routes.with_testQueue rest s))
                  Hrest) as [Htests Hactive].
      rewrite Htests, Hactive. split; [| reflexivity].
      apply updateTestStatus_other. exact Hne.
Qed.

Definition sample_clock : Routes.Clock :=
  {| Routes.dbNow := "2025-10-13 10:00:00";
     Routes.isoNow := "2025-10-13T10:00:00.000Z" |}.

(** C8, refuted as stated: a start request that is admitted immediately
    and whose session creation fails is answered 500; no run is recorded,
    so no run becomes 'failed' and the status endpoint answers 404 for the
    id. *)
Lemma failed_immediate_start_records_no_run :
  Routes.post_start sample_clock (Some "https://example.com") true "run-9"
    (Throw "Concurrent session limit reached") Routes.initial
  = ({| Routes.code := 500;
        Routes.body :=
          Routes.ErrorBody "Failed to start test"
            "Failed to create Browserbase session: Concurrent session limit reached"
            None |},
     Routes.initial)
  /\ Routes.statusOf "run-9" Routes.initial <> Some "failed"
  /\ Routes.code (Routes.get_status "run-9" Routes.initial) = 404%nat.
Proof.
  split; [vm_compute; reflexivity |].
  split; [vm_compute; discriminate | vm_compute; reflexivity].
Qed.

(** C8, amended.  A start request that is admitted immediately (no active
    session) and whose session creation fails is answered 500 with the
    provider's message behind the prefix 'Failed to create Browserbase
    session: ', and the server state is unchanged: no run is recorded.
    When a pass of the drain loop takes a queued run from the head of the
    queue and session creation fails for it, the run's row becomes
    'failed' with that prefixed message as its error, and the status
    endpoint answers 200 with that row. *)
Theorem session_creation_failure_at_admission :
  forall (clk : Routes.Clock) (msg : string),
    (forall (url : option string) (u uuid : string) (s : Routes.Server),
        or_null url = Some u ->
        size (Routes.activeSessions s) = 0%nat ->
        Routes.post_start clk url true uuid (Throw msg) s
        = ({| Routes.code := 500;
              Routes.body :=
                Routes.ErrorBody "Failed to start test"
                  ("Failed to create Browserbase session: " ++ msg)%string
                  None |}, s))
    /\ (forall (create : nat -> outcome Browserbase.ProviderSession)
               (queuedTest : Routes.QueuedTest)
               (rest : list Routes.QueuedTest) (s : Routes.Server)
               (row : Db.TestRow),
          Routes.isProcessingQueue s = false ->
          Routes.testQueue s = queuedTest :: rest ->
          Routes.activeSessions s = ∅ ->
          create 0%nat = Throw msg ->
          Db.getTest (Routes.q_testId queuedTest) (Routes.tests s) = Some row ->
          ~ In (Routes.q_testId queuedTest) (map Routes.q_testId rest) ->
          exists row',
            Db.getTest (Routes.q_testId queuedTest)
              (Routes.tests (Routes.processQueue clk create s)) = Some row'
            /\ Db.status row' = "failed"
            /\ Db.error row'
               = Some ("Failed to create Browserbase session: " ++ msg)%string
            /\ Routes.get_status (Routes.q_testId queuedTest)
                 (Routes.processQueue clk create s)
               = {| Routes.code := 200;
                    Routes.body :=
                      Routes.StoredStatusBody (Routes.q_testId queuedTest)
                        row' None |}).
Proof.
  intros clk msg. split.
  - intros url u uuid s Hurl Hsize. unfold Routes.post_start.
    rewrite Hurl, Hsize. reflexivity.
  - intros create queuedTest rest s row Hflag Hqueue Hactive Hcreate Hrow
           Hnodup.
    exists (Db.set_finished (Routes.dbNow clk) "failed"
              (Some ("Failed to create Browserbase session: " ++ msg)%string)
              row).
    unfold Routes.processQueue. rewrite Hflag, Hqueue.
    cbn [orb length Nat.eqb].
    change (Routes.testQueue (Routes.with_isProcessingQueue true s))
      with (Routes.testQueue s).
    rewrite Hqueue. cbn [Routes.processQueue_while].
    change (Routes.activeSessions (Routes.with_isProcessingQueue true s))
      with (Routes.activeSessions s).
    rewrite Hactive, map_size_empty. cbn [Nat.leb].
    rewrite Hcreate. cbn [Browserbase.createSession bind].
    pose (failure := ("Failed to create Browserbase session: " ++ msg)%string).
    pose (s1 := Routes.updateTestStatus clk (Routes.q_testId queuedTest)
                  "failed" (Some failure)
                  (Routes.with_testQueue rest
                     (Routes.with_isProcessingQueue true s))).
    fold failure. fold s1.
    destruct (processQueue_while_other clk create (Routes.q_testId queuedTest)
                rest 1%nat s1 Hnodup) as [Htests Hsessions].
    assert (Hrow1 : Routes.tests s1 !! Routes.q_testId queuedTest
                    = Some (Db.set_finished (Routes.dbNow clk) "failed"
                              (Some failure) row)).
    { change (Db.updateTestStatus (Routes.dbNow clk)
                (Routes.q_testId queuedTest) "failed" (Some failure)
                (Routes.tests s) !! Routes.q_testId queuedTest
              = Some (Db.set_finished (Routes.dbNow clk) "failed"
                        (Some failure) row)).
      unfold Db.updateTestStatus. simpl.
      rewrite lookup_alter_eq. unfold Db.getTest in Hrow. rewrite Hrow.
      reflexivity. }
    assert (Hsess1 : Routes.activeSessions s1 !! Routes.q_testId queuedTest
                     = None).
    { change (Routes.activeSessions s !! Routes.q_testId queuedTest = None).
      rewrite Hactive. apply lookup_empty. }
    split; [| split; [reflexivity | split; [reflexivity |]]].
    + unfold Db.getTest.
      change (Routes.tests (Routes.processQueue_while clk create 1 rest s1)
                !! Routes.q_testId queuedTest
              = Some (Db.set_finished (Routes.dbNow clk) "failed"
                        (Some failure) row)).
      rewrite Htests. exact Hrow1.
    + unfold Routes.get_status, Db.getTest.
      change (Routes.activeSessions
                (Routes.with_isProcessingQueue false
                   (Routes.processQueue_while clk create 1 rest s1)))
        with (Routes.activeSessions
                (Routes.processQueue_while clk create 1 rest s1)).
      change (Routes.tests
                (Routes.with_isProcessingQueue false
                   (Routes.processQueue_while clk create 1 rest s1)))
        with (Routes.tests (Routes.processQueue_while clk create 1 rest s1)).
      rewrite Hsessions, Hsess1, Htests, Hrow1. reflexivity.
Qed.

Definition queued_row : Db.TestRow :=
  {| Db.url := "https://example.org"; Db.status := "queued";
     Db.created_at := "2025-10-13 09:59:00"; Db.started_at := None;
     Db.completed_at := None; Db.browserbase_session_id := None;
     Db.error := None |}.

(** A state in which the drain loop has a queued run to take: nothing is
    active and one request waits. *)
Definition drainable_server : Routes.Server :=
  {| Routes.store := {| Db.tests := <["run-2" := queued_row]> ∅;
                        Db.reports := [] |};
     Routes.activeSessions := ∅;
     Routes.testQueue :=
       [ {| Routes.q_testId := "run-2"; Routes.q_url := "https://example.org";
            Routes.q_queuedAt := "2025-10-13T09:59:00.000Z" |} ];
     Routes.isProcessingQueue := false |}.

Definition provider_down (n : nat) : outcome Browserbase.ProviderSession :=
  Throw "Concurrent session limit reached".

Lemma session_creation_failure_at_admission_witness :
  Routes.post_start sample_clock (Some "https://example.com") true "run-9"
    (Throw "Concurrent session limit reached") Routes.initial
  = ({| Routes.code := 500;
        Routes.body :=
          Routes.ErrorBody "Failed to start test"
            "Failed to create Browserbase session: Concurrent session limit reached"
            None |},
     Routes.initial)
  /\ exists row',
       Db.getTest "run-2"
         (Routes.tests
            (Routes.processQueue sample_clock provider_down drainable_server))
       = Some row'
       /\ Db.status row' = "failed"
       /\ Db.error row'
          = Some "Failed to create Browserbase session: Concurrent session limit reached"
       /\ Routes.get_status "run-2"
            (Routes.processQueue sample_clock provider_down drainable_server)
          = {| Routes.code := 200;
               Routes.body := Routes.StoredStatusBody "run-2" row' None |}.
Proof.
  destruct (session_creation_failure_at_admission sample_clock
              "Concurrent session limit reached") as [Himmediate Hqueued].
  split.
  - apply (Himmediate (Some "https://example.com") "https://example.com"
             "run-9" Routes.initial); reflexivity.
  - apply (Hqueued provider_down
             {| Routes.q_testId := "run-2";
                Routes.q_url := "https://example.org";
                Routes.q_queuedAt := "2025-10-13T09:59:00.000Z" |}
             [] drainable_server queued_row);
      try reflexivity.
    simpl. intros [].
Defined.

(** ** Terminal states and the admission queue (C2, C1) *)

Definition provider_ok (sid : string) : outcome Browserbase.ProviderSession :=
  Return {| Browserbase.id := sid; Browserbase.liveUrl := None;
            Browserbase.debugUrl := None |}.

Definition at_time (t : string) : Routes.Clock :=
  {| Routes.dbNow := t; Routes.isoNow := t |}.

Definition start (t testId url : string) : Routes.Event :=
  Routes.StartRequest (at_time t) (Some url) true testId
    (provider_ok ("sess-" ++ testId)).

(** The run's background job reaches its end: the scripted protocol ran
    through and logged its two steps. *)
Definition finishes (t testId : string) : Routes.Event :=
  Routes.JobEnds (at_time t) (fun _ => provider_ok "sess-next") testId
    ("sess-" ++ testId) (Routes.Finished sample_logs completed_session).

(** The run's background job fails: an awaited driver call throws. *)
Definition crashes (t testId : string) : Routes.Event :=
  Routes.JobEnds (at_time t) (fun _ => provider_ok "sess-next") testId
    ("sess-" ++ testId)
    (Routes.Threw "page.goto: Target page, context or browser has been closed").

Lemma processQueue_other (clk : Routes.Clock)
    (create : nat -> outcome Browserbase.ProviderSession) (other : string)
    (s : Routes.Server) :
  ~ In other (map Routes.q_testId (Routes.testQueue s)) ->
  Routes.tests (Routes.processQueue clk create s) !! other
  = Routes.tests s !! other.
Proof.
  intros Hnotin. unfold Routes.processQueue.
  destruct (Routes.isProcessingQueue s
            || (length (Routes.testQueue s) =? 0)%nat); [reflexivity |].
  apply (processQueue_while_other clk create other (Routes.testQueue s) 0%nat
           (Routes.with_isProcessingQueue true s) Hnotin).
Qed.

(** The tail of the background job writes the run's status whatever the
    status is at that moment: a run that is not waiting in the queue ends
    up 'completed' when the protocol ran through and 'failed' when it
    threw, also when the row said 'stopped' before. *)
Lemma job_end_writes_status (clk : Routes.Clock)
    (create : nat -> outcome Browserbase.ProviderSession)
    (testId sid : string) (run : Routes.JobRun) (s : Routes.Server)
    (row : Db.TestRow) :
  Db.getTest testId (Routes.tests s) = Some row ->
  ~ In testId (map Routes.q_testId (Routes.testQueue s)) ->
  Routes.statusOf testId
    (Routes.runTestInBackground_end clk create testId sid run s)
  = Some match run with
         | Routes.Threw _ => "failed"
         | Routes.Finished _ _ => "completed"
         end.
Proof.
  intros Hrow Hnotin. unfold Routes.statusOf, Db.getTest in *.
  unfold Routes.runTestInBackground_end.
  destruct run as [msg | actionLogs retrieve].
  - rewrite processQueue_other; [| exact Hnotin].
    change (Db.status <$>
              (Db.updateTestStatus (Routes.dbNow clk) testId "failed"
                 (Some msg) (Routes.tests s) !! testId) = Some "failed").
    apply (updateTestStatus_status _ _ _ _ _ row Hrow).
  - unfold ReportService.generateReport, Db.createReport.
    change (Db.tests (Routes.store s)) with (Routes.tests s).
    rewrite Hrow.
    rewrite processQueue_other; [| exact Hnotin].
    change (Db.status <$>
              (Db.updateTestStatus (Routes.dbNow clk) testId "completed"
                 None (Routes.tests s) !! testId) = Some "completed").
    apply (updateTestStatus_status _ _ _ _ _ row Hrow).
Qed.

(** C2 (the code departs from the claim).  A run is started, stopped by
    the stop endpoint while 'running', and its background job, which the
    stop does not interrupt, then reaches its end: the stored status goes
    from 'stopped' to 'completed' (and the report endpoint then serves a
    report); had the job thrown instead, the status would go from
    'stopped' to 'failed'. *)
Theorem stopped_run_is_overwritten :
  Routes.statusOf "A"
    (Routes.run [start "t1" "A" "https://a.example";
                 Routes.StopRequest (at_time "t2") "A"] Routes.initial)
  = Some "stopped"
  /\ Routes.statusOf "A"
       (Routes.run [start "t1" "A" "https://a.example";
                    Routes.StopRequest (at_time "t2") "A";
                    finishes "t3" "A"] Routes.initial)
     = Some "completed"
  /\ Routes.code
       (Routes.get_report "A"
          (Routes.run [start "t1" "A" "https://a.example";
                       Routes.StopRequest (at_time "t2") "A";
                       finishes "t3" "A"] Routes.initial))
     = 200%nat
  /\ Routes.statusOf "A"
       (Routes.run [start "t1" "A" "https://a.example";
                    Routes.StopRequest (at_time "t2") "A";
                    crashes "t3" "A"] Routes.initial)
     = Some "failed".
Proof. repeat split; vm_compute; reflexivity. Qed.

(** Why the queue stays put: [POST /start] stores every queued request in
    [activeSessions] as well, and the drain loop stops as soon as
    [activeSessions] is not empty.  Whenever the request at the head of the
    queue still has its entry there, a call of [processQueue] takes
    nothing from the queue and starts nothing. *)
Lemma drain_blocked_by_queued_session (clk : Routes.Clock)
    (create : nat -> outcome Browserbase.ProviderSession) (s : Routes.Server)
    (queuedTest : Routes.QueuedTest) (rest : list Routes.QueuedTest) :
  Routes.testQueue s = queuedTest :: rest ->
  is_Some (Routes.activeSessions s !! Routes.q_testId queuedTest) ->
  Routes.testQueue (Routes.processQueue clk create s) = Routes.testQueue s
  /\ Routes.store (Routes.processQueue clk create s) = Routes.store s
  /\ Routes.activeSessions (Routes.processQueue clk create s)
     = Routes.activeSessions s.
Proof.
  intros Hqueue [session Hsession]. unfold Routes.processQueue.
  destruct (Routes.isProcessingQueue s); [repeat split |].
  rewrite Hqueue. cbn [orb length Nat.eqb].
  change (Routes.testQueue (Routes.with_isProcessingQueue true s))
    with (Routes.testQueue s).
  rewrite Hqueue. cbn [Routes.processQueue_while].
  change (Routes.activeSessions (Routes.with_isProcessingQueue true s))
    with (Routes.activeSessions s).
  assert (Hsize : size (Routes.activeSessions s) <> 0%nat).
  { apply map_size_non_empty_iff. intros Hempty.
    rewrite Hempty, lookup_empty in Hsession. discriminate. }
  destruct (size (Routes.activeSessions s)) as [| n]; [congruence |].
  cbn [Nat.leb]. repeat split. exact Hqueue.
Qed.

(** C1 (the code departs from the claim).  Three start requests arrive
    while nothing is active: the first run is 'running', the other two are
    'queued' with positions 1 and 2.  When the running job ends, the drain
    loop finds the two queued entries counted in [activeSessions] and
    stops at once: nothing is taken from the queue, nothing is started,
    both runs stay 'queued', and a later request is queued behind them
    although no run is running. *)
Theorem queue_does_not_drain :
  let admitted :=
    Routes.run [start "t1" "A" "https://a.example";
                start "t2" "B" "https://b.example";
                start "t3" "C" "https://c.example"] Routes.initial in
  let drained := Routes.step admitted (finishes "t4" "A") in
  (Routes.statusOf "A" admitted = Some "running"
   /\ Routes.statusOf "B" admitted = Some "queued"
   /\ Routes.statusOf "C" admitted = Some "queued"
   /\ Routes.queuePosition <$> (Routes.activeSessions admitted !! "B")
      = Some (Some 1%nat)
   /\ Routes.queuePosition <$> (Routes.activeSessions admitted !! "C")
      = Some (Some 2%nat))
  /\ (Routes.statusOf "A" drained = Some "completed"
      /\ Routes.statusOf "B" drained = Some "queued"
      /\ Routes.statusOf "C" drained = Some "queued"
      /\ map Routes.q_testId (Routes.testQueue drained) = ["B"; "C"]
      /\ size (Routes.activeSessions drained) = 2%nat)
  /\ fst (Routes.post_start (at_time "t5") (Some "https://d.example") true "D"
            (provider_ok "sess-D") drained)
     = {| Routes.code := 200; Routes.body := Routes.QueuedBody "D" 3 |}.
Proof. repeat split; vm_compute; reflexivity. Qed.

(** ** The decision client (C4) *)

(** A stack of open containers whose outermost one is an object. *)
Fixpoint rooted_stack (stack : list Json.frame) : bool :=
  match stack with
  | [] => false
  | f :: rest =>
      match rest with
      | [] => match f with Json.FObject _ _ => true | Json.FArray _ => false end
      | _ :: _ => rooted_stack rest
      end
  end.

Definition is_object (v : Json.value) : bool :=
  match v with
  | Json.JObject _ => true
  | _ => false
  end.

(** Parser states from which only an object can come out. *)
Definition rooted (st : Json.state) : bool :=
  match st with
  | Json.ExpValue stack
  | Json.ExpValueOrClose stack
  | Json.AfterElement _ stack => rooted_stack stack
  | Json.ExpKeyOrClose stack
  | Json.ExpKey _ stack
  | Json.ExpColon _ _ stack
  | Json.AfterMember _ stack =>
      match stack with [] => true | _ :: _ => rooted_stack stack end
  | Json.Finished v => is_object v
  end.

Lemma rooted_push_value (v : Json.value) (stack : list Json.frame) :
  rooted_stack stack = true -> rooted (Json.push_value v stack) = true.
Proof.
  destruct stack as [| [items | members key] [| g rest]]; simpl;
    intros H; try discriminate; try exact H; reflexivity.
Qed.

Lemma rooted_push_object (members : list (string * Json.value))
    (stack : list Json.frame) :
  match stack with [] => true | _ :: _ => rooted_stack stack end = true ->
  rooted (Json.push_value (Json.JObject members) stack) = true.
Proof.
  destruct stack as [| f rest]; [reflexivity |].
  apply rooted_push_value.
Qed.

Lemma rooted_stack_cons (f : Json.frame) (stack : list Json.frame) :
  rooted_stack stack = true -> rooted_stack (f :: stack) = true.
Proof. destruct stack; [discriminate | intros H; exact H]. Qed.

Lemma rooted_start_value (t : Json.token) (stack : list Json.frame)
    (st : Json.state) :
  rooted_stack stack = true ->
  Json.start_value t stack = Some st ->
  rooted st = true.
Proof.
  intros Hstack Hstart.
  destruct t; simpl in Hstart; inversion Hstart; subst;
    try (apply rooted_push_value; exact Hstack).
  - simpl. destruct stack; [discriminate | exact Hstack].
  - exact Hstack.
Qed.

Lemma rooted_parse_step (st st' : Json.state) (t : Json.token) :
  rooted st = true ->
  Json.parse_step st t = Some st' ->
  rooted st' = true.
Proof.
  intros Hst Hstep.
  destruct st as [stack | stack | stack | members stack | members key stack
                 | items stack | members stack | v]; simpl in Hst, Hstep.
  - apply (rooted_start_value t stack st' Hst Hstep).
  - assert (Hcases : t = Json.TRBracket
                     \/ Json.start_value t (Json.FArray [] :: stack) = Some st')
      by (destruct t; auto).
    destruct Hcases as [-> | Hstart].
    + inversion Hstep; subst. apply rooted_push_value. exact Hst.
    + apply (rooted_start_value t (Json.FArray [] :: stack) st');
        [apply rooted_stack_cons; exact Hst | exact Hstart].
  - destruct t; inversion Hstep; subst.
    + apply rooted_push_object. exact Hst.
    + exact Hst.
  - destruct t; inversion Hstep; subst. exact Hst.
  - destruct t; inversion Hstep; subst. simpl.
    destruct stack; [reflexivity | exact Hst].
  - destruct t; inversion Hstep; subst.
    + apply rooted_push_value. exact Hst.
    + simpl. destruct stack; [discriminate | exact Hst].
  - destruct t; inversion Hstep; subst.
    + apply rooted_push_object. exact Hst.
    + exact Hst.
  - discriminate.
Qed.

Lemma rooted_parse_tokens (toks : list Json.token) :
  forall (st : Json.state) (v : Json.value),
    rooted st = true ->
    Json.parse_tokens st toks = Some v ->
    is_object v = true.
Proof.
  induction toks as [| t rest IH]; intros st v Hst Hparse; simpl in Hparse.
  - destruct st; try discriminate. inversion Hparse; subst. exact Hst.
  - destruct (Json.parse_step st t) as [st' |] eqn:Hstep; [| discriminate].
    apply (IH st' v); [| exact Hparse].
    apply (rooted_parse_step st st' t Hst Hstep).
Qed.

(** A text that starts with an opening brace parses, if at all, to an
    object. *)
Lemma parse_braced_is_object (rest : string) (v : Json.value) :
  Json.parse (String "{" rest) = Some v -> is_object v = true.
Proof.
  unfold Json.parse. simpl.
  destruct (Json.lex Json.MNormal rest) as [toks |]; [| discriminate].
  simpl. apply rooted_parse_tokens. reflexivity.
Qed.

(** Whether character [c] occurs in [s]. *)
Fixpoint contains (c : ascii) (s : string) : bool :=
  match s with
  | EmptyString => false
  | String d rest => Ascii.eqb d c || contains c rest
  end.

Lemma upto_last_close_none (post : string) :
  contains "}" post = false -> Agent.upto_last_close post = None.
Proof.
  induction post as [| c rest IH]; simpl; intros H; [reflexivity |].
  apply orb_false_iff in H. destruct H as [Hc Hrest].
  rewrite (IH Hrest), Hc. reflexivity.
Qed.

Lemma upto_last_close_embedded (inner post : string) :
  contains "}" post = false ->
  Agent.upto_last_close (inner ++ "}" ++ post)%string
  = Some (inner ++ "}")%string.
Proof.
  intros Hpost. induction inner as [| c rest IH].
  - change (Agent.upto_last_close (String "}" post) = Some "}").
    cbn [Agent.upto_last_close].
    rewrite (upto_last_close_none post Hpost). reflexivity.
  - change (Agent.upto_last_close (String c (rest ++ "}" ++ post))
            = Some (String c (rest ++ "}"))).
    cbn [Agent.upto_last_close]. rewrite IH. reflexivity.
Qed.

Lemma match_braces_skip (pre rest : string) :
  contains "{" pre = false ->
  Agent.match_braces (pre ++ rest)%string = Agent.match_braces rest.
Proof.
  induction pre as [| c pre' IH]; simpl; intros H; [reflexivity |].
  apply orb_false_iff in H. destruct H as [Hc Hpre].
  rewrite Hc. apply IH. exact Hpre.
Qed.

(** The match spans from the first opening brace to the last closing
    brace: when no opening brace precedes and no closing brace follows a
    braced segment, the match is exactly that segment. *)
Lemma match_braces_embedded (pre inner post : string) :
  contains "{" pre = false ->
  contains "}" post = false ->
  Agent.match_braces (pre ++ "{" ++ inner ++ "}" ++ post)%string
  = Some ("{" ++ inner ++ "}")%string.
Proof.
  intros Hpre Hpost. rewrite (match_braces_skip pre _ Hpre).
  change (Agent.match_braces (String "{" (inner ++ "}" ++ post))
          = Some (String "{" (inner ++ "}"))).
  cbn [Agent.match_braces]. rewrite Ascii.eqb_refl.
  rewrite (upto_last_close_embedded inner post Hpost). reflexivity.
Qed.

Lemma match_braces_starts (s m : string) :
  Agent.match_braces s = Some m -> exists rest, m = String "{" rest.
Proof.
  induction s as [| c rest IH]; simpl; [discriminate |].
  destruct (Ascii.eqb c "{") eqn:Hc; [| exact IH].
  apply Ascii.eqb_eq in Hc. subst c.
  destruct (Agent.upto_last_close rest) as [p |]; [| exact IH].
  intros H. inversion H. exists p. reflexivity.
Qed.

Lemma extractAction_is_object (responseText : option string) :
  is_object (Agent.extractAction responseText) = true.
Proof.
  unfold Agent.extractAction.
  destruct responseText as [responseText |]; [| reflexivity].
  destruct (Agent.match_braces responseText) as [jsonMatch |] eqn:Hmatch;
    [| reflexivity].
  destruct (Json.parse jsonMatch) as [actionData |] eqn:Hparse;
    [| reflexivity].
  destruct (match_braces_starts _ _ Hmatch) as [rest ->].
  apply (parse_braced_is_object rest actionData Hparse).
Qed.

Lemma analyzeAndAct_message (block : Agent.ContentBlock)
    (more : list Agent.ContentBlock) :
  Agent.analyzeAndAct (Agent.Message (block :: more))
  = Return (Agent.extractAction (Agent.text block)).
Proof.
  unfold Agent.analyzeAndAct.
  pose proof (extractAction_is_object (Agent.text block)) as Hobj.
  destruct (Agent.extractAction (Agent.text block)); try discriminate.
  reflexivity.
Qed.

(** The object of the specification's example, its JSON text, and two
    replies that embed that text in prose. *)
Definition click_object : Json.value :=
  Json.JObject [("action", Json.JString "click");
                ("target", Json.JString "#btn");
                ("reasoning", Json.JString "test")].

Definition member_text (key value : string) : string :=
  (Agent.dquote ++ key ++ Agent.dquote ++ ":"
   ++ Agent.dquote ++ value ++ Agent.dquote)%string.

Definition click_inner : string :=
  (member_text "action" "click" ++ "," ++ member_text "target" "#btn" ++ ","
   ++ member_text "reasoning" "test")%string.

Definition click_text : string := ("{" ++ click_inner ++ "}")%string.

Definition reply_with (responseText : string) : Agent.ModelReply :=
  Agent.Message [ {| Agent.text := Some responseText |} ].

(** C4, refuted as stated: the reply below contains the example object as
    valid JSON, surrounded by prose, yet the decision client does not
    return that object; the prose has a brace of its own, the match runs
    from the first opening brace to the last closing brace, that span is
    not JSON, and the fallback decision is returned. *)
Lemma embedded_object_not_returned :
  Json.parse click_text = Some click_object
  /\ Agent.analyzeAndAct
       (reply_with ("Fill the {name} field first. " ++ click_text
                    ++ " Then stop.")%string)
     = Return (Agent.completeWith "Invalid response format")
  /\ Agent.completeWith "Invalid response format" <> click_object.
Proof.
  split; [vm_compute; reflexivity |].
  split; [vm_compute; reflexivity | discriminate].
Qed.

(** C4, amended.  For every text response of the model the decision
    client returns an object and does not throw.  If the response holds a
    JSON object between prose that has no opening brace before the object
    and no closing brace after it, that object is returned.  If the
    response has no brace-delimited span, or the span from its first
    opening brace to its last closing brace is not JSON, the result is an
    object with action 'complete' and a diagnostic reasoning string. *)
Theorem decision_client_parsing :
  forall (more : list Agent.ContentBlock),
    (forall responseText,
        exists decision,
          Agent.analyzeAndAct
            (Agent.Message ({| Agent.text := Some responseText |} :: more))
          = Return decision
          /\ is_object decision = true)
    /\ (forall pre inner post decision,
          contains "{" pre = false ->
          contains "}" post = false ->
          Json.parse ("{" ++ inner ++ "}")%string = Some decision ->
          Agent.analyzeAndAct
            (Agent.Message
               ({| Agent.text :=
                     Some (pre ++ "{" ++ inner ++ "}" ++ post)%string |}
                  :: more))
          = Return decision)
    /\ (forall responseText,
          Agent.match_braces responseText = None ->
          Agent.analyzeAndAct
            (Agent.Message ({| Agent.text := Some responseText |} :: more))
          = Return (Json.JObject
                      [("action", Json.JString "complete");
                       ("reasoning",
                        Json.JString "Could not parse action from response")]))
    /\ (forall responseText jsonMatch,
          Agent.match_braces responseText = Some jsonMatch ->
          Json.parse jsonMatch = None ->
          Agent.analyzeAndAct
            (Agent.Message ({| Agent.text := Some responseText |} :: more))
          = Return (Json.JObject
                      [("action", Json.JString "complete");
                       ("reasoning", Json.JString "Invalid response format")])).
Proof.
  intros more. repeat split.
  - intros responseText.
    exists (Agent.extractAction (Some responseText)).
    split; [apply analyzeAndAct_message | apply extractAction_is_object].
  - intros pre inner post decision Hpre Hpost Hparse.
    rewrite analyzeAndAct_message. cbn [Agent.text Agent.extractAction].
    rewrite (match_braces_embedded pre inner post Hpre Hpost), Hparse.
    reflexivity.
  - intros responseText Hnone.
    rewrite analyzeAndAct_message. cbn [Agent.text Agent.extractAction].
    rewrite Hnone. reflexivity.
  - intros responseText jsonMatch Hmatch Hparse.
    rewrite analyzeAndAct_message. cbn [Agent.text Agent.extractAction].
    rewrite Hmatch, Hparse. reflexivity.
Qed.

Lemma decision_client_parsing_witness :
  Agent.analyzeAndAct
    (reply_with ("I will click the button: " ++ click_text
                 ++ " That should open the form.")%string)
  = Return click_object
  /\ Agent.analyzeAndAct (reply_with "I am not sure what to do next.")
     = Return (Agent.completeWith "Could not parse action from response")
  /\ Agent.analyzeAndAct (reply_with "Next: {click the button}")
     = Return (Agent.completeWith "Invalid response format").
Proof.
  destruct (decision_client_parsing []) as (_ & Hembedded & Hnone & Hbad).
  split; [| split].
  - apply (Hembedded "I will click the button: " click_inner
             " That should open the form." click_object);
      vm_compute; reflexivity.
  - apply (Hnone "I am not sure what to do next."). vm_compute. reflexivity.
  - apply (Hbad "Next: {click the button}" "{click the button}");
      vm_compute; reflexivity.
Defined.

(** ** The testing loop (C5) *)






(** Whether the decision logged in [entry] has action [name]. *)
Definition decided (name : string) (entry : Agent.LogEntry) : bool :=
  match Json.get "action" (Agent.entry_action entry) with
  | Return kind => Agent.is_action name kind
  | Throw _ => false
  end.

Ltac loop_stops :=
  exists []; rewrite app_nil_r;
  split; [reflexivity |]; split; [simpl; lia |];
  split; [intros _; discriminate |];
  intros [| ? ?] ? ?; discriminate.

(** What one run of the loop adds to the log: at most one entry for each
    iteration left, at least one unless it has none left or stops on an
    error, and no entry after one that logs a 'complete' decision, which
    is added only when the loop ends without an error. *)
Lemma testWebsite_while_adds (turns : nat -> Agent.Turn) :
  forall (remaining actionCount : nat) (actionLog : list Agent.LogEntry),
  exists added,
    fst (Agent.testWebsite_while remaining turns actionCount actionLog)
    = actionLog ++ added
    /\ (length added <= remaining)%nat
    /\ (remaining <> 0%nat ->
        snd (Agent.testWebsite_while remaining turns actionCount actionLog)
        = None ->
        added <> [])
    /\ (forall before entry after,
          added = before ++ entry :: after ->
          decided "complete" entry = true ->
          after = []
          /\ snd (Agent.testWebsite_while remaining turns actionCount
                    actionLog) = None).
Proof.
  induction remaining as [| remaining' IH]; intros actionCount actionLog.
  - exists []. cbn [Agent.testWebsite_while fst snd]. rewrite app_nil_r.
    split; [reflexivity |]. split; [simpl; lia |].
    split; [intros H; destruct (H eq_refl) |].
    intros [| ? ?] ? ?; discriminate.
  - cbn [Agent.testWebsite_while].
    destruct (Agent.settle (turns (S actionCount))) as [[] | msg];
      cbn [bind fst snd]; [| loop_stops].
    destruct (Agent.page_title (turns (S actionCount))) as [title | msg];
      cbn [bind fst snd]; [| loop_stops].
    destruct (Agent.screenshot (turns (S actionCount))) as [[] | msg];
      cbn [bind fst snd]; [| loop_stops].
    destruct (Agent.analyzeAndAct (Agent.reply (turns (S actionCount))))
      as [action | msg]; cbn [bind fst snd]; [| loop_stops].
    destruct (Json.get "action" action) as [name | msg] eqn:Hname;
      cbn [bind fst snd]; [| loop_stops].
    destruct (Agent.is_action "complete" name) eqn:Hcomplete.
    + cbn [fst snd]. eexists [_]. split; [reflexivity |].
      split; [simpl; lia |]. split; [discriminate |].
      intros [| ? [| ? ?]] entry after Hsplit _; try discriminate.
      inversion Hsplit. split; reflexivity.
    + destruct (Agent.executeAction (Agent.driver (turns (S actionCount)))
                  action) as [result | msg]; cbn [fst snd]; [| loop_stops].
      set (logged := {| Agent.entry_timestamp :=
                          Agent.logged_at (turns (S actionCount));
                        Agent.entry_action := action;
                        Agent.entry_result := result;
                        Agent.entry_context :=
                          {| c_url := Agent.page_url (turns (S actionCount));
                             c_title := Some title |} |}).
      assert (Hlogged : decided "complete" logged = false).
      { unfold decided. cbn [Agent.entry_action logged]. rewrite Hname.
        exact Hcomplete. }
      destruct (Agent.pause (turns (S actionCount))) as [[] | msg].
      * destruct (IH (S actionCount) (actionLog ++ [logged]))
          as (added & Hfst & Hlen & _ & Hlast).
        exists (logged :: added). split.
        { rewrite Hfst, <- app_assoc. reflexivity. }
        split; [simpl; lia |]. split; [discriminate |].
        intros [| first before] entry after Hsplit Hdecided.
        -- inversion Hsplit. subst entry. rewrite Hlogged in Hdecided.
           discriminate.
        -- inversion Hsplit. apply (Hlast before entry after); assumption.
      * cbn [fst snd]. exists [logged]. split; [reflexivity |].
        split; [simpl; lia |]. split; [discriminate |].
        intros [| ? [| ? ?]] entry after Hsplit Hdecided; try discriminate.
        inversion Hsplit. subst entry. rewrite Hlogged in Hdecided.
        discriminate.
Qed.




(** The entry an iteration pushes for its decision. *)
Definition logged (turn : Agent.Turn) (title : string) (action : Json.value)
    (result : Result) : Agent.LogEntry :=
  {| Agent.entry_timestamp := Agent.logged_at turn;
     Agent.entry_action := action;
     Agent.entry_result := result;
     Agent.entry_context := {| c_url := Agent.page_url turn;
                               c_title := Some title |} |}.





(** A visit in which the model first asks for a click that times out and
    then declares the test complete. *)
Definition sample_turns (n : nat) : Agent.Turn :=
  {| Agent.settle := Return tt;
     Agent.page_url := "https://example.com/";
     Agent.page_title := Return "Example Domain";
     Agent.screenshot := Return tt;
     Agent.reply :=
       match n with
       | 1%nat => reply_with ("Let me try the button. " ++ click_text)%string
       | _ => reply_with "Nothing else to test."
       end;
     Agent.driver :=
       match n with
       | 1%nat => Throw "page.click: Timeout 5000ms exceeded."
       | _ => Return tt
       end;
     Agent.logged_at := 1760349600000 + 2000 * Z.of_nat n;
     Agent.pause := Return tt |}.


(** The visit of [sample_turns]. *)
Definition sample_visit : Agent.Visit :=
  {| Agent.has_viewport := true; Agent.set_viewport := Return tt;
     Agent.goto := Return tt; Agent.turns := sample_turns;
     Agent.failed_at := 0; Agent.failed_url := "" |}.


(** The whole visit: the failed click is the first entry, the loop went
    on to the next decision, and no error entry was added. *)
Example testWebsite_sample :
  map (fun entry => (Agent.entry_action entry,
                     r_success (Agent.entry_result entry)))
      (Agent.testWebsite
         {| Agent.has_viewport := true; Agent.set_viewport := Return tt;
            Agent.goto := Return tt; Agent.turns := sample_turns;
            Agent.failed_at := 0; Agent.failed_url := "" |})
  = [ (click_object, false);
      (Agent.completeWith "Could not parse action from response", true) ].
Proof. vm_compute. reflexivity. Qed.

(** * Further properties of the modelled code *)

(** ** The report builder: issues, pages, numbering and counts *)

Definition failed (log : ActionLog) : bool := negb (r_success (result log)).

Lemma pushIssues_app (actionLogs : list ActionLog) :
  forall issues,
    ReportService.pushIssues issues actionLogs
    = issues ++ map ReportService.issueOf (List.filter failed actionLogs).
Proof.
  induction actionLogs as [| log rest IH]; intros issues; simpl.
  - rewrite app_nil_r. reflexivity.
  - unfold failed at 1. destruct (negb (r_success (result log))); simpl.
    + rewrite IH, <- app_assoc. reflexivity.
    + apply IH.
Qed.

(** The issues section lists, in the order of the log, one issue for each
    entry whose success flag is false and none for the others; the issue
    carries the entry's timestamp and page URL, and its message shows the
    result's error text when there is one and the result's message
    otherwise. *)
Theorem issues_follow_failed_entries :
  forall (isoNow : string) (recording : option string) (testId : string)
         (actionLogs : list ActionLog) (sid : string),
    let report :=
      ReportService.buildReport isoNow recording testId actionLogs sid in
    map issue_timestamp (issues report)
    = map timestamp (List.filter failed actionLogs)
    /\ map page (issues report)
       = map (fun log => c_url (context log)) (List.filter failed actionLogs)
    /\ map message (issues report)
       = map (fun log =>
                ("Failed to " ++ a_action (action log) ++ ": "
                 ++ match r_error (result log) with
                    | Some e => if String.eqb e "" then r_message (result log)
                                else e
                    | None => r_message (result log)
                    end)%string)
             (List.filter failed actionLogs)
    /\ Forall (fun issue => severity issue = "error"
                            /\ type issue = "action_failed") (issues report).
Proof.
  intros isoNow recording testId actionLogs sid report.
  subst report. cbn [issues ReportService.buildReport].
  unfold ReportService.issuesOf. rewrite pushIssues_app. cbn [app].
  rewrite !map_map. repeat split.
  - apply map_ext. intros log. cbn.
    unfold or_else, truthy.
    destruct (r_error (result log)) as [e |]; [| reflexivity].
    destruct (String.eqb e ""); reflexivity.
  - apply Forall_forall. intros issue Hin.
    apply list_elem_of_In, in_map_iff in Hin.
    destruct Hin as [log [<- _]]. split; reflexivity.
Qed.

Lemma uniq_spec (xs : list string) :
  forall seen,
    NoDup (ReportService.uniq seen xs)
    /\ (forall x, In x (ReportService.uniq seen xs)
                  <-> In x xs /\ ~ In x seen).
Proof.
  induction xs as [| y rest IH]; intros seen; simpl.
  - split; [constructor | intros x; tauto].
  - destruct (existsb (String.eqb y) seen) eqn:Hseen.
    + destruct (IH seen) as [Hnodup Hin]. split; [exact Hnodup |].
      intros x. rewrite Hin. split; [tauto |].
      intros [[-> | Hx] Hnot]; [| tauto].
      exfalso. apply Hnot. apply existsb_exists in Hseen.
      destruct Hseen as [z [Hz Heq]]. apply String.eqb_eq in Heq.
      subst z. exact Hz.
    + destruct (IH (y :: seen)) as [Hnodup Hin].
      assert (Hy : ~ In y seen).
      { intros Hy. apply Bool.not_true_iff_false in Hseen. apply Hseen.
        apply existsb_exists. exists y. split; [exact Hy |].
        apply String.eqb_refl. }
      split.
      * constructor; [| exact Hnodup].
        rewrite list_elem_of_In, Hin. simpl. tauto.
      * intros x. simpl. rewrite Hin. simpl. split.
        -- intros [-> | [Hx Hnot]]; [tauto | tauto].
        -- intros [[-> | Hx] Hnot]; [tauto |].
           destruct (string_dec y x) as [-> | Hne]; [tauto |].
           right. split; [exact Hx | tauto].
Qed.

(** The pages-visited list holds every non-empty page URL that occurs in
    the log, each exactly once, and nothing else. *)
Theorem pagesVisited_distinct_urls :
  forall (isoNow : string) (recording : option string) (testId : string)
         (actionLogs : list ActionLog) (sid : string),
    let report :=
      ReportService.buildReport isoNow recording testId actionLogs sid in
    NoDup (pagesVisited report)
    /\ (forall u, In u (pagesVisited report)
                  <-> u <> "" /\ exists log, In log actionLogs
                                             /\ c_url (context log) = u).
Proof.
  intros isoNow recording testId actionLogs sid report. subst report.
  cbn [pagesVisited ReportService.buildReport].
  unfold ReportService.pagesVisitedOf.
  destruct (uniq_spec
              (List.filter truthy
                 (map (fun log => c_url (context log)) actionLogs)) [])
    as [Hnodup Hin].
  split; [exact Hnodup |].
  intros u. rewrite Hin, filter_In, in_map_iff. unfold truthy.
  rewrite negb_true_iff, String.eqb_neq. simpl. split.
  - intros [[[log [Hurl Hlog]] Hne] _]. split; [exact Hne |].
    exists log. split; [exact Hlog | exact Hurl].
  - intros [Hne [log [Hlog Hurl]]]. split; [| tauto].
    split; [| exact Hne]. exists log. split; [exact Hurl | exact Hlog].
Qed.

Lemma pagesVisited_distinct_urls_witness :
  In "https://example.com/"
    (pagesVisited
       (ReportService.buildReport "2025-10-13T10:00:20.000Z" None "run-1"
          sample_logs "sess-1")).
Proof.
  apply (proj2 (pagesVisited_distinct_urls "2025-10-13T10:00:20.000Z" None
                  "run-1" sample_logs "sess-1")).
  split; [discriminate |].
  eexists. split; [left; reflexivity | reflexivity].
Defined.

Lemma mapi_from_length {A B} (f : nat -> A -> B) (xs : list A) :
  forall i, length (ReportService.mapi_from i f xs) = length xs.
Proof.
  induction xs as [| x rest IH]; intros i; simpl; [| rewrite IH];
    reflexivity.
Qed.

Lemma mapi_from_steps {A B} (step : B -> nat) (f : nat -> A -> B)
    (xs : list A) :
  (forall i x, step (f i x) = (i + 1)%nat) ->
  forall i, map step (ReportService.mapi_from i f xs)
            = seq (i + 1) (length xs).
Proof.
  intros Hstep. induction xs as [| x rest IH]; intros i; simpl.
  - reflexivity.
  - rewrite Hstep, IH. replace (S i + 1)%nat with (S (i + 1)) by lia.
    reflexivity.
Qed.

Lemma mapi_from_map {A B C} (g : B -> C) (h : A -> C) (f : nat -> A -> B)
    (xs : list A) :
  (forall i x, g (f i x) = h x) ->
  forall i, map g (ReportService.mapi_from i f xs) = map h xs.
Proof.
  intros Hg. induction xs as [| x rest IH]; intros i; simpl.
  - reflexivity.
  - rewrite Hg, IH. reflexivity.
Qed.

Lemma uniq_length (xs : list string) :
  forall seen, (length (ReportService.uniq seen xs) <= length xs)%nat.
Proof.
  induction xs as [| x rest IH]; intros seen; simpl; [lia |].
  destruct (existsb (String.eqb x) seen); simpl.
  - specialize (IH seen). lia.
  - specialize (IH (x :: seen)). lia.
Qed.

Lemma countFailed_countSucceeded (actionLogs : list ActionLog) :
  (countFailed actionLogs + countSucceeded actionLogs)%nat
  = length actionLogs.
Proof.
  induction actionLogs as [| log rest IH]; simpl; [reflexivity |].
  destruct (r_success (result log)); simpl; lia.
Qed.

(** The navigation path and the actions timeline are numbered 1, 2, 3, ...
    without gaps; the timeline has one entry per log entry and the
    navigation path one entry per log entry with a non-empty page URL. *)
Theorem report_steps_are_consecutive :
  forall (isoNow : string) (recording : option string) (testId : string)
         (actionLogs : list ActionLog) (sid : string),
    let report :=
      ReportService.buildReport isoNow recording testId actionLogs sid in
    map nav_step (navigationPath report)
    = seq 1 (length (navigationPath report))
    /\ map tl_step (actionsTimeline report) = seq 1 (length actionLogs)
    /\ length (actionsTimeline report) = length actionLogs
    /\ length (navigationPath report)
       = length (List.filter (fun log => negb (String.eqb (c_url (context log)) ""))
                   actionLogs)
    /\ map tl_timestamp (actionsTimeline report) = map timestamp actionLogs.
Proof.
  intros isoNow recording testId actionLogs sid report. subst report.
  cbn [navigationPath actionsTimeline ReportService.buildReport].
  unfold ReportService.navigationPathOf, ReportService.actionsTimelineOf,
    ReportService.mapi.
  rewrite !mapi_from_length. repeat split.
  - apply (mapi_from_steps nav_step). reflexivity.
  - apply (mapi_from_steps tl_step). reflexivity.
  - apply (mapi_from_map tl_timestamp timestamp). reflexivity.
Qed.

(** The counts of the summary fit together: the distinct pages are at most
    as many as the navigation steps, which are at most as many as the
    actions; every action is either counted as an issue or is one of the
    successful ones. *)
Theorem summary_counts_are_consistent :
  forall (isoNow : string) (recording : option string) (testId : string)
         (actionLogs : list ActionLog) (sid : string),
    let report :=
      ReportService.buildReport isoNow recording testId actionLogs sid in
    (s_pagesVisited (summary report) <= length (navigationPath report))%nat
    /\ (length (navigationPath report) <= actionsPerformed (summary report))%nat
    /\ (issuesFound (summary report) + countSucceeded actionLogs)%nat
       = actionsPerformed (summary report)
    /\ s_pagesVisited (summary report) = length (pagesVisited report)
    /\ issuesFound (summary report) = length (issues report)
    /\ actionsPerformed (summary report) = length (actionsTimeline report).
Proof.
  intros isoNow recording testId actionLogs sid report. subst report.
  cbn [summary navigationPath pagesVisited issues actionsTimeline
       s_pagesVisited actionsPerformed issuesFound
       ReportService.buildReport].
  unfold ReportService.navigationPathOf, ReportService.actionsTimelineOf,
    ReportService.mapi, ReportService.pagesVisitedOf,
    ReportService.issuesOf.
  rewrite !mapi_from_length, pushIssues_length.
  repeat split.
  - etransitivity; [apply uniq_length |].
    induction actionLogs as [| log rest IH]; simpl; [lia |].
    destruct (truthy (c_url (context log))); simpl; lia.
  - induction actionLogs as [| log rest IH]; simpl; [lia |].
    destruct (truthy (c_url (context log))); simpl; lia.
  - simpl. apply countFailed_countSucceeded.
Qed.

(** ** The report builder: the success rate and its rendering *)

(** The success rate lies between 0 and 100; for a non-empty log it is
    100 when no entry failed and 0 when every entry failed, and for a log
    that fits in a JS array (fewer than [2^32] entries) only then. *)
Theorem successRate_bounds :
  forall (isoNow : string) (recording : option string) (testId : string)
         (actionLogs : list ActionLog) (sid : string),
    let report :=
      ReportService.buildReport isoNow recording testId actionLogs sid in
    (0 <= successRate (performanceMetrics report))%Q
    /\ (successRate (performanceMetrics report) <= 100)%Q
    /\ (actionLogs <> [] ->
        (issuesFound (summary report) = 0%nat ->
         (successRate (performanceMetrics report) == 100)%Q)
        /\ (issuesFound (summary report) = length actionLogs ->
            (successRate (performanceMetrics report) == 0)%Q)
        /\ ((Z.of_nat (length actionLogs) < 2 ^ 32)%Z ->
            ((successRate (performanceMetrics report) == 100)%Q
             <-> issuesFound (summary report) = 0%nat)
            /\ ((successRate (performanceMetrics report) == 0)%Q
                <-> issuesFound (summary report) = length actionLogs))).
Proof.
  intros isoNow recording testId actionLogs sid report. subst report.
  cbn [performanceMetrics successRate summary issuesFound
       ReportService.buildReport].
  unfold ReportService.issuesOf. rewrite pushIssues_length. simpl length.
  rewrite successRateOf_counts.
  destruct actionLogs as [| first rest].
  - split; [| split]; [discriminate | discriminate | congruence].
  - pose proof (countSucceeded_le (first :: rest)) as Hle.
    pose proof (countFailed_countSucceeded (first :: rest)) as Hsum.
    assert (Hpos : (0 < length (first :: rest))%nat) by (simpl; lia).
    destruct (RateFacts.rateOf_bounds _ _ Hle Hpos) as [Hlow Hhigh].
    assert (Hnone : countFailed (first :: rest) = 0%nat ->
                    (rateOf (countSucceeded (first :: rest))
                       (length (first :: rest)) == 100)%Q).
    { intros Hzero.
      replace (countSucceeded (first :: rest)) with (length (first :: rest))
        by lia.
      rewrite (RateFacts.rateOf_all _ Hpos). reflexivity. }
    assert (Hall : countFailed (first :: rest) = length (first :: rest) ->
                   (rateOf (countSucceeded (first :: rest))
                      (length (first :: rest)) == 0)%Q).
    { intros Hevery.
      replace (countSucceeded (first :: rest)) with 0%nat by lia.
      rewrite RateFacts.rateOf_none. reflexivity. }
    split; [exact Hlow |]. split; [exact Hhigh |]. intros _.
    split; [exact Hnone |]. split; [exact Hall |]. intros Hfits.
    split; (split; [| assumption]).
    + intros Hfull.
      destruct (Nat.eq_dec (countFailed (first :: rest)) 0) as [Hzero | Hsome];
        [exact Hzero | exfalso].
      pose proof (RateFacts.rateOf_below (countSucceeded (first :: rest))
                    (length (first :: rest)) ltac:(lia) ltac:(lia)) as Hbelow.
      lra.
    + intros Hempty.
      destruct (Nat.eq_dec (countSucceeded (first :: rest)) 0)
        as [Hzero | Hsome]; [lia | exfalso].
      pose proof (RateFacts.rateOf_above (countSucceeded (first :: rest))
                    (length (first :: rest)) ltac:(lia) Hle ltac:(lia))
        as Habove.
      lra.
Qed.

Lemma successRate_bounds_witness :
  (successRate (performanceMetrics (sample_report "t")) == 0)%Q
  <-> issuesFound (summary (sample_report "t")) = length sample_logs.
Proof.
  apply (successRate_bounds "t" (Some "https://browserbase.com/sessions/sess-1")
           "run-1" sample_logs "sess-1").
  - discriminate.
  - reflexivity.
Defined.

(** What the summary shows as the success rate at the two ends: '100.00%'
    when the log is not empty and no entry failed, '0.00%' when the log is
    empty or every entry failed. *)
Theorem successRate_rendering :
  forall (isoNow : string) (recording : option string) (testId : string)
         (actionLogs : list ActionLog) (sid : string),
    let report :=
      ReportService.buildReport isoNow recording testId actionLogs sid in
    (actionLogs <> [] -> countFailed actionLogs = 0%nat ->
       s_successRate (summary report) = "100.00%")
    /\ (countFailed actionLogs = length actionLogs ->
          s_successRate (summary report) = "0.00%").
Proof.
  intros isoNow recording testId actionLogs sid report. subst report.
  cbn [summary s_successRate performanceMetrics successRate
       ReportService.buildReport].
  rewrite successRateOf_counts.
  destruct actionLogs as [| first rest].
  - split; [congruence | intros _; vm_compute; reflexivity].
  - pose proof (countFailed_countSucceeded (first :: rest)) as Hsum.
    assert (Hpos : (0 < length (first :: rest))%nat) by (simpl; lia).
    split.
    + intros _ Hnone.
      replace (countSucceeded (first :: rest)) with (length (first :: rest))
        by lia.
      rewrite (RateFacts.rateOf_all _ Hpos). vm_compute. reflexivity.
    + intros Hall.
      replace (countSucceeded (first :: rest)) with 0%nat by lia.
      rewrite RateFacts.rateOf_none. vm_compute. reflexivity.
Qed.

Lemma successRate_rendering_witness :
  s_successRate
    (summary (ReportService.buildReport "t" None "run-1"
                (firstn 1 sample_logs) "sess-1"))
  = "100.00%".
Proof.
  apply (successRate_rendering "t" None "run-1" (firstn 1 sample_logs)
           "sess-1").
  - discriminate.
  - reflexivity.
Defined.

(** ** The report builder and the store *)

Lemma latest_newest (rows : list Db.ReportRow) (new : Db.ReportRow) :
  forall best,
    (forall r, In r rows ->
       String.ltb (Db.report_created_at r) (Db.report_created_at new) = true) ->
    (forall b, best = Some b ->
       String.ltb (Db.report_created_at b) (Db.report_created_at new) = true) ->
    Db.latest (rows ++ [new]) best = Some new.
Proof.
  induction rows as [| r rest IH]; intros best Hrows Hbest.
  - simpl. destruct best as [b |]; [| reflexivity].
    rewrite (Hbest b eq_refl). reflexivity.
  - simpl. destruct best as [b |].
    + destruct (String.ltb (Db.report_created_at b) (Db.report_created_at r)).
      * apply IH.
        -- intros r' Hr'. apply Hrows. right. exact Hr'.
        -- intros b' Hb'. inversion Hb'; subst. apply Hrows. left.
           reflexivity.
      * apply IH.
        -- intros r' Hr'. apply Hrows. right. exact Hr'.
        -- exact Hbest.
    + apply IH.
      * intros r' Hr'. apply Hrows. right. exact Hr'.
      * intros b' Hb'. inversion Hb'; subst. apply Hrows. left. reflexivity.
Qed.

(** [generateReport] fails exactly when the run has no row in [tests], and
    then leaves the store as it was; otherwise it adds one row to [reports]
    and nothing else: the row holds the returned report, the recording URL
    and the three counts of the summary, and the [tests] table and the
    earlier reports are unchanged. *)
Theorem generateReport_persists_one_row :
  forall (isoNow dbNow : string)
         (retrieve : nat -> outcome Browserbase.SessionInfo)
         (testId : string) (actionLogs : list ActionLog) (sid : string)
         (st : Db.Store),
    match ReportService.generateReport isoNow dbNow retrieve testId
            actionLogs sid st with
    | Throw msg =>
        Db.tests st !! testId = None
        /\ msg = "Report generation failed: FOREIGN KEY constraint failed"
    | Return (report, st') =>
        is_Some (Db.tests st !! testId)
        /\ Db.tests st' = Db.tests st
        /\ exists row,
             Db.reports st' = Db.reports st ++ [row]
             /\ Db.test_id row = testId
             /\ Db.data row = report
             /\ Db.browserbase_recording_url row = recordingUrl report
             /\ Db.issues_count row = countFailed actionLogs
             /\ Db.actions_count row = length actionLogs
             /\ Db.pages_visited row = length (pagesVisited report)
             /\ Db.report_created_at row = dbNow
    end.
Proof.
  intros isoNow dbNow retrieve testId actionLogs sid st.
  unfold ReportService.generateReport, Db.createReport.
  destruct (Db.tests st !! testId) as [row |]; [| split; reflexivity].
  split; [eauto |]. split; [reflexivity |].
  eexists. split; [reflexivity |]. cbn.
  unfold ReportService.issuesOf. rewrite pushIssues_length.
  repeat split.
Qed.

(** Reading back: once [generateReport] has returned, [getTestReport]
    yields the report it returned, provided the run's earlier reports, if
    any, were created at an earlier store time. *)
Theorem generated_report_is_read_back :
  forall (isoNow dbNow : string)
         (retrieve : nat -> outcome Browserbase.SessionInfo)
         (testId : string) (actionLogs : list ActionLog) (sid : string)
         (st st' : Db.Store) (report : Report),
    ReportService.generateReport isoNow dbNow retrieve testId actionLogs sid st
    = Return (report, st') ->
    (forall r, In r (Db.reports st) -> Db.test_id r = testId ->
       String.ltb (Db.report_created_at r) dbNow = true) ->
    ReportService.getTestReport testId st' = Some report.
Proof.
  intros isoNow dbNow retrieve testId actionLogs sid st st' report Hgen Hold.
  unfold ReportService.generateReport, Db.createReport in Hgen.
  destruct (Db.tests st !! testId) as [row |]; [| discriminate].
  inversion Hgen; subst. clear Hgen.
  unfold ReportService.getTestReport, Db.getReport.
  cbn [Db.reports]. rewrite List.filter_app. cbn [List.filter Db.test_id].
  rewrite String.eqb_refl.
  rewrite latest_newest; [reflexivity | | discriminate].
  intros r Hr. apply filter_In in Hr. destruct Hr as [Hin Hid].
  apply String.eqb_eq in Hid. cbn [Db.report_created_at].
  apply (Hold r Hin Hid).
Qed.

Lemma generated_report_is_read_back_witness :
  ReportService.getTestReport "run-1"
    (sample_store_after "2025-10-13T10:00:10.000Z" "2025-10-13 10:00:10"
       sample_store)
  = Some (sample_report "2025-10-13T10:00:10.000Z").
Proof.
  apply (generated_report_is_read_back
           "2025-10-13T10:00:10.000Z" "2025-10-13 10:00:10"
           completed_session "run-1" sample_logs "sess-1" sample_store).
  - vm_compute. reflexivity.
  - intros r [].
Defined.

(** ** The tests table *)

(** Insert then look up: [createTest] on an id that has no row yields a
    table in which [getTest] finds a 'pending' row with the given URL and
    session id and no start time, end time or error, and every other id
    reads as before; on an id that already has a row it throws and no
    table is produced. *)
Theorem createTest_then_getTest :
  forall (now testId url : string) (sid : option string)
         (db : gmap string Db.TestRow),
    match Db.createTest now testId url sid db with
    | Return db' =>
        Db.getTest testId db = None
        /\ Db.getTest testId db'
           = Some {| Db.url := url; Db.status := "pending";
                     Db.created_at := now; Db.started_at := None;
                     Db.completed_at := None;
                     Db.browserbase_session_id := sid; Db.error := None |}
        /\ (forall other, other <> testId ->
              Db.getTest other db' = Db.getTest other db)
        /\ size db' = S (size db)
    | Throw msg =>
        is_Some (Db.getTest testId db)
        /\ msg = "UNIQUE constraint failed: tests.id"
    end.
Proof.
  intros now testId url sid db. unfold Db.createTest, Db.getTest.
  destruct (db !! testId) as [row |] eqn:Hrow.
  - split; [eauto | reflexivity].
  - split; [reflexivity |]. split; [apply lookup_insert_eq |].
    split.
    + intros other Hne. apply lookup_insert_ne. congruence.
    + apply map_size_insert_None. exact Hrow.
Qed.

(** No status update ever adds or removes a run, and none touches the
    identifying columns of a row: whatever status and error are written,
    the table has the same ids afterwards, and each row keeps its URL, its
    creation time and its session id.  On an id without a row the update
    changes nothing at all. *)
Theorem updateTestStatus_keeps_identity :
  forall (now testId status : string) (error : option string)
         (db : gmap string Db.TestRow),
    dom (Db.updateTestStatus now testId status error db) = dom db
    /\ (forall id row,
          db !! id = Some row ->
          exists row',
            Db.updateTestStatus now testId status error db !! id = Some row'
            /\ Db.url row' = Db.url row
            /\ Db.created_at row' = Db.created_at row
            /\ Db.browserbase_session_id row' = Db.browserbase_session_id row)
    /\ (db !! testId = None ->
          Db.updateTestStatus now testId status error db = db).
Proof.
  intros now testId status error db.
  assert (Hform : exists f,
             Db.updateTestStatus now testId status error db = alter f testId db
             /\ (forall row, Db.url (f row) = Db.url row
                             /\ Db.created_at (f row) = Db.created_at row
                             /\ Db.browserbase_session_id (f row)
                                = Db.browserbase_session_id row)).
  { unfold Db.updateTestStatus.
    destruct (String.eqb status "running");
      [| destruct (String.eqb status "completed" || String.eqb status "failed")];
      eexists; (split; [reflexivity | intros row; repeat split]). }
  destruct Hform as [f [-> Hf]]. split; [| split].
  - apply dom_alter_L.
  - intros id row Hrow. destruct (decide (id = testId)) as [-> | Hne].
    + exists (f row). rewrite lookup_alter_eq, Hrow. split; [reflexivity |].
      apply Hf.
    + exists row. rewrite lookup_alter_ne by congruence.
      split; [exact Hrow | repeat split].
  - intros Hnone. apply map_eq. intros id.
    destruct (decide (id = testId)) as [-> | Hne].
    + rewrite lookup_alter_eq, Hnone. reflexivity.
    + apply lookup_alter_ne. congruence.
Qed.

Lemma updateTestStatus_keeps_identity_witness :
  exists row',
    Db.updateTestStatus "2025-10-13 10:00:09" "run-1" "failed" (Some "boom")
      (<["run-1" := sample_row]> ∅) !! "run-1" = Some row'
    /\ Db.url row' = Db.url sample_row
    /\ Db.created_at row' = Db.created_at sample_row
    /\ Db.browserbase_session_id row' = Db.browserbase_session_id sample_row.
Proof.
  apply (updateTestStatus_keeps_identity "2025-10-13 10:00:09" "run-1" "failed"
           (Some "boom") (<["run-1" := sample_row]> ∅)).
  reflexivity.
Defined.

(** The start time is written by the update to 'running' only and the end
    time by the updates to 'completed' and 'failed' only; an update to
    'completed' or 'failed' also replaces the stored error by its error
    argument, so completing a run without an error argument clears an
    error stored before. *)
Theorem updateTestStatus_timestamps :
  forall (now testId status : string) (error : option string)
         (db : gmap string Db.TestRow) (row : Db.TestRow),
    db !! testId = Some row ->
    exists row',
      Db.updateTestStatus now testId status error db !! testId = Some row'
      /\ Db.status row' = status
      /\ Db.started_at row'
         = (if String.eqb status "running" then Some now
            else Db.started_at row)
      /\ Db.completed_at row'
         = (if String.eqb status "completed" || String.eqb status "failed"
            then Some now else Db.completed_at row)
      /\ Db.error row'
         = (if String.eqb status "completed" || String.eqb status "failed"
            then error else Db.error row).
Proof.
  intros now testId status error db row Hrow. unfold Db.updateTestStatus.
  destruct (String.eqb status "running") eqn:Hrunning.
  - apply String.eqb_eq in Hrunning. subst status.
    eexists. rewrite lookup_alter_eq, Hrow. split; [reflexivity |].
    repeat split.
  - destruct (String.eqb status "completed" || String.eqb status "failed");
      eexists; rewrite lookup_alter_eq, Hrow;
      (split; [reflexivity | repeat split]).
Qed.

Lemma updateTestStatus_timestamps_witness :
  exists row',
    Db.updateTestStatus "2025-10-13 10:00:09" "run-1" "completed" None
      (<["run-1" := Db.set_finished "2025-10-13 10:00:05" "failed"
                      (Some "boom") sample_row]> ∅) !! "run-1" = Some row'
    /\ Db.status row' = "completed"
    /\ Db.completed_at row' = Some "2025-10-13 10:00:09"
    /\ Db.error row' = None.
Proof.
  destruct (updateTestStatus_timestamps "2025-10-13 10:00:09" "run-1"
              "completed" None
              (<["run-1" := Db.set_finished "2025-10-13 10:00:05" "failed"
                              (Some "boom") sample_row]> ∅)
              (Db.set_finished "2025-10-13 10:00:05" "failed" (Some "boom")
                 sample_row))
    as (row' & Hrow & Hstatus & _ & Hcompleted & Herror).
  - reflexivity.
  - exists row'. split; [exact Hrow |]. split; [exact Hstatus |].
    split; [exact Hcompleted | exact Herror].
Defined.

(** ** services/browserbase-service.js: connecting the driver *)

(** What one pass of the retry loop of [connectPlaywright] meets:
    [retrieved] is how [browserbase.sessions.retrieve] goes, reduced to the
    value of [session.connectUrl || session.debuggerUrl || session.debugUrl]
    ([None] when all three are falsy); [connected] is how the rest of the
    [try] block goes ([chromium.connectOverCDP], taking or creating the
    context and the page), with the connection it returns. *)
Record ConnectAttempt (C : Type) : Type := mkConnectAttempt {
  retrieved : outcome (option string);
  connected : outcome C
}.
Arguments retrieved {C} _.
Arguments connected {C} _.

(** The [for] loop of [connectPlaywright]: [attempt] runs up to
    [maxRetries], [remaining] counts the passes still allowed.  Falling out
    of the loop makes the function return [undefined], written [None]. *)
Fixpoint connectPlaywright_loop {C : Type} (attempts : nat -> ConnectAttempt C)
    (maxRetries remaining attempt : nat) : outcome (option C) :=
  match remaining with
  | O => Return None
  | S remaining' =>
      let tried :=
        do connectUrl <- retrieved (attempts attempt);
        match or_null connectUrl with
        | None =>
            if (attempt <? maxRetries)%nat then Return None
            else Throw "Session connect URL not available after retries"
        | Some _ =>
            do connection <- connected (attempts attempt);
            Return (Some connection)
        end in
      match tried with
      | Return (Some connection) => Return (Some connection)
      | Return None =>
          (* continue *)
          connectPlaywright_loop attempts maxRetries remaining' (S attempt)
      | Throw msg =>
          if (attempt =? maxRetries)%nat
          then Throw ("Failed to connect Playwright: " ++ msg)
          else connectPlaywright_loop attempts maxRetries remaining' (S attempt)
      end
  end.

(** [connectPlaywright(sessionId)], with [maxRetries = 20]. *)
Definition connectPlaywright {C : Type} (attempts : nat -> ConnectAttempt C)
  : outcome (option C) :=
  connectPlaywright_loop attempts 20 20 1.

(** An attempt succeeds when the session shows a connect URL and the
    connection over it is made. *)
Definition attempt_succeeds {C : Type} (a : ConnectAttempt C) : option C :=
  match retrieved a with
  | Return connectUrl =>
      match or_null connectUrl, connected a with
      | Some _, Return connection => Some connection
      | _, _ => None
      end
  | Throw _ => None
  end.

(** The message a failed attempt leaves when it is the last one. *)
Definition attempt_failure {C : Type} (a : ConnectAttempt C) : string :=
  match retrieved a with
  | Throw msg => msg
  | Return connectUrl =>
      match or_null connectUrl, connected a with
      | Some _, Throw msg => msg
      | _, _ => "Session connect URL not available after retries"
      end
  end.

Lemma connectPlaywright_loop_spec {C : Type}
    (attempts : nat -> ConnectAttempt C) (maxRetries : nat) :
  forall remaining attempt,
    (attempt + remaining = S maxRetries)%nat ->
    (1 <= remaining)%nat ->
    (forall k connection,
        (attempt <= k <= maxRetries)%nat ->
        attempt_succeeds (attempts k) = Some connection ->
        (forall j, (attempt <= j < k)%nat ->
                   attempt_succeeds (attempts j) = None) ->
        connectPlaywright_loop attempts maxRetries remaining attempt
        = Return (Some connection))
    /\ ((forall j, (attempt <= j <= maxRetries)%nat ->
                   attempt_succeeds (attempts j) = None) ->
        connectPlaywright_loop attempts maxRetries remaining attempt
        = Throw ("Failed to connect Playwright: "
                 ++ attempt_failure (attempts maxRetries))).
Proof.
  induction remaining as [| remaining' IH]; intros attempt Hsum Hpos;
    [lia |].
  assert (Hstep :
    forall connection,
      attempt_succeeds (attempts attempt) = Some connection ->
      connectPlaywright_loop attempts maxRetries (S remaining') attempt
      = Return (Some connection)).
  { intros connection Hok. cbn [connectPlaywright_loop].
    unfold attempt_succeeds in Hok.
    destruct (retrieved (attempts attempt)) as [connectUrl | msg];
      [| discriminate]. cbn [bind].
    destruct (or_null connectUrl); [| discriminate].
    destruct (connected (attempts attempt)); [| discriminate].
    inversion Hok. reflexivity. }
  assert (Hnext :
    attempt_succeeds (attempts attempt) = None ->
    (attempt < maxRetries)%nat ->
    connectPlaywright_loop attempts maxRetries (S remaining') attempt
    = connectPlaywright_loop attempts maxRetries remaining' (S attempt)).
  { intros Hfail Hlt. cbn [connectPlaywright_loop].
    assert (Hltb : (attempt <? maxRetries)%nat = true)
      by (apply Nat.ltb_lt; exact Hlt).
    assert (Heqb : (attempt =? maxRetries)%nat = false)
      by (apply Nat.eqb_neq; lia).
    unfold attempt_succeeds in Hfail.
    destruct (retrieved (attempts attempt)) as [connectUrl | msg];
      cbn [bind]; [| rewrite Heqb; reflexivity].
    destruct (or_null connectUrl); [| rewrite Hltb; reflexivity].
    destruct (connected (attempts attempt)); [discriminate |].
    cbn [bind]. rewrite Heqb. reflexivity. }
  assert (Hlast :
    attempt_succeeds (attempts attempt) = None ->
    attempt = maxRetries ->
    connectPlaywright_loop attempts maxRetries (S remaining') attempt
    = Throw ("Failed to connect Playwright: "
             ++ attempt_failure (attempts maxRetries))).
  { intros Hfail ->. cbn [connectPlaywright_loop].
    rewrite Nat.ltb_irrefl, Nat.eqb_refl.
    unfold attempt_succeeds in Hfail. unfold attempt_failure.
    destruct (retrieved (attempts maxRetries)) as [connectUrl | msg];
      cbn [bind]; [| reflexivity].
    destruct (or_null connectUrl); [| reflexivity].
    destruct (connected (attempts maxRetries)); [discriminate |].
    reflexivity. }
  split.
  - intros k connection Hk Hok Hbefore.
    destruct (Nat.eq_dec k attempt) as [-> | Hne]; [apply Hstep; exact Hok |].
    rewrite Hnext; [| apply Hbefore; lia | lia].
    apply (proj1 (IH (S attempt) ltac:(lia) ltac:(lia)) k connection);
      [lia | exact Hok |].
    intros j Hj. apply Hbefore. lia.
  - intros Hall.
    destruct (Nat.eq_dec attempt maxRetries) as [Heq | Hne].
    + apply Hlast; [apply Hall; lia | exact Heq].
    + rewrite Hnext; [| apply Hall; lia | lia].
      apply (proj2 (IH (S attempt) ltac:(lia) ltac:(lia))).
      intros j Hj. apply Hall. lia.
Qed.

(** [connectPlaywright] makes at most twenty attempts.  It returns the
    connection of the first attempt that finds a connect URL and connects,
    without regard to what later attempts would have met; when none of the
    twenty does, it throws 'Failed to connect Playwright: ' followed by the
    failure of the twentieth attempt, which is 'Session connect URL not
    available after retries' when that attempt found no URL.  It never
    falls out of its loop. *)
Theorem connectPlaywright_retries :
  forall (C : Type) (attempts : nat -> ConnectAttempt C),
    (forall k connection,
        (1 <= k <= 20)%nat ->
        attempt_succeeds (attempts k) = Some connection ->
        (forall j, (1 <= j < k)%nat -> attempt_succeeds (attempts j) = None) ->
        connectPlaywright attempts = Return (Some connection))
    /\ ((forall j, (1 <= j <= 20)%nat ->
                   attempt_succeeds (attempts j) = None) ->
        connectPlaywright attempts
        = Throw ("Failed to connect Playwright: "
                 ++ attempt_failure (attempts 20%nat)))
    /\ connectPlaywright attempts <> Return None.
Proof.
  intros C attempts.
  destruct (connectPlaywright_loop_spec attempts 20 20 1 eq_refl
              ltac:(lia)) as [Hfirst Hnone].
  split; [exact Hfirst |]. split; [exact Hnone |].
  assert (Hdec : forall n,
             (exists k connection,
                 (1 <= k <= n)%nat
                 /\ attempt_succeeds (attempts k) = Some connection
                 /\ forall j, (1 <= j < k)%nat ->
                              attempt_succeeds (attempts j) = None)
             \/ forall j, (1 <= j <= n)%nat ->
                          attempt_succeeds (attempts j) = None).
  { induction n as [| n IHn].
    - right. intros j Hj. lia.
    - destruct IHn as [(k & connection & Hk & Hok & Hbefore) | Hall].
      + left. exists k, connection. split; [lia |]. split; assumption.
      + destruct (attempt_succeeds (attempts (S n))) as [connection |] eqn:Hn.
        * left. exists (S n), connection. split; [lia |].
          split; [exact Hn |]. intros j Hj. apply Hall. lia.
        * right. intros j Hj.
          destruct (Nat.eq_dec j (S n)) as [-> | Hne];
            [exact Hn | apply Hall; lia]. }
  unfold connectPlaywright.
  destruct (Hdec 20%nat) as [(k & connection & Hk & Hok & Hbefore) | Hall].
  - rewrite (Hfirst k connection Hk Hok Hbefore). discriminate.
  - rewrite (Hnone Hall). discriminate.
Qed.

Definition no_url_yet : ConnectAttempt string :=
  {| retrieved := Return None; connected := Throw "not reached" |}.

Definition ready (connection : string) : ConnectAttempt string :=
  {| retrieved := Return (Some "wss://connect.browserbase.com/?session=1");
     connected := Return connection |}.

Lemma connectPlaywright_retries_witness :
  connectPlaywright
    (fun k => if (k <? 3)%nat then no_url_yet else ready "page-1")
  = Return (Some "page-1")
  /\ connectPlaywright (fun _ => no_url_yet)
     = Throw "Failed to connect Playwright: Session connect URL not available after retries".
Proof.
  split.
  - apply (proj1 (connectPlaywright_retries string
                    (fun k => if (k <? 3)%nat then no_url_yet
                              else ready "page-1")) 3%nat "page-1").
    + lia.
    + reflexivity.
    + intros j Hj. assert (Hcase : j = 1%nat \/ j = 2%nat) by lia.
      destruct Hcase as [-> | ->]; reflexivity.
  - apply (proj1 (proj2 (connectPlaywright_retries string
                           (fun _ => no_url_yet)))).
    intros j Hj. reflexivity.
Defined.

(** ** database/db.js: listing and deleting runs *)

From stdpp Require Import sorting.

(** [ORDER BY created_at DESC] on the rows of [tests], each taken with its
    id: a row comes before another when its creation time is not smaller
    (the column is TEXT and compares byte by byte). *)
Definition newer_first (a b : string * Db.TestRow) : Prop :=
  String.leb (Db.created_at (snd b)) (Db.created_at (snd a)) = true.

Definition newer_first_dec (a b : string * Db.TestRow)
  : Decision (newer_first a b) :=
  bool_eq_dec (String.leb (Db.created_at (snd b)) (Db.created_at (snd a))) true.

(** The rows that SELECT * FROM tests ORDER BY created_at DESC LIMIT ?
    yields for an integer limit.  A negative LIMIT means no limit.  Rows
    with equal creation times come in an order SQL leaves open; here it
    is the one the sort produces. *)
Definition selectNewest (limit : Z) (tests : gmap string Db.TestRow)
  : list (string * Db.TestRow) :=
  let sorted := @merge_sort _ newer_first newer_first_dec (map_to_list tests) in
  if (limit <? 0)%Z then sorted else firstn (Z.to_nat limit) sorted.

(** The integer that LIMIT takes from the number bound to it.  The
    driver binds a JS number as an integer or as a double; LIMIT accepts
    a double only if it is an integer strictly between [-2^63] and
    [2^63], and refuses NaN (bound as NULL), the infinities and every
    other number. *)
Definition limit_of (n : Number.number) : option Z :=
  match n with
  | Number.Finite value =>
      let q := Qred value in
      if (Zpos (Qden q) =? 1)%Z && (Z.abs (Qnum q) <? 2 ^ 63)%Z
      then Some (Qnum q) else None
  | _ => None
  end.

(** [getAllTests(limit = 50)]; a refused limit makes the statement
    throw. *)
Definition getAllTests (limit : Number.number) (tests : gmap string Db.TestRow)
  : outcome (list (string * Db.TestRow)) :=
  match limit_of limit with
  | Some n => Return (selectNewest n tests)
  | None => Throw "datatype mismatch"
  end.

(** [deleteTest]: DELETE FROM tests WHERE id = ?; with foreign keys on, the
    reports of the run go with it (ON DELETE CASCADE). *)
Definition deleteTest (testId : string) (st : Db.Store) : Db.Store :=
  {| Db.tests := delete testId (Db.tests st);
     Db.reports :=
       List.filter (fun r => negb (String.eqb (Db.test_id r) testId))
         (Db.reports st) |}.

(** The answer of [GET /list]: 200 with [{tests, count}], or 500 with
    [{error, message}]. *)
Inductive ListBody : Type :=
| Listed (tests : list (string * Db.TestRow)) (count : nat)
| ListFailed (error message : string).

Record ListResponse : Type := mkListResponse {
  list_code : nat;
  list_body : ListBody
}.

(** [GET /list]: [limit] is [parseInt(req.query.limit) || 50]; the
    handler answers 500 with the message of whatever its body throws. *)
Definition get_list (limitParam : option string) (s : Routes.Server)
  : ListResponse :=
  let limit :=
    Number.or_else
      (Agent.parseInt (match limitParam with
                       | Some text => text
                       | None => "undefined"
                       end))
      (Number.Finite 50) in
  match getAllTests limit (Routes.tests s) with
  | Return tests =>
      {| list_code := 200; list_body := Listed tests (length tests) |}
  | Throw msg =>
      {| list_code := 500;
         list_body := ListFailed "Failed to get tests" msg |}
  end.

(** [cleanupOnExit], up to the point where it closes the database: every
    run among the hundred newest whose status is 'running' or 'starting'
    is set to 'stopped' (ending its remote session is best-effort and
    leaves the store alone).  Were the query to throw, the outer [catch]
    would leave the table as it is. *)
Definition cleanupOnExit (now : string) (tests : gmap string Db.TestRow)
  : gmap string Db.TestRow :=
  match getAllTests (Number.Finite 100) tests with
  | Throw _ => tests
  | Return rows =>
      let runningTests :=
        List.filter (fun test => String.eqb (Db.status (snd test)) "running"
                                 || String.eqb (Db.status (snd test)) "starting")
          rows in
      fold_left (fun db test =>
                   Db.updateTestStatus now (fst test) "stopped"
                     (Some "Server shutdown") db)
        runningTests tests
  end.

Lemma newer_first_total : Total newer_first.
Proof.
  intros a b. unfold newer_first.
  destruct (String.leb_total (Db.created_at (snd b)) (Db.created_at (snd a)));
    [left | right]; assumption.
Qed.

Lemma Sorted_firstn {A} (R : relation A) (l : list A) :
  Sorted R l -> forall n, Sorted R (firstn n l).
Proof.
  induction 1 as [| x l Hsorted IH Hhd]; intros n.
  - destruct n; constructor.
  - destruct n as [| n]; [constructor |]. simpl. constructor; [apply IH |].
    destruct Hhd as [| y l' Hxy]; [destruct n; constructor |].
    destruct n; constructor. exact Hxy.
Qed.

Lemma selectNewest_full (limit : Z) (tests : gmap string Db.TestRow) :
  (limit < 0 \/ Z.of_nat (size tests) <= limit)%Z ->
  selectNewest limit tests ≡ₚ map_to_list tests.
Proof.
  intros Hlimit. unfold selectNewest.
  destruct (limit <? 0)%Z eqn:Hneg.
  - apply merge_sort_Permutation.
  - apply Z.ltb_ge in Hneg. rewrite firstn_all2.
    + apply merge_sort_Permutation.
    + rewrite (Permutation_length (merge_sort_Permutation _ _)).
      rewrite length_map_to_list. lia.
Qed.

Lemma selectNewest_sublist (limit : Z) (tests : gmap string Db.TestRow) :
  sublist (selectNewest limit tests)
    (@merge_sort _ newer_first newer_first_dec (map_to_list tests)).
Proof.
  unfold selectNewest. destruct (limit <? 0)%Z; [reflexivity |].
  apply sublist_take.
Qed.

Lemma selectNewest_stored (limit : Z) (tests : gmap string Db.TestRow)
    (id : string) (row : Db.TestRow) :
  In (id, row) (selectNewest limit tests) -> tests !! id = Some row.
Proof.
  intros Hin. apply elem_of_map_to_list.
  rewrite <- (merge_sort_Permutation newer_first (H := newer_first_dec)).
  apply (elem_of_sublist (selectNewest limit tests));
    [| apply selectNewest_sublist].
  apply list_elem_of_In. exact Hin.
Qed.

Lemma selectNewest_complete (limit : Z) (tests : gmap string Db.TestRow)
    (id : string) (row : Db.TestRow) :
  (limit < 0 \/ Z.of_nat (size tests) <= limit)%Z ->
  tests !! id = Some row ->
  In (id, row) (selectNewest limit tests).
Proof.
  intros Hlimit Hrow. apply list_elem_of_In.
  rewrite (selectNewest_full limit tests Hlimit).
  apply elem_of_map_to_list. exact Hrow.
Qed.

Lemma selectNewest_length (limit : Z) (tests : gmap string Db.TestRow) :
  length (selectNewest limit tests)
  = (if (limit <? 0)%Z then size tests
     else Nat.min (Z.to_nat limit) (size tests)).
Proof.
  pose proof (merge_sort_Permutation newer_first (H := newer_first_dec)
                (map_to_list tests)) as Hperm.
  unfold selectNewest. destruct (limit <? 0)%Z.
  - rewrite (Permutation_length Hperm). apply length_map_to_list.
  - rewrite length_firstn, (Permutation_length Hperm), length_map_to_list.
    reflexivity.
Qed.

Lemma Qred_inject_Z (z : Z) : Qred (inject_Z z) = inject_Z z.
Proof.
  unfold Qred, inject_Z.
  pose proof (Z.ggcd_gcd z 1) as Hgcd.
  pose proof (Z.ggcd_correct_divisors z 1) as Hdiv.
  destruct (Z.ggcd z 1) as [g [aa bb]]. cbn [fst snd] in *.
  rewrite Z.gcd_1_r in Hgcd. subst g. destruct Hdiv as [Ha Hb].
  replace aa with z by lia. replace bb with 1%Z by lia. reflexivity.
Qed.

Lemma limit_of_integer (z : Z) :
  limit_of (Number.Finite (inject_Z z))
  = if (Z.abs z <? 2 ^ 63)%Z then Some z else None.
Proof. unfold limit_of. rewrite Qred_inject_Z. reflexivity. Qed.

(** [getAllTests] with a limit that is an integer strictly between
    [-2^63] and [2^63] returns stored rows only, no run twice, newest
    first; it returns [limit] rows when the table has that many, all rows
    otherwise, and all rows for a negative limit.  With an integer limit
    outside that range, an infinity or NaN it throws 'datatype
    mismatch'. *)
Theorem getAllTests_newest_first :
  forall (tests : gmap string Db.TestRow),
    (forall limit : Z,
        (Z.abs limit < 2 ^ 63)%Z ->
        exists rows,
          getAllTests (Number.Finite (inject_Z limit)) tests = Return rows
          /\ (forall id row, In (id, row) rows -> tests !! id = Some row)
          /\ NoDup (map fst rows)
          /\ Sorted newer_first rows
          /\ length rows
             = (if (limit <? 0)%Z then size tests
                else Nat.min (Z.to_nat limit) (size tests))
          /\ ((limit < 0 \/ Z.of_nat (size tests) <= limit)%Z ->
              forall id row, tests !! id = Some row -> In (id, row) rows))
    /\ (forall limit : Z,
          (2 ^ 63 <= Z.abs limit)%Z ->
          getAllTests (Number.Finite (inject_Z limit)) tests
          = Throw "datatype mismatch")
    /\ (forall negative,
          getAllTests (Number.Infinity negative) tests
          = Throw "datatype mismatch")
    /\ getAllTests Number.NaN tests = Throw "datatype mismatch".
Proof.
  intros tests.
  split; [| split; [| split; [intros negative; reflexivity | reflexivity]]].
  - intros limit Hrange. exists (selectNewest limit tests).
    pose proof (merge_sort_Permutation newer_first (H := newer_first_dec)
                  (map_to_list tests)) as Hperm.
    pose proof (@Sorted_merge_sort _ newer_first newer_first_dec
                  newer_first_total (map_to_list tests)) as Hsorted.
    split.
    { unfold getAllTests. rewrite limit_of_integer.
      destruct (Z.abs limit <? 2 ^ 63)%Z eqn:Htest; [reflexivity |].
      apply Z.ltb_ge in Htest. lia. }
    split; [| split; [| split; [| split]]].
    + intros id row. apply selectNewest_stored.
    + change (NoDup (fst <$> selectNewest limit tests)).
      apply (sublist_NoDup _
               (fst <$> @merge_sort _ newer_first newer_first_dec
                          (map_to_list tests))).
      * rewrite Hperm. apply NoDup_fst_map_to_list.
      * apply fmap_sublist. apply selectNewest_sublist.
    + unfold selectNewest. destruct (limit <? 0)%Z; [exact Hsorted |].
      apply Sorted_firstn. exact Hsorted.
    + apply selectNewest_length.
    + intros Hlimit id row. apply selectNewest_complete. exact Hlimit.
  - intros limit Hrange. unfold getAllTests. rewrite limit_of_integer.
    destruct (Z.abs limit <? 2 ^ 63)%Z eqn:Htest; [| reflexivity].
    apply Z.ltb_lt in Htest. lia.
Qed.

Lemma or_else_nonzero (n : Z) (d : Number.number) :
  n <> 0%Z ->
  Number.or_else (Number.Finite (inject_Z n)) d = Number.Finite (inject_Z n).
Proof.
  intros Hn. unfold Number.or_else, Number.truthy.
  destruct (Qeq_bool (inject_Z n) 0) eqn:Hzero; [| reflexivity].
  apply Qeq_bool_eq in Hzero. unfold Qeq in Hzero. cbn in Hzero. lia.
Qed.

(** [GET /list] answers 200 and reports as [count] the number of runs it
    returns, or answers 500.  Without a usable limit (none given, not a
    number, or zero) it returns what [getAllTests(50)] returns: the 50
    newest runs, or all of them when there are fewer.  With a nonzero
    limit [n] strictly between [-2^63] and [2^63] it returns what
    [getAllTests(n)] returns: [n] runs or all when [n] is positive, all
    runs when [n] is negative.  With a limit that [parseInt] reads as an
    integer outside that range or as an infinity, it answers 500 with the
    message 'datatype mismatch'. *)
Theorem get_list_limit :
  forall (limitParam : option string) (s : Routes.Server),
    match list_body (get_list limitParam s) with
    | Listed tests count =>
        list_code (get_list limitParam s) = 200%nat /\ count = length tests
    | ListFailed error message =>
        list_code (get_list limitParam s) = 500%nat
        /\ error = "Failed to get tests"
    end
    /\ ((limitParam = None
         \/ (exists text, limitParam = Some text
                          /\ (Agent.parseInt text = Number.NaN
                              \/ Agent.parseInt text = Number.Finite 0))) ->
        exists rows,
          getAllTests (Number.Finite 50) (Routes.tests s) = Return rows
          /\ get_list limitParam s
             = {| list_code := 200;
                  list_body := Listed rows
                                 (Nat.min 50 (size (Routes.tests s))) |})
    /\ (forall text n,
          limitParam = Some text ->
          Agent.parseInt text = Number.Finite (inject_Z n) ->
          (n <> 0 -> Z.abs n < 2 ^ 63 ->
           exists rows,
             getAllTests (Number.Finite (inject_Z n)) (Routes.tests s)
             = Return rows
             /\ get_list limitParam s
                = {| list_code := 200;
                     list_body :=
                       Listed rows
                         (if (n <? 0)%Z then size (Routes.tests s)
                          else Nat.min (Z.to_nat n)
                                 (size (Routes.tests s))) |})%Z
          /\ (2 ^ 63 <= Z.abs n ->
              get_list limitParam s
              = {| list_code := 500;
                   list_body :=
                     ListFailed "Failed to get tests" "datatype mismatch" |})%Z)
    /\ (forall text negative,
          limitParam = Some text ->
          Agent.parseInt text = Number.Infinity negative ->
          get_list limitParam s
          = {| list_code := 500;
               list_body :=
                 ListFailed "Failed to get tests" "datatype mismatch" |}).
Proof.
  intros limitParam s. split; [| split; [| split]].
  - unfold get_list.
    destruct (getAllTests _ (Routes.tests s)); cbn [list_body list_code];
      split; reflexivity.
  - intros Hdefault.
    assert (Hlimit : Number.or_else
                       (Agent.parseInt (match limitParam with
                                        | Some text => text
                                        | None => "undefined"
                                        end))
                       (Number.Finite 50)
                     = Number.Finite 50).
    { destruct Hdefault as [-> | [text [-> [-> | ->]]]]; reflexivity. }
    exists (selectNewest 50 (Routes.tests s)). split; [reflexivity |].
    unfold get_list. rewrite Hlimit.
    change (getAllTests (Number.Finite 50) (Routes.tests s))
      with (Return (selectNewest 50 (Routes.tests s))).
    cbv iota. rewrite (selectNewest_length 50). reflexivity.
  - intros text n -> Hparse. unfold get_list. rewrite Hparse. split.
    + intros Hnonzero Hrange.
      rewrite or_else_nonzero by exact Hnonzero.
      unfold getAllTests. rewrite limit_of_integer.
      assert (Htest : (Z.abs n <? 2 ^ 63)%Z = true) by (apply Z.ltb_lt; lia).
      rewrite Htest. exists (selectNewest n (Routes.tests s)).
      split; [reflexivity |].
      rewrite (selectNewest_length n). reflexivity.
    + intros Hrange.
      rewrite or_else_nonzero by lia.
      unfold getAllTests. rewrite limit_of_integer.
      assert (Htest : (Z.abs n <? 2 ^ 63)%Z = false) by (apply Z.ltb_ge; lia).
      rewrite Htest. reflexivity.
  - intros text negative -> Hparse. unfold get_list. rewrite Hparse.
    reflexivity.
Qed.

Lemma get_list_limit_witness :
  (exists rows,
      getAllTests (Number.Finite (inject_Z 2)) (Routes.tests sample_server)
      = Return rows
      /\ get_list (Some "2 runs") sample_server
         = {| list_code := 200;
              list_body :=
                Listed rows
                  (Nat.min 2 (size (Routes.tests sample_server))) |})
  /\ get_list (Some "100000000000000000000") sample_server
     = {| list_code := 500;
          list_body :=
            ListFailed "Failed to get tests" "datatype mismatch" |}.
Proof.
  split.
  - destruct (get_list_limit (Some "2 runs") sample_server)
      as (_ & _ & Hinteger & _).
    destruct (Hinteger "2 runs" 2%Z eq_refl) as [Hlisted _];
      [vm_compute; reflexivity |].
    apply Hlisted; lia.
  - destruct (get_list_limit (Some "100000000000000000000") sample_server)
      as (_ & _ & Hinteger & _).
    destruct (Hinteger "100000000000000000000" 100000000000000000000%Z
                eq_refl) as [_ Hrefused]; [vm_compute; reflexivity |].
    apply Hrefused. lia.
Defined.

Lemma filter_filter_implied {A} (p q : A -> bool) (l : list A) :
  (forall x, p x = true -> q x = true) ->
  List.filter p (List.filter q l) = List.filter p l.
Proof.
  intros Himp. induction l as [| x rest IH]; simpl; [reflexivity |].
  destruct (q x) eqn:Hq; simpl.
  - rewrite IH. reflexivity.
  - destruct (p x) eqn:Hp; [| exact IH].
    rewrite (Himp x Hp) in Hq. discriminate.
Qed.

(** Deleting a run removes its row and, by the cascade, its reports:
    afterwards [getTest] and [getReport] find nothing for the id, a report
    can no longer be stored for it, and the id can be used for a new run;
    every other run reads exactly as before. *)
Theorem deleteTest_cascades :
  forall (testId : string) (st : Db.Store),
    Db.getTest testId (Db.tests (deleteTest testId st)) = None
    /\ Db.getReport testId (deleteTest testId st) = None
    /\ (forall now report recording,
          Db.createReport now testId report recording (deleteTest testId st)
          = Throw "FOREIGN KEY constraint failed")
    /\ (forall now url sid,
          exists db',
            Db.createTest now testId url sid (Db.tests (deleteTest testId st))
            = Return db')
    /\ (forall other, other <> testId ->
          Db.getTest other (Db.tests (deleteTest testId st))
          = Db.getTest other (Db.tests st)
          /\ Db.getReport other (deleteTest testId st)
             = Db.getReport other st).
Proof.
  intros testId st. unfold Db.getTest, Db.getReport, Db.createReport,
    Db.createTest, deleteTest. cbn [Db.tests Db.reports].
  rewrite lookup_delete_eq.
  split; [reflexivity |]. split; [| split; [reflexivity |]].
  - assert (Hnone : List.filter (fun r => String.eqb (Db.test_id r) testId)
                      (List.filter
                         (fun r => negb (String.eqb (Db.test_id r) testId))
                         (Db.reports st)) = []).
    { induction (Db.reports st) as [| r rest IH]; simpl; [reflexivity |].
      destruct (String.eqb (Db.test_id r) testId) eqn:Hid; simpl;
        [exact IH | rewrite Hid; exact IH]. }
    rewrite Hnone. reflexivity.
  - split; [intros; eexists; reflexivity |].
    intros other Hne. split; [apply lookup_delete_ne; congruence |].
    rewrite filter_filter_implied; [reflexivity |].
    intros r Hr. apply String.eqb_eq in Hr. apply negb_true_iff.
    apply String.eqb_neq. congruence.
Qed.

(** ** utils/cleanup.js: stopping the running tests at shutdown *)

Definition stop_each (now : string) (runs : list (string * Db.TestRow))
    (db : gmap string Db.TestRow) : gmap string Db.TestRow :=
  fold_left (fun db test =>
               Db.updateTestStatus now (fst test) "stopped"
                 (Some "Server shutdown") db)
    runs db.

Lemma stop_each_lookup (now : string) (runs : list (string * Db.TestRow))
    (id : string) :
  forall db,
    stop_each now runs db !! id
    = if in_dec string_dec id (map fst runs)
      then Db.set_status "stopped" <$> db !! id
      else db !! id.
Proof.
  unfold stop_each.
  induction runs as [| [x row] rest IH]; intros db.
  - reflexivity.
  - cbn [fold_left fst]. rewrite IH. rewrite updateTestStatus_stopped.
    destruct (in_dec string_dec id (map fst rest)) as [Hrest | Hrest];
      destruct (in_dec string_dec id (map fst ((x, row) :: rest)))
        as [Hall | Hall]; cbn [map fst] in Hall.
    + destruct (string_dec id x) as [-> | Hne].
      * rewrite lookup_alter_eq. destruct (db !! x); reflexivity.
      * rewrite lookup_alter_ne by congruence. reflexivity.
    + exfalso. apply Hall. right. exact Hrest.
    + destruct Hall as [<- | Hin]; [| contradiction].
      apply lookup_alter_eq.
    + apply lookup_alter_ne. intros <-. apply Hall. left. reflexivity.
Qed.

Definition is_running (row : Db.TestRow) : bool :=
  String.eqb (Db.status row) "running" || String.eqb (Db.status row) "starting".

(** At shutdown every run among the hundred newest whose status is
    'running' or 'starting' becomes 'stopped', keeping all its other
    columns (the reason 'Server shutdown' is not stored); every other run
    is left as it is, and no run is added or removed.  When the table has
    at most a hundred runs, no run is 'running' or 'starting'
    afterwards. *)
Theorem cleanupOnExit_stops_running_tests :
  forall (now : string) (tests : gmap string Db.TestRow),
    (forall id row,
        tests !! id = Some row ->
        cleanupOnExit now tests !! id
        = Some (if is_running row
                then if in_dec string_dec id
                          (map fst (selectNewest 100 tests))
                     then {| Db.url := Db.url row; Db.status := "stopped";
                             Db.created_at := Db.created_at row;
                             Db.started_at := Db.started_at row;
                             Db.completed_at := Db.completed_at row;
                             Db.browserbase_session_id :=
                               Db.browserbase_session_id row;
                             Db.error := Db.error row |}
                     else row
                else row))
    /\ (forall id, tests !! id = None -> cleanupOnExit now tests !! id = None)
    /\ ((size tests <= 100)%nat ->
        forall id row',
          cleanupOnExit now tests !! id = Some row' ->
          is_running row' = false).
Proof.
  intros now tests.
  pose proof (selectNewest_stored 100 tests) as Hstored.
  pose proof (selectNewest_complete 100 tests) as Hall.
  set (runningTests :=
         List.filter (fun test => is_running (snd test))
           (selectNewest 100 tests)).
  assert (Hcleanup : cleanupOnExit now tests = stop_each now runningTests tests)
    by reflexivity.
  assert (Hmember : forall id row,
             tests !! id = Some row ->
             In id (map fst runningTests)
             <-> is_running row = true
                 /\ In id (map fst (selectNewest 100 tests))).
  { intros id row Hrow. subst runningTests. rewrite !in_map_iff. split.
    - intros [[id' row0] [Hid Hin]]. cbn [fst] in Hid. subst id'.
      apply filter_In in Hin. destruct Hin as [Hin Hrun]. cbn [snd] in Hrun.
      pose proof (Hstored id row0 Hin) as Hrow0.
      rewrite Hrow in Hrow0. inversion Hrow0; subst row0.
      split; [exact Hrun |]. exists (id, row). split; [reflexivity | exact Hin].
    - intros [Hrun [[id' row0] [Hid Hin]]]. cbn [fst] in Hid. subst id'.
      pose proof (Hstored id row0 Hin) as Hrow0.
      rewrite Hrow in Hrow0. inversion Hrow0; subst row0.
      exists (id, row). split; [reflexivity |].
      apply filter_In. split; [exact Hin | exact Hrun]. }
  assert (Hfirst : forall id row,
             tests !! id = Some row ->
             cleanupOnExit now tests !! id
             = Some (if is_running row
                     then if in_dec string_dec id
                               (map fst (selectNewest 100 tests))
                          then Db.set_status "stopped" row
                          else row
                     else row)).
  { intros id row Hrow. rewrite Hcleanup, stop_each_lookup, Hrow.
    destruct (in_dec string_dec id (map fst runningTests)) as [Hin | Hout].
    - apply (Hmember id row Hrow) in Hin. destruct Hin as [Hrun Hin].
      rewrite Hrun.
      destruct (in_dec string_dec id (map fst (selectNewest 100 tests)));
        [reflexivity | contradiction].
    - destruct (is_running row) eqn:Hrun; [| reflexivity].
      destruct (in_dec string_dec id (map fst (selectNewest 100 tests)))
        as [Hin |]; [| reflexivity].
      exfalso. apply Hout. apply (Hmember id row Hrow). split; assumption. }
  split; [exact Hfirst |]. split.
  - intros id Hnone. rewrite Hcleanup, stop_each_lookup, Hnone.
    destruct (in_dec string_dec id (map fst runningTests)); reflexivity.
  - intros Hsize id row' Hrow'.
    destruct (tests !! id) as [row |] eqn:Hrow.
    + rewrite (Hfirst id row Hrow) in Hrow'. inversion Hrow' as [Heq].
      destruct (is_running row) eqn:Hrun; [| exact Hrun].
      destruct (in_dec string_dec id (map fst (selectNewest 100 tests)))
        as [| Hout]; [reflexivity |].
      exfalso. apply Hout. apply in_map_iff. exists (id, row).
      split; [reflexivity |]. apply Hall; [right; lia | exact Hrow].
    + rewrite Hcleanup, stop_each_lookup, Hrow in Hrow'.
      destruct (in_dec string_dec id (map fst runningTests)); discriminate.
Qed.

Lemma cleanupOnExit_stops_running_tests_witness :
  cleanupOnExit "2025-10-13 10:05:00" (<["run-1" := sample_row]> ∅) !! "run-1"
  = Some {| Db.url := "https://example.com"; Db.status := "stopped";
            Db.created_at := "2025-10-13 10:00:00";
            Db.started_at := Some "2025-10-13 10:00:01";
            Db.completed_at := None;
            Db.browserbase_session_id := Some "sess-1";
            Db.error := None |}.
Proof.
  exact (proj1 (cleanupOnExit_stops_running_tests "2025-10-13 10:05:00"
                  (<["run-1" := sample_row]> ∅))
           "run-1" sample_row eq_refl).
Defined.

Lemma getAllTests_newest_first_witness :
  exists rows,
    getAllTests (Number.Finite 50) (<["run-1" := sample_row]> ∅) = Return rows
    /\ In ("run-1", sample_row) rows.
Proof.
  destruct (proj1 (getAllTests_newest_first (<["run-1" := sample_row]> ∅))
              50%Z ltac:(lia))
    as (rows & Hrows & _ & _ & _ & _ & Hall).
  exists rows. split; [exact Hrows |].
  apply Hall; [right; vm_compute; discriminate | reflexivity].
Defined.

Lemma deleteTest_cascades_witness :
  Db.getReport "run-1"
    (deleteTest "run-2"
       (sample_store_after "2025-10-13T10:00:10.000Z" "2025-10-13 10:00:10"
          sample_store))
  = Db.getReport "run-1"
      (sample_store_after "2025-10-13T10:00:10.000Z" "2025-10-13 10:00:10"
         sample_store).
Proof.
  apply (deleteTest_cascades "run-2"
           (sample_store_after "2025-10-13T10:00:10.000Z"
              "2025-10-13 10:00:10" sample_store)).
  discriminate.
Defined.

Lemma createTest_then_getTest_witness :
  Db.getTest "run-1"
    (<["run-2" := {| Db.url := "https://example.org"; Db.status := "pending";
                     Db.created_at := "2025-10-13 10:01:00";
                     Db.started_at := None; Db.completed_at := None;
                     Db.browserbase_session_id := None;
                     Db.error := None |}]> (<["run-1" := sample_row]> ∅))
  = Db.getTest "run-1" (<["run-1" := sample_row]> ∅).
Proof.
  pose proof (createTest_then_getTest "2025-10-13 10:01:00" "run-2"
                "https://example.org" None (<["run-1" := sample_row]> ∅))
    as H.
  cbv beta iota delta [Db.createTest] in H.
  change ((<["run-1" := sample_row]> ∅ : gmap string Db.TestRow) !! "run-2")
    with (@None Db.TestRow) in H.
  cbv iota in H.
  apply (proj1 (proj2 (proj2 H))). discriminate.
Defined.

(** ** The start endpoint *)

(** A start request that is not answered 200 leaves the server exactly as
    it was: no row, no queue entry and no in-memory session is created for
    a missing or malformed URL, for a failed session creation, or for an
    id that is already taken. *)
Theorem rejected_start_changes_nothing :
  forall (clk : Routes.Clock) (url : option string) (urlParses : bool)
         (uuid : string) (create : outcome Browserbase.ProviderSession)
         (s : Routes.Server),
    Routes.code (fst (Routes.post_start clk url urlParses uuid create s))
    <> 200%nat ->
    snd (Routes.post_start clk url urlParses uuid create s) = s
    /\ (or_null url = None ->
        Routes.code (fst (Routes.post_start clk url urlParses uuid create s))
        = 400%nat)
    /\ (urlParses = false ->
        Routes.code (fst (Routes.post_start clk url urlParses uuid create s))
        = 400%nat).
Proof.
  intros clk url urlParses uuid create s. unfold Routes.post_start.
  destruct (or_null url) as [u |]; [| intros _; repeat split].
  destruct urlParses; cbn [negb]; [| intros _; repeat split; discriminate].
  destruct (1 <=? size (Routes.activeSessions s))%nat.
  - destruct (Db.createTest (Routes.dbNow clk) uuid u None (Routes.tests s));
      cbn [fst snd Routes.respond Routes.code]; intros H;
      [congruence | repeat split; discriminate].
  - destruct (Browserbase.createSession create) as [session |];
      [| cbn [fst snd Routes.respond Routes.code]; intros _;
         repeat split; discriminate].
    destruct (Db.createTest (Routes.dbNow clk) uuid u
                (Some (Browserbase.sessionId session)) (Routes.tests s));
      cbn [fst snd Routes.respond Routes.code]; intros H;
      [congruence | repeat split; discriminate].
Qed.

Lemma rejected_start_changes_nothing_witness :
  snd (Routes.post_start sample_clock (Some "https://example.com") true
         "run-1" (provider_ok "sess-2") sample_server)
  = sample_server.
Proof.
  apply (rejected_start_changes_nothing sample_clock
           (Some "https://example.com") true "run-1" (provider_ok "sess-2")
           sample_server).
  vm_compute. discriminate.
Defined.

Lemma post_start_queued (clk : Routes.Clock) (url : option string)
    (u uuid : string) (create : outcome Browserbase.ProviderSession)
    (s : Routes.Server) :
  or_null url = Some u ->
  Routes.tests s !! uuid = None ->
  (1 <= size (Routes.activeSessions s))%nat ->
  Routes.post_start clk url true uuid create s
  = (let queue :=
       Routes.testQueue s
       ++ [ {| Routes.q_testId := uuid; Routes.q_url := u;
               Routes.q_queuedAt := Routes.isoNow clk |} ] in
     ({| Routes.code := 200;
         Routes.body := Routes.QueuedBody uuid (length queue) |},
      {| Routes.store :=
           {| Db.tests :=
                alter (Db.set_status "queued") uuid
                  (<[uuid := {| Db.url := u; Db.status := "pending";
                                Db.created_at := Routes.dbNow clk;
                                Db.started_at := None;
                                Db.completed_at := None;
                                Db.browserbase_session_id := None;
                                Db.error := None |}]> (Routes.tests s));
              Db.reports := Db.reports (Routes.store s) |};
         Routes.activeSessions :=
           <[uuid := {| Routes.status := "queued"; Routes.progress := [];
                        Routes.queuePosition := Some (length queue);
                        Routes.queuedAt := Some (Routes.isoNow clk);
                        Routes.startedAt := None;
                        Routes.completedAt := None;
                        Routes.session_recordingUrl := None |}]>
             (Routes.activeSessions s);
         Routes.testQueue := queue;
         Routes.isProcessingQueue := Routes.isProcessingQueue s |})).
Proof.
  intros Hurl Hfresh Hactive. unfold Routes.post_start. rewrite Hurl.
  cbn [negb].
  assert (Hlimit : (1 <=? size (Routes.activeSessions s))%nat = true)
    by (apply Nat.leb_le; exact Hactive).
  rewrite Hlimit. unfold Db.createTest. rewrite Hfresh. reflexivity.
Qed.

Lemma post_start_admitted (clk : Routes.Clock) (url : option string)
    (u uuid : string) (session : Browserbase.ProviderSession)
    (s : Routes.Server) :
  or_null url = Some u ->
  Routes.tests s !! uuid = None ->
  size (Routes.activeSessions s) = 0%nat ->
  Routes.post_start clk url true uuid (Return session) s
  = ({| Routes.code := 200;
        Routes.body :=
          Routes.StartingBody uuid (Browserbase.id session)
            (or_else (Browserbase.liveUrl session)
               ("https://browserbase.com/sessions/" ++ Browserbase.id session)) |},
     {| Routes.store :=
          {| Db.tests :=
               alter (Db.set_running (Routes.dbNow clk) "running") uuid
                 (<[uuid := {| Db.url := u; Db.status := "pending";
                               Db.created_at := Routes.dbNow clk;
                               Db.started_at := None;
                               Db.completed_at := None;
                               Db.browserbase_session_id :=
                                 Some (Browserbase.id session);
                               Db.error := None |}]> (Routes.tests s));
             Db.reports := Db.reports (Routes.store s) |};
        Routes.activeSessions :=
          <[uuid := {| Routes.status := "running"; Routes.progress := [];
                       Routes.queuePosition := None; Routes.queuedAt := None;
                       Routes.startedAt := Some (Routes.isoNow clk);
                       Routes.completedAt := None;
                       Routes.session_recordingUrl := None |}]>
            (Routes.activeSessions s);
        Routes.testQueue := Routes.testQueue s;
        Routes.isProcessingQueue := Routes.isProcessingQueue s |}).
Proof.
  intros Hurl Hfresh Hnone. unfold Routes.post_start. rewrite Hurl.
  cbn [negb]. rewrite Hnone. cbn [Nat.leb Browserbase.createSession].
  unfold Db.createTest. cbn [Browserbase.sessionId]. rewrite Hfresh.
  reflexivity.
Qed.



(** ** The admission queue over whole schedules *)

(** The run a start request starts at once, if it does. *)
Definition started_by (s : Routes.Server) (e : Routes.Event) : option string :=
  match e with
  | Routes.StartRequest clk url urlParses uuid create =>
      match Routes.body
              (fst (Routes.post_start clk url urlParses uuid create s)) with
      | Routes.StartingBody testId _ _ => Some testId
      | _ => None
      end
  | _ => None
  end.

Definition jobs_after (jobs : list string) (s : Routes.Server)
    (e : Routes.Event) : list string :=
  match started_by s e with
  | Some testId => testId :: jobs
  | None => jobs
  end.

(** A background job can only end for a run whose job was started. *)
Definition allowed (jobs : list string) (e : Routes.Event) : Prop :=
  match e with
  | Routes.JobEnds _ _ testId _ _ => In testId jobs
  | _ => True
  end.

(** A schedule: any sequence of start requests, stop requests and job
    ends in which a job ends only for a run that an earlier start request
    of the sequence started.  [jobs] are the runs started so far. *)
Fixpoint schedule (jobs : list string) (s : Routes.Server)
    (events : list Routes.Event) : Prop :=
  match events with
  | [] => True
  | e :: rest =>
      allowed jobs e /\ schedule (jobs_after jobs s e) (Routes.step s e) rest
  end.

Fixpoint jobs_of (jobs : list string) (s : Routes.Server)
    (events : list Routes.Event) : list string :=
  match events with
  | [] => jobs
  | e :: rest => jobs_of (jobs_after jobs s e) (Routes.step s e) rest
  end.

(** A queued request is waiting: it has its 'queued' entry in
    [activeSessions] and its row says 'queued'. *)
Definition waiting (s : Routes.Server) (q : Routes.QueuedTest) : Prop :=
  (exists session,
      Routes.activeSessions s !! Routes.q_testId q = Some session
      /\ Routes.status session = "queued")
  /\ Routes.statusOf (Routes.q_testId q) s = Some "queued".

Definition queue_inv (jobs : list string) (s : Routes.Server) : Prop :=
  (forall q, In q (Routes.testQueue s) -> waiting s q)
  /\ (forall j, In j jobs ->
        is_Some (Routes.tests s !! j)
        /\ ~ In j (map Routes.q_testId (Routes.testQueue s))).

Lemma updateTestStatus_is_Some (now testId status id : string)
    (error : option string) (db : gmap string Db.TestRow) :
  is_Some (db !! id) ->
  is_Some (Db.updateTestStatus now testId status error db !! id).
Proof.
  intros [row Hrow]. unfold Db.updateTestStatus.
  destruct (String.eqb status "running");
    [| destruct (String.eqb status "completed" || String.eqb status "failed")];
    (destruct (decide (id = testId)) as [-> | Hne];
     [rewrite lookup_alter_eq, Hrow; eexists; reflexivity
     | rewrite lookup_alter_ne by congruence; eauto]).
Qed.

Lemma waiting_has_row (s : Routes.Server) (q : Routes.QueuedTest) :
  waiting s q ->
  exists row, Routes.tests s !! Routes.q_testId q = Some row
              /\ Db.status row = "queued".
Proof.
  intros [_ Hstatus]. unfold Routes.statusOf, Db.getTest in Hstatus.
  destruct (Routes.tests s !! Routes.q_testId q) as [row |];
    [| discriminate].
  exists row. split; [reflexivity |]. inversion Hstatus. reflexivity.
Qed.

(** Fields that decide whether a request is waiting. *)
Lemma waiting_ext (s s' : Routes.Server) (q : Routes.QueuedTest) :
  Routes.activeSessions s' !! Routes.q_testId q
  = Routes.activeSessions s !! Routes.q_testId q ->
  Routes.tests s' !! Routes.q_testId q = Routes.tests s !! Routes.q_testId q ->
  waiting s q -> waiting s' q.
Proof.
  intros Hactive Htests [Hsession Hstatus]. split.
  - rewrite Hactive. exact Hsession.
  - unfold Routes.statusOf, Db.getTest in *. rewrite Htests. exact Hstatus.
Qed.

Lemma queue_inv_empty_when_idle (jobs : list string) (s : Routes.Server) :
  queue_inv jobs s ->
  size (Routes.activeSessions s) = 0%nat ->
  Routes.testQueue s = [].
Proof.
  intros [Hqueue _] Hsize.
  destruct (Routes.testQueue s) as [| q rest]; [reflexivity |].
  destruct (Hqueue q (or_introl eq_refl)) as [[session [Hsession _]] _].
  apply map_size_empty_iff in Hsize. rewrite Hsize, lookup_empty in Hsession.
  discriminate.
Qed.

(** The three ways a start request can go. *)
Lemma post_start_cases (clk : Routes.Clock) (url : option string)
    (urlParses : bool) (uuid : string)
    (create : outcome Browserbase.ProviderSession) (s : Routes.Server) :
  (exists code error message,
      Routes.post_start clk url urlParses uuid create s
      = ({| Routes.code := code;
            Routes.body := Routes.ErrorBody error message None |}, s))
  \/ (exists u,
        or_null url = Some u /\ urlParses = true
        /\ Routes.tests s !! uuid = None
        /\ (1 <= size (Routes.activeSessions s))%nat)
  \/ (exists u session,
        or_null url = Some u /\ urlParses = true
        /\ Routes.tests s !! uuid = None
        /\ size (Routes.activeSessions s) = 0%nat
        /\ create = Return session).
Proof.
  unfold Routes.post_start.
  destruct (or_null url) as [u |] eqn:Hurl; [| left; eauto].
  destruct urlParses; cbn [negb]; [| left; eauto].
  destruct (1 <=? size (Routes.activeSessions s))%nat eqn:Hlimit.
  - apply Nat.leb_le in Hlimit. unfold Db.createTest.
    destruct (Routes.tests s !! uuid) eqn:Hrow; [left; eauto |].
    right. left. exists u. repeat split; assumption.
  - apply Nat.leb_gt in Hlimit.
    destruct create as [session | msg];
      cbn [Browserbase.createSession]; [| left; eauto].
    unfold Db.createTest.
    destruct (Routes.tests s !! uuid) eqn:Hrow; [left; eauto |].
    right. right. exists u, session. repeat split; try assumption; lia.
Qed.

Lemma step_start_keeps_queue (jobs : list string) (s : Routes.Server)
    (clk : Routes.Clock) (url : option string) (urlParses : bool)
    (uuid : string) (create : outcome Browserbase.ProviderSession) :
  queue_inv jobs s ->
  let e := Routes.StartRequest clk url urlParses uuid create in
  queue_inv (jobs_after jobs s e) (Routes.step s e)
  /\ exists extra,
       Routes.testQueue (Routes.step s e) = Routes.testQueue s ++ extra.
Proof.
  intros Hinv e. subst e. unfold jobs_after, started_by.
  cbn [Routes.step].
  destruct (post_start_cases clk url urlParses uuid create s)
    as [(code & error & message & ->)
       | [(u & Hurl & -> & Hfresh & Hactive)
         | (u & session & Hurl & -> & Hfresh & Hidle & ->)]].
  - cbn [fst snd Routes.body]. split; [exact Hinv |].
    exists []. rewrite app_nil_r. reflexivity.
  - rewrite (post_start_queued clk url u uuid create s Hurl Hfresh Hactive).
    cbv zeta. cbn [fst snd Routes.body].
    destruct Hinv as [Hqueue Hjobs]. split.
    + split.
      * intros q Hq. cbn [Routes.testQueue] in Hq.
        apply in_app_or in Hq. destruct Hq as [Hq | [<- | []]].
        -- destruct (waiting_has_row s q (Hqueue q Hq)) as [row [Hrow _]].
           assert (Hne : Routes.q_testId q <> uuid) by congruence.
           apply (waiting_ext s); [| | exact (Hqueue q Hq)].
           ++ cbn [Routes.activeSessions].
              apply lookup_insert_ne. congruence.
           ++ unfold Routes.tests. cbn [Routes.store Db.tests].
              rewrite lookup_alter_ne by congruence.
              apply lookup_insert_ne. congruence.
        -- split.
           ++ cbn [Routes.activeSessions Routes.q_testId].
              rewrite lookup_insert_eq. eexists. split; reflexivity.
           ++ unfold Routes.statusOf, Db.getTest, Routes.tests.
              cbn [Routes.store Db.tests Routes.q_testId].
              rewrite lookup_alter_eq, lookup_insert_eq. reflexivity.
      * intros j Hj. destruct (Hjobs j Hj) as [[row Hrow] Hnotin].
        assert (Hne : j <> uuid) by congruence.
        split.
        -- unfold Routes.tests. cbn [Routes.store Db.tests].
           rewrite lookup_alter_ne by congruence.
           rewrite lookup_insert_ne by congruence. eauto.
        -- cbn [Routes.testQueue]. rewrite map_app, in_app_iff.
           cbn [map Routes.q_testId In]. intros [Hin | [Heq | []]];
             [contradiction | congruence].
    + eexists. reflexivity.
  - rewrite (post_start_admitted clk url u uuid session s Hurl Hfresh Hidle).
    cbn [fst snd Routes.body].
    pose proof (queue_inv_empty_when_idle jobs s Hinv Hidle) as Hempty.
    destruct Hinv as [Hqueue Hjobs]. split.
    + split.
      * intros q Hq. cbn [Routes.testQueue] in Hq. rewrite Hempty in Hq.
        destruct Hq.
      * intros j Hj. cbn [Routes.testQueue]. rewrite Hempty. split; [| tauto].
        unfold Routes.tests. cbn [Routes.store Db.tests].
        destruct (decide (j = uuid)) as [-> | Hne].
        -- rewrite lookup_alter_eq, lookup_insert_eq. eexists. reflexivity.
        -- rewrite lookup_alter_ne by congruence.
           rewrite lookup_insert_ne by congruence.
           destruct Hj as [Heq | Hj]; [congruence |].
           apply (Hjobs j Hj).
    + exists []. rewrite app_nil_r. reflexivity.
Qed.

Lemma step_stop_keeps_queue (jobs : list string) (s : Routes.Server)
    (clk : Routes.Clock) (testId : string) :
  queue_inv jobs s ->
  queue_inv jobs (Routes.step s (Routes.StopRequest clk testId))
  /\ Routes.testQueue (Routes.step s (Routes.StopRequest clk testId))
     = Routes.testQueue s.
Proof.
  intros Hinv. cbn [Routes.step].
  destruct (Db.getTest testId (Routes.tests s)) as [test |] eqn:Htest.
  - destruct (String.eqb (Db.status test) "running") eqn:Hrun.
    + apply String.eqb_eq in Hrun.
      rewrite (post_stop_running clk testId s test Htest Hrun).
      cbn [snd]. split; [| reflexivity].
      destruct Hinv as [Hqueue Hjobs]. split.
      * intros q Hq.
        destruct (waiting_has_row s q (Hqueue q Hq)) as [row [Hrow Hqueued]].
        assert (Hne : Routes.q_testId q <> testId).
        { intros Heq. unfold Db.getTest in Htest. rewrite Heq in Hrow.
          rewrite Hrow in Htest. inversion Htest; subst. congruence. }
        apply (waiting_ext s); [| | exact (Hqueue q Hq)].
        -- apply lookup_delete_ne. congruence.
        -- apply updateTestStatus_other. exact Hne.
      * intros j Hj. destruct (Hjobs j Hj) as [Hrow Hnotin].
        split; [| exact Hnotin].
        apply updateTestStatus_is_Some. exact Hrow.
    + unfold Routes.post_stop. rewrite Htest, Hrun. cbn [negb snd Routes.respond].
      split; [exact Hinv | reflexivity].
  - unfold Routes.post_stop. rewrite Htest. cbn [snd Routes.respond].
    split; [exact Hinv | reflexivity].
Qed.

Lemma processQueue_blocked (clk : Routes.Clock)
    (create : nat -> outcome Browserbase.ProviderSession) (s : Routes.Server) :
  (forall q, In q (Routes.testQueue s) -> waiting s q) ->
  Routes.testQueue (Routes.processQueue clk create s) = Routes.testQueue s
  /\ Routes.store (Routes.processQueue clk create s) = Routes.store s
  /\ Routes.activeSessions (Routes.processQueue clk create s)
     = Routes.activeSessions s.
Proof.
  intros Hqueue.
  destruct (Routes.testQueue s) as [| q rest] eqn:Hq.
  - unfold Routes.processQueue. rewrite Hq. cbn [length Nat.eqb].
    rewrite orb_true_r. rewrite Hq. repeat split.
  - rewrite <- Hq.
    apply (drain_blocked_by_queued_session clk create s q rest Hq).
    destruct (Hqueue q (or_introl eq_refl)) as [[session [Hsession _]] _].
    eauto.
Qed.

(** The state in which the tail of a background job calls
    [processQueue]. *)
Lemma job_tail_state (clk : Routes.Clock)
    (create : nat -> outcome Browserbase.ProviderSession)
    (testId sid : string) (run : Routes.JobRun) (s : Routes.Server) :
  exists pre status error,
    Routes.runTestInBackground_end clk create testId sid run s
    = Routes.processQueue clk create pre
    /\ Routes.tests pre
       = Db.updateTestStatus (Routes.dbNow clk) testId status error
           (Routes.tests s)
    /\ Routes.activeSessions pre = delete testId (Routes.activeSessions s)
    /\ Routes.testQueue pre = Routes.testQueue s.
Proof.
  unfold Routes.runTestInBackground_end.
  destruct run as [msg | actionLogs retrieve].
  - eexists _, "failed", (Some msg). split; [reflexivity |]. repeat split.
  - unfold ReportService.generateReport, Db.createReport.
    destruct (Db.tests (Routes.store s) !! testId).
    + eexists _, "completed", None. split; [reflexivity |]. repeat split.
    + eexists _, "failed", (Some _). split; [reflexivity |]. repeat split.
Qed.

Lemma step_job_keeps_queue (jobs : list string) (s : Routes.Server)
    (clk : Routes.Clock) (create : nat -> outcome Browserbase.ProviderSession)
    (testId sid : string) (run : Routes.JobRun) :
  queue_inv jobs s ->
  In testId jobs ->
  queue_inv jobs (Routes.step s (Routes.JobEnds clk create testId sid run))
  /\ Routes.testQueue
       (Routes.step s (Routes.JobEnds clk create testId sid run))
     = Routes.testQueue s.
Proof.
  intros [Hqueue Hjobs] Hjob. cbn [Routes.step].
  destruct (job_tail_state clk create testId sid run s)
    as (pre & status & error & -> & Htests & Hactive & Hpre).
  assert (Hpre_queue : forall q, In q (Routes.testQueue pre) -> waiting pre q).
  { intros q Hq. rewrite Hpre in Hq.
    assert (Hne : Routes.q_testId q <> testId).
    { intros Heq. apply (proj2 (Hjobs testId Hjob)).
      apply in_map_iff. exists q. split; [exact Heq | exact Hq]. }
    apply (waiting_ext s); [| | exact (Hqueue q Hq)].
    - rewrite Hactive. apply lookup_delete_ne. congruence.
    - rewrite Htests. apply updateTestStatus_other. exact Hne. }
  destruct (processQueue_blocked clk create pre Hpre_queue)
    as (Hq' & Hstore' & Hactive').
  split; [| rewrite Hq'; exact Hpre].
  split.
  - intros q Hq. rewrite Hq' in Hq.
    apply (waiting_ext pre); [| | exact (Hpre_queue q Hq)].
    + rewrite Hactive'. reflexivity.
    + unfold Routes.tests. rewrite Hstore'. reflexivity.
  - intros j Hj. destruct (Hjobs j Hj) as [Hrow Hnotin].
    rewrite Hq', Hpre. split; [| exact Hnotin].
    unfold Routes.tests. rewrite Hstore'. fold (Routes.tests pre).
    rewrite Htests. apply updateTestStatus_is_Some. exact Hrow.
Qed.

Lemma schedule_keeps_queue (events : list Routes.Event) :
  forall (jobs : list string) (s : Routes.Server),
    queue_inv jobs s ->
    schedule jobs s events ->
    queue_inv (jobs_of jobs s events) (Routes.run events s)
    /\ exists extra,
         Routes.testQueue (Routes.run events s) = Routes.testQueue s ++ extra.
Proof.
  induction events as [| e rest IH]; intros jobs s Hinv Hschedule.
  - split; [exact Hinv |]. exists []. rewrite app_nil_r. reflexivity.
  - destruct Hschedule as [Hallowed Hrest].
    assert (Hstep : queue_inv (jobs_after jobs s e) (Routes.step s e)
                    /\ exists extra,
                         Routes.testQueue (Routes.step s e)
                         = Routes.testQueue s ++ extra).
    { destruct e as [clk url urlParses uuid create | clk testId
                    | clk create testId sid run].
      - apply step_start_keeps_queue. exact Hinv.
      - destruct (step_stop_keeps_queue jobs s clk testId Hinv) as [H1 H2].
        split; [exact H1 |]. exists []. rewrite app_nil_r. exact H2.
      - destruct (step_job_keeps_queue jobs s clk create testId sid run
                    Hinv Hallowed) as [H1 H2].
        split; [exact H1 |]. exists []. rewrite app_nil_r. exact H2. }
    destruct Hstep as [Hinv' [extra Hextra]].
    destruct (IH _ _ Hinv' Hrest) as [Hfinal [extra' Hextra']].
    split; [exact Hfinal |].
    exists (extra ++ extra'). cbn [Routes.run fold_left].
    change (fold_left Routes.step rest (Routes.step s e))
      with (Routes.run rest (Routes.step s e)).
    rewrite Hextra', Hextra, app_assoc. reflexivity.
Qed.

Lemma schedule_app (earlier later : list Routes.Event) :
  forall (jobs : list string) (s : Routes.Server),
    schedule jobs s (earlier ++ later) ->
    schedule jobs s earlier
    /\ schedule (jobs_of jobs s earlier) (Routes.run earlier s) later.
Proof.
  induction earlier as [| e rest IH]; intros jobs s Hschedule.
  - split; [exact I | exact Hschedule].
  - destruct Hschedule as [Hallowed Hrest].
    destruct (IH _ _ Hrest) as [H1 H2].
    split; [split; assumption | exact H2].
Qed.

Lemma queue_inv_initial : queue_inv [] Routes.initial.
Proof. split; [intros q [] | intros j []]. Qed.

(** Once queued, always queued.  In every schedule that begins with a
    fresh server (start requests, stop requests and ends of started jobs,
    in any number and order), the queue only ever grows at its end: no
    request leaves it, and each request in it keeps its row at 'queued'
    and is shown as 'queued' by the status endpoint.  No queued run is
    ever started. *)
Theorem queued_requests_wait_forever :
  forall (earlier later : list Routes.Event),
    schedule [] Routes.initial (earlier ++ later) ->
    (exists extra,
        Routes.testQueue (Routes.run (earlier ++ later) Routes.initial)
        = Routes.testQueue (Routes.run earlier Routes.initial) ++ extra)
    /\ (forall q,
          In q (Routes.testQueue (Routes.run (earlier ++ later) Routes.initial)) ->
          Routes.statusOf (Routes.q_testId q)
            (Routes.run (earlier ++ later) Routes.initial) = Some "queued"
          /\ exists session,
               Routes.get_status (Routes.q_testId q)
                 (Routes.run (earlier ++ later) Routes.initial)
               = {| Routes.code := 200;
                    Routes.body :=
                      Routes.ActiveStatusBody (Routes.q_testId q) session |}
               /\ Routes.status session = "queued").
Proof.
  intros earlier later Hschedule.
  destruct (schedule_app earlier later [] Routes.initial Hschedule)
    as [Hearlier Hlater].
  destruct (schedule_keeps_queue earlier [] Routes.initial queue_inv_initial
              Hearlier) as [Hinv _].
  destruct (schedule_keeps_queue later _ _ Hinv Hlater) as [Hfinal Hgrow].
  assert (Hrun : Routes.run (earlier ++ later) Routes.initial
                 = Routes.run later (Routes.run earlier Routes.initial))
    by apply fold_left_app.
  rewrite Hrun. split; [exact Hgrow |].
  intros q Hq. destruct Hfinal as [Hqueue _].
  destruct (Hqueue q Hq) as [[session [Hsession Hqueued]] Hstatus].
  split; [exact Hstatus |].
  exists session. split; [| exact Hqueued].
  unfold Routes.get_status. rewrite Hsession. reflexivity.
Qed.

Lemma queued_requests_wait_forever_witness :
  Routes.statusOf "B"
    (Routes.run ([start "t1" "A" "https://a.example";
                  start "t2" "B" "https://b.example"]
                 ++ [finishes "t3" "A";
                     Routes.StopRequest (at_time "t4") "B";
                     start "t5" "C" "https://c.example";
                     crashes "t6" "A"]) Routes.initial)
  = Some "queued".
Proof.
  apply (proj2 (queued_requests_wait_forever
                  [start "t1" "A" "https://a.example";
                   start "t2" "B" "https://b.example"]
                  [finishes "t3" "A";
                   Routes.StopRequest (at_time "t4") "B";
                   start "t5" "C" "https://c.example";
                   crashes "t6" "A"]
                  ltac:(vm_compute; repeat split; auto))
           {| Routes.q_testId := "B"; Routes.q_url := "https://b.example";
              Routes.q_queuedAt := "t2" |}).
  vm_compute. left. reflexivity.
Defined.

(** ** Stopping and finishing a run *)

(** A stop request concerns one run only: whatever it answers, the queue,
    the reports and every other run's row and in-memory session are as
    before, and no run is added or removed; for an id without a row it
    answers 404 and changes nothing. *)
Theorem stop_touches_one_run :
  forall (clk : Routes.Clock) (testId : string) (s : Routes.Server),
    Routes.testQueue (snd (Routes.post_stop clk testId s)) = Routes.testQueue s
    /\ Db.reports (Routes.store (snd (Routes.post_stop clk testId s)))
       = Db.reports (Routes.store s)
    /\ dom (Routes.tests (snd (Routes.post_stop clk testId s)))
       = dom (Routes.tests s)
    /\ (forall other, other <> testId ->
          Routes.tests (snd (Routes.post_stop clk testId s)) !! other
          = Routes.tests s !! other
          /\ Routes.activeSessions (snd (Routes.post_stop clk testId s))
               !! other
             = Routes.activeSessions s !! other)
    /\ (Db.getTest testId (Routes.tests s) = None ->
        Routes.code (fst (Routes.post_stop clk testId s)) = 404%nat
        /\ snd (Routes.post_stop clk testId s) = s).
Proof.
  intros clk testId s.
  destruct (Db.getTest testId (Routes.tests s)) as [test |] eqn:Htest.
  - destruct (String.eqb (Db.status test) "running") eqn:Hrun.
    + apply String.eqb_eq in Hrun.
      rewrite (post_stop_running clk testId s test Htest Hrun). cbn [fst snd].
      split; [reflexivity |]. split; [reflexivity |]. split; [| split].
      * change (dom (Db.updateTestStatus (Routes.dbNow clk) testId "stopped"
                       (Some "Manually stopped by user") (Routes.tests s))
                = dom (Routes.tests s)).
        rewrite updateTestStatus_stopped. apply dom_alter_L.
      * intros other Hne. split.
        -- apply updateTestStatus_other. exact Hne.
        -- apply lookup_delete_ne. congruence.
      * discriminate.
    + unfold Routes.post_stop. rewrite Htest, Hrun.
      cbn [negb fst snd Routes.respond]. repeat split. discriminate.
  - unfold Routes.post_stop. rewrite Htest. cbn [fst snd Routes.respond].
    repeat split.
Qed.

Lemma stop_touches_one_run_witness :
  Routes.tests
    (snd (Routes.post_stop sample_clock "run-1"
            (snd (Routes.post_start sample_clock (Some "https://example.org")
                    true "run-2" (provider_ok "sess-2") sample_server))))
    !! "run-2"
  = Routes.tests
      (snd (Routes.post_start sample_clock (Some "https://example.org")
              true "run-2" (provider_ok "sess-2") sample_server))
      !! "run-2".
Proof.
  apply (stop_touches_one_run sample_clock "run-1"
           (snd (Routes.post_start sample_clock (Some "https://example.org")
                   true "run-2" (provider_ok "sess-2") sample_server))).
  discriminate.
Defined.

Lemma processQueue_while_reports (clk : Routes.Clock)
    (create : nat -> outcome Browserbase.ProviderSession) :
  forall (queue : list Routes.QueuedTest) (n : nat) (s : Routes.Server),
    Db.reports (Routes.store (Routes.processQueue_while clk create n queue s))
    = Db.reports (Routes.store s).
Proof.
  induction queue as [| queuedTest rest IH]; intros n s; [reflexivity |].
  cbn [Routes.processQueue_while].
  destruct (1 <=? size (Routes.activeSessions s))%nat; [reflexivity |].
  destruct (Browserbase.createSession (create n)) as [session | msg];
    cbn [bind].
  - destruct (Db.createTest (Routes.dbNow clk) (Routes.q_testId queuedTest)
                (Routes.q_url queuedTest)
                (Some (Browserbase.sessionId session))
                (Routes.tests (Routes.with_testQueue rest s)));
      cbn [bind]; rewrite IH; reflexivity.
  - rewrite IH. reflexivity.
Qed.

Lemma processQueue_keeps_finished (clk : Routes.Clock)
    (create : nat -> outcome Browserbase.ProviderSession) (testId : string)
    (s : Routes.Server) :
  ~ In testId (map Routes.q_testId (Routes.testQueue s)) ->
  Routes.tests (Routes.processQueue clk create s) !! testId
  = Routes.tests s !! testId
  /\ Routes.activeSessions (Routes.processQueue clk create s) !! testId
     = Routes.activeSessions s !! testId
  /\ Db.reports (Routes.store (Routes.processQueue clk create s))
     = Db.reports (Routes.store s).
Proof.
  intros Hnotin. unfold Routes.processQueue.
  destruct (Routes.isProcessingQueue s
            || (length (Routes.testQueue s) =? 0)%nat); [repeat split |].
  destruct (processQueue_while_other clk create testId (Routes.testQueue s)
              0%nat (Routes.with_isProcessingQueue true s) Hnotin)
    as [Htests Hactive].
  split; [exact Htests |]. split; [exact Hactive |].
  apply (processQueue_while_reports clk create (Routes.testQueue s) 0%nat
           (Routes.with_isProcessingQueue true s)).
Qed.

Lemma job_finished_state (clk : Routes.Clock)
    (create : nat -> outcome Browserbase.ProviderSession)
    (testId sid : string) (actionLogs : list ActionLog)
    (retrieve : nat -> outcome Browserbase.SessionInfo)
    (s : Routes.Server) (row : Db.TestRow) :
  Routes.tests s !! testId = Some row ->
  exists pre reportRow,
    Routes.runTestInBackground_end clk create testId sid
      (Routes.Finished actionLogs retrieve) s
    = Routes.processQueue clk create pre
    /\ Routes.tests pre !! testId
       = Some (Db.set_finished (Routes.dbNow clk) "completed" None row)
    /\ Routes.activeSessions pre !! testId = None
    /\ Routes.testQueue pre = Routes.testQueue s
    /\ Db.reports (Routes.store pre)
       = Db.reports (Routes.store s) ++ [reportRow]
    /\ Db.test_id reportRow = testId
    /\ Db.report_created_at reportRow = Routes.dbNow clk
    /\ Db.data reportRow
       = ReportService.buildReport (Routes.isoNow clk)
           (Some (Browserbase.recordingUrlOf sid)) testId actionLogs sid.
Proof.
  intros Hrow. unfold Routes.runTestInBackground_end.
  unfold ReportService.generateReport, Db.createReport.
  change (Db.tests (Routes.store s)) with (Routes.tests s). rewrite Hrow.
  unfold Browserbase.getRecordingUrl. rewrite getRecordingUrl_loop_always.
  eexists _, _. split; [reflexivity |].
  split.
  - change (Db.updateTestStatus (Routes.dbNow clk) testId "completed" None
              (Routes.tests s) !! testId
            = Some (Db.set_finished (Routes.dbNow clk) "completed" None row)).
    unfold Db.updateTestStatus. cbn [String.eqb Ascii.eqb Bool.eqb orb].
    rewrite lookup_alter_eq, Hrow. reflexivity.
  - split; [apply lookup_delete_eq |]. repeat split.
Qed.

(** A job that runs through is reported.  When the background job of a
    run that has a row and is not waiting in the queue reaches its end,
    the report endpoint answers 200 with the report built from the job's
    action log, and the status endpoint answers from the store: status
    'completed', the end time, no error, and the recording URL of the
    session.  (Earlier reports of the run, if any, must be older than the
    new one.) *)
Theorem finished_job_is_reported :
  forall (clk : Routes.Clock)
         (create : nat -> outcome Browserbase.ProviderSession)
         (testId sid : string) (actionLogs : list ActionLog)
         (retrieve : nat -> outcome Browserbase.SessionInfo)
         (s : Routes.Server) (row : Db.TestRow),
    Routes.tests s !! testId = Some row ->
    ~ In testId (map Routes.q_testId (Routes.testQueue s)) ->
    (forall r, In r (Db.reports (Routes.store s)) -> Db.test_id r = testId ->
       String.ltb (Db.report_created_at r) (Routes.dbNow clk) = true) ->
    Routes.get_report testId
      (Routes.runTestInBackground_end clk create testId sid
         (Routes.Finished actionLogs retrieve) s)
    = {| Routes.code := 200;
         Routes.body :=
           Routes.ReportBody
             (ReportService.buildReport (Routes.isoNow clk)
                (Some ("https://browserbase.com/sessions/" ++ sid)%string)
                testId actionLogs sid) |}
    /\ Routes.get_status testId
         (Routes.runTestInBackground_end clk create testId sid
            (Routes.Finished actionLogs retrieve) s)
       = {| Routes.code := 200;
            Routes.body :=
              Routes.StoredStatusBody testId
                {| Db.url := Db.url row; Db.status := "completed";
                   Db.created_at := Db.created_at row;
                   Db.started_at := Db.started_at row;
                   Db.completed_at := Some (Routes.dbNow clk);
                   Db.browserbase_session_id := Db.browserbase_session_id row;
                   Db.error := None |}
                (Some ("https://browserbase.com/sessions/" ++ sid)%string) |}.
Proof.
  intros clk create testId sid actionLogs retrieve s row Hrow Hnotin Hold.
  destruct (job_finished_state clk create testId sid actionLogs retrieve s
              row Hrow)
    as (pre & reportRow & -> & Htests & Hactive & Hqueue & Hreports & Hid
        & Hcreated & Hdata).
  rewrite <- Hqueue in Hnotin.
  destruct (processQueue_keeps_finished clk create testId pre Hnotin)
    as (Htests' & Hactive' & Hreports').
  assert (Hlatest : Db.getReport testId
                      (Routes.store (Routes.processQueue clk create pre))
                    = Some reportRow).
  { unfold Db.getReport. rewrite Hreports', Hreports, List.filter_app.
    cbn [List.filter]. rewrite Hid, String.eqb_refl.
    apply latest_newest; [| discriminate].
    intros r Hr. apply filter_In in Hr. destruct Hr as [Hin Heq].
    apply String.eqb_eq in Heq. rewrite Hcreated. apply (Hold r Hin Heq). }
  split.
  - unfold Routes.get_report, Db.getTest. rewrite Htests', Htests.
    cbn [Db.status Db.set_finished String.eqb Ascii.eqb Bool.eqb negb].
    unfold ReportService.getTestReport. rewrite Hlatest, Hdata. reflexivity.
  - unfold Routes.get_status, Db.getTest.
    rewrite Hactive', Hactive, Htests', Htests.
    cbn [Db.status Db.set_finished String.eqb Ascii.eqb Bool.eqb].
    rewrite Hlatest, Hdata. reflexivity.
Qed.

Lemma finished_job_is_reported_witness :
  Routes.code
    (Routes.get_report "run-1"
       (Routes.runTestInBackground_end sample_clock provider_down "run-1"
          "sess-1" (Routes.Finished sample_logs still_running) sample_server))
  = 200%nat.
Proof.
  rewrite (proj1 (finished_job_is_reported sample_clock provider_down "run-1"
                    "sess-1" sample_logs still_running sample_server
                    sample_row eq_refl
                    ltac:(simpl; tauto) ltac:(intros r [])));
    reflexivity.
Defined.

(** A job that throws is recorded as failed.  When the background job of
    a run that has a row and is not waiting in the queue throws, the
    status endpoint answers from the store with status 'failed', the end
    time and the error's message, and the report endpoint answers 400; no
    report is stored. *)
Theorem failed_job_is_recorded :
  forall (clk : Routes.Clock)
         (create : nat -> outcome Browserbase.ProviderSession)
         (testId sid msg : string) (s : Routes.Server) (row : Db.TestRow),
    Routes.tests s !! testId = Some row ->
    ~ In testId (map Routes.q_testId (Routes.testQueue s)) ->
    Routes.get_status testId
      (Routes.runTestInBackground_end clk create testId sid
         (Routes.Threw msg) s)
    = {| Routes.code := 200;
         Routes.body :=
           Routes.StoredStatusBody testId
             {| Db.url := Db.url row; Db.status := "failed";
                Db.created_at := Db.created_at row;
                Db.started_at := Db.started_at row;
                Db.completed_at := Some (Routes.dbNow clk);
                Db.browserbase_session_id := Db.browserbase_session_id row;
                Db.error := Some msg |} None |}
    /\ Routes.code
         (Routes.get_report testId
            (Routes.runTestInBackground_end clk create testId sid
               (Routes.Threw msg) s))
       = 400%nat
    /\ Db.reports
         (Routes.store
            (Routes.runTestInBackground_end clk create testId sid
               (Routes.Threw msg) s))
       = Db.reports (Routes.store s).
Proof.
  intros clk create testId sid msg s row Hrow Hnotin.
  unfold Routes.runTestInBackground_end.
  set (pre := Routes.with_activeSessions _ _).
  assert (Htests : Routes.tests pre !! testId
                   = Some (Db.set_finished (Routes.dbNow clk) "failed"
                             (Some msg) row)).
  { change (Db.updateTestStatus (Routes.dbNow clk) testId "failed" (Some msg)
              (Routes.tests s) !! testId
            = Some (Db.set_finished (Routes.dbNow clk) "failed" (Some msg)
                      row)).
    unfold Db.updateTestStatus. cbn [String.eqb Ascii.eqb Bool.eqb orb].
    rewrite lookup_alter_eq, Hrow. reflexivity. }
  assert (Hactive : Routes.activeSessions pre !! testId = None)
    by apply lookup_delete_eq.
  destruct (processQueue_keeps_finished clk create testId pre Hnotin)
    as (Htests' & Hactive' & Hreports').
  split; [| split].
  - unfold Routes.get_status, Db.getTest.
    rewrite Hactive', Hactive, Htests', Htests. reflexivity.
  - unfold Routes.get_report, Db.getTest. rewrite Htests', Htests.
    reflexivity.
  - rewrite Hreports'. reflexivity.
Qed.

Lemma failed_job_is_recorded_witness :
  Routes.code
    (Routes.get_report "run-1"
       (Routes.runTestInBackground_end sample_clock provider_down "run-1"
          "sess-1" (Routes.Threw "net::ERR_NAME_NOT_RESOLVED") sample_server))
  = 400%nat.
Proof.
  apply (failed_job_is_recorded sample_clock provider_down "run-1" "sess-1"
           "net::ERR_NAME_NOT_RESOLVED" sample_server sample_row eq_refl).
  simpl. tauto.
Defined.

(** ** Stopping a run does not keep its report away (C6) *)

(** C6 (the code departs from the claim).  A stop request issued while
    the run's stored status is 'running' answers 200, leaves the run
    'stopped' and creates no report, and a report request served next
    answers 400.  But the stop does not interrupt the run's background
    job: when that job then reaches its end, it stores a report and
    writes 'completed', and the report request answers 200 with that
    report.  A stop request issued while the run is in any other state
    answers 400 and leaves the whole server state unchanged. *)
Theorem stopped_run_still_gets_a_report :
  forall (clk later : Routes.Clock)
         (create : nat -> outcome Browserbase.ProviderSession)
         (testId sid : string) (actionLogs : list ActionLog)
         (retrieve : nat -> outcome Browserbase.SessionInfo)
         (s : Routes.Server) (test : Db.TestRow),
    Db.getTest testId (Routes.tests s) = Some test ->
    (Db.status test = "running" ->
       fst (Routes.post_stop clk testId s)
       = {| Routes.code := 200;
            Routes.body := Routes.StoppedBody testId "stopped" |}
       /\ Routes.statusOf testId (snd (Routes.post_stop clk testId s))
          = Some "stopped"
       /\ Routes.code
            (Routes.get_report testId (snd (Routes.post_stop clk testId s)))
          = 400%nat
       /\ Db.reports (Routes.store (snd (Routes.post_stop clk testId s)))
          = Db.reports (Routes.store s)
       /\ (~ In testId (map Routes.q_testId (Routes.testQueue s)) ->
           (forall r, In r (Db.reports (Routes.store s)) ->
              Db.test_id r = testId ->
              String.ltb (Db.report_created_at r) (Routes.dbNow later)
              = true) ->
           Routes.statusOf testId
             (Routes.runTestInBackground_end later create testId sid
                (Routes.Finished actionLogs retrieve)
                (snd (Routes.post_stop clk testId s)))
           = Some "completed"
           /\ Routes.get_report testId
                (Routes.runTestInBackground_end later create testId sid
                   (Routes.Finished actionLogs retrieve)
                   (snd (Routes.post_stop clk testId s)))
              = {| Routes.code := 200;
                   Routes.body :=
                     Routes.ReportBody
                       (ReportService.buildReport (Routes.isoNow later)
                          (Some ("https://browserbase.com/sessions/" ++ sid)%string)
                          testId actionLogs sid) |}))
    /\ (Db.status test <> "running" ->
          Routes.code (fst (Routes.post_stop clk testId s)) = 400%nat
          /\ snd (Routes.post_stop clk testId s) = s).
Proof.
  intros clk later create testId sid actionLogs retrieve s test Htest. split.
  - intros Hrun. rewrite (post_stop_running clk testId s test Htest Hrun).
    cbn [fst snd].
    pose proof (getTest_after_stop clk testId s test
                  (delete testId (Routes.activeSessions s)) Htest) as Hrow.
    set (stopped := Routes.with_activeSessions _ _) in *.
    split; [reflexivity |]. split; [| split; [| split; [reflexivity |]]].
    + unfold Routes.statusOf. rewrite Hrow. reflexivity.
    + unfold Routes.get_report. rewrite Hrow. reflexivity.
    + intros Hnotin Hold.
      destruct (job_finished_state later create testId sid actionLogs
                  retrieve stopped (Db.set_status "stopped" test) Hrow)
        as (pre & reportRow & -> & Htests & _ & Hqueue & Hreports & Hid
            & Hcreated & Hdata).
      change (Routes.testQueue stopped) with (Routes.testQueue s) in Hqueue.
      change (Db.reports (Routes.store stopped))
        with (Db.reports (Routes.store s)) in Hreports.
      rewrite <- Hqueue in Hnotin.
      destruct (processQueue_keeps_finished later create testId pre Hnotin)
        as (Htests' & _ & Hreports').
      split.
      * unfold Routes.statusOf, Db.getTest. rewrite Htests', Htests.
        reflexivity.
      * unfold Routes.get_report, Db.getTest. rewrite Htests', Htests.
        cbn [Db.status Db.set_finished String.eqb Ascii.eqb Bool.eqb negb].
        unfold ReportService.getTestReport, Db.getReport.
        rewrite Hreports', Hreports, List.filter_app.
        cbn [List.filter]. rewrite Hid, String.eqb_refl.
        rewrite latest_newest; [rewrite Hdata; reflexivity | | discriminate].
        intros r Hr. apply filter_In in Hr. destruct Hr as [Hin Heq].
        apply String.eqb_eq in Heq. rewrite Hcreated. apply (Hold r Hin Heq).
  - intros Hother. unfold Routes.post_stop. rewrite Htest.
    apply String.eqb_neq in Hother. rewrite Hother.
    split; reflexivity.
Qed.

Lemma stopped_run_still_gets_a_report_witness :
  Routes.code
    (Routes.get_report "run-1"
       (snd (Routes.post_stop
               {| Routes.dbNow := "2025-10-13 10:00:09";
                  Routes.isoNow := "2025-10-13T10:00:09.000Z" |}
               "run-1" sample_server)))
  = 400%nat
  /\ Routes.code
       (Routes.get_report "run-1"
          (Routes.runTestInBackground_end
             {| Routes.dbNow := "2025-10-13 10:00:20";
                Routes.isoNow := "2025-10-13T10:00:20.000Z" |}
             provider_down "run-1" "sess-1"
             (Routes.Finished sample_logs still_running)
             (snd (Routes.post_stop
                     {| Routes.dbNow := "2025-10-13 10:00:09";
                        Routes.isoNow := "2025-10-13T10:00:09.000Z" |}
                     "run-1" sample_server))))
     = 200%nat.
Proof.
  destruct (stopped_run_still_gets_a_report
              {| Routes.dbNow := "2025-10-13 10:00:09";
                 Routes.isoNow := "2025-10-13T10:00:09.000Z" |}
              {| Routes.dbNow := "2025-10-13 10:00:20";
                 Routes.isoNow := "2025-10-13T10:00:20.000Z" |}
              provider_down "run-1" "sess-1" sample_logs still_running
              sample_server sample_row eq_refl) as [Hrunning _].
  destruct (Hrunning eq_refl) as (_ & _ & Hrefused & _ & Hlater).
  split; [exact Hrefused |].
  destruct Hlater as [_ Hreport]; [simpl; tauto | intros r [] |].
  rewrite Hreport. reflexivity.
Defined.

(** ** The decision client: the span that is parsed, and its errors *)

Lemma contains_app (c : ascii) (a b : string) :
  contains c (a ++ b)%string = contains c a || contains c b.
Proof.
  induction a as [| d a' IH]; simpl; [reflexivity |].
  rewrite IH. apply orb_assoc.
Qed.

Lemma upto_last_close_none_inv (s : string) :
  Agent.upto_last_close s = None -> contains "}" s = false.
Proof.
  induction s as [| c rest IH]; simpl; [reflexivity |].
  destruct (Agent.upto_last_close rest) as [p |]; [discriminate |].
  destruct (Ascii.eqb c "}"); [discriminate |].
  intros _. apply IH. reflexivity.
Qed.

Lemma upto_last_close_split (s p : string) :
  Agent.upto_last_close s = Some p ->
  exists inner post,
    s = (inner ++ "}" ++ post)%string /\ p = (inner ++ "}")%string
    /\ contains "}" post = false.
Proof.
  revert p. induction s as [| c rest IH]; simpl; [discriminate |].
  intros p. destruct (Agent.upto_last_close rest) as [p' |] eqn:Hrest.
  - intros H. inversion H. subst p.
    destruct (IH p' eq_refl) as (inner & post & -> & -> & Hpost).
    exists (String c inner), post. repeat split. exact Hpost.
  - destruct (Ascii.eqb c "}") eqn:Hc; [| discriminate].
    apply Ascii.eqb_eq in Hc. subst c. intros H. inversion H. subst p.
    exists ""%string, rest. repeat split.
    apply upto_last_close_none_inv. exact Hrest.
Qed.

Lemma match_braces_none (s : string) :
  contains "}" s = false -> Agent.match_braces s = None.
Proof.
  induction s as [| c rest IH]; simpl; [reflexivity |].
  intros H. apply orb_false_iff in H. destruct H as [_ Hrest].
  rewrite (upto_last_close_none rest Hrest), (IH Hrest).
  destruct (Ascii.eqb c "{"); reflexivity.
Qed.

Lemma match_braces_split (s m : string) :
  Agent.match_braces s = Some m ->
  exists pre inner post,
    s = (pre ++ "{" ++ inner ++ "}" ++ post)%string
    /\ m = ("{" ++ inner ++ "}")%string
    /\ contains "{" pre = false /\ contains "}" post = false.
Proof.
  revert m. induction s as [| c rest IH]; simpl; [discriminate |].
  intros m. destruct (Ascii.eqb c "{") eqn:Hc.
  - apply Ascii.eqb_eq in Hc. subst c.
    destruct (Agent.upto_last_close rest) as [p |] eqn:Hrest.
    + intros H. inversion H. subst m.
      destruct (upto_last_close_split rest p Hrest)
        as (inner & post & -> & -> & Hpost).
      exists ""%string, inner, post. repeat split. exact Hpost.
    + rewrite (match_braces_none rest (upto_last_close_none_inv rest Hrest)).
      discriminate.
  - intros H. destruct (IH m H) as (pre & inner & post & -> & -> & Hpre & Hpost).
    exists (String c pre), inner, post. repeat split; [| exact Hpost].
    simpl. rewrite Hc. exact Hpre.
Qed.

Lemma upto_last_close_some (s : string) :
  contains "}" s = true -> Agent.upto_last_close s <> None.
Proof.
  intros H Hnone. rewrite (upto_last_close_none_inv s Hnone) in H.
  discriminate.
Qed.

Lemma match_braces_some (pre rest : string) :
  contains "}" rest = true ->
  Agent.match_braces (pre ++ String "{" rest)%string <> None.
Proof.
  intros Hrest. induction pre as [| c pre' IH].
  - change (Agent.match_braces (String "{" rest) <> None).
    cbn [Agent.match_braces]. rewrite Ascii.eqb_refl.
    destruct (Agent.upto_last_close rest) eqn:Hupto; [discriminate |].
    destruct (upto_last_close_some rest Hrest Hupto).
  - change (Agent.match_braces (String c (pre' ++ String "{" rest)) <> None).
    cbn [Agent.match_braces].
    destruct (Ascii.eqb c "{"); [| exact IH].
    destruct (Agent.upto_last_close (pre' ++ String "{" rest)) eqn:Hupto;
      [discriminate |].
    apply upto_last_close_none_inv in Hupto.
    rewrite contains_app in Hupto. apply orb_false_iff in Hupto.
    destruct Hupto as [_ Hupto]. simpl in Hupto. rewrite Hrest in Hupto.
    discriminate.
Qed.

(** What the decision client hands to the JSON parser.  When the regular
    expression matches, the match is the part of the response from its
    first opening brace to its last closing brace.  It fails to match,
    which gives the 'Could not parse action from response' decision, only
    when no opening brace of the response is followed by a closing
    brace. *)
Theorem match_braces_first_open_to_last_close :
  forall (responseText : string),
    (forall jsonMatch,
        Agent.match_braces responseText = Some jsonMatch ->
        exists pre inner post,
          responseText = (pre ++ "{" ++ inner ++ "}" ++ post)%string
          /\ jsonMatch = ("{" ++ inner ++ "}")%string
          /\ contains "{" pre = false
          /\ contains "}" post = false)
    /\ (Agent.match_braces responseText = None ->
        forall pre inner post,
          responseText <> (pre ++ "{" ++ inner ++ "}" ++ post)%string).
Proof.
  intros responseText. split.
  - intros jsonMatch. apply match_braces_split.
  - intros Hnone pre inner post Heq. subst responseText.
    apply (match_braces_some pre (inner ++ "}" ++ post)%string); [| exact Hnone].
    rewrite contains_app. simpl. apply orb_true_r.
Qed.

Lemma match_braces_first_open_to_last_close_witness :
  exists pre inner post,
    "Fill the {name} field, then {submit} it."%string
    = (pre ++ "{" ++ inner ++ "}" ++ post)%string
    /\ "{name} field, then {submit}"%string = ("{" ++ inner ++ "}")%string
    /\ contains "{" pre = false
    /\ contains "}" post = false.
Proof.
  apply (proj1 (match_braces_first_open_to_last_close
                  "Fill the {name} field, then {submit} it.")).
  vm_compute. reflexivity.
Defined.

(** When the decision client throws.  The call throws exactly when the
    model call is rejected or the reply has no content block, and then
    the message is the cause behind the prefix 'AI analysis failed: '.
    For every other reply, a first block without text included, it
    returns a decision object. *)
Theorem analyzeAndAct_failures :
  forall (reply : Agent.ModelReply),
    match reply with
    | Agent.Rejected msg =>
        Agent.analyzeAndAct reply = Throw ("AI analysis failed: " ++ msg)%string
    | Agent.Message [] =>
        Agent.analyzeAndAct reply
        = Throw ("AI analysis failed: "
                 ++ "Cannot read properties of undefined (reading 'text')")%string
    | Agent.Message (block :: _) =>
        exists decision,
          Agent.analyzeAndAct reply = Return decision
          /\ is_object decision = true
          /\ (Agent.text block = None ->
              decision = Agent.completeWith "Invalid response format")
    end.
Proof.
  intros [msg | [| block more]]; [reflexivity | reflexivity |].
  exists (Agent.extractAction (Agent.text block)).
  split; [apply analyzeAndAct_message |].
  split; [apply extractAction_is_object |].
  intros ->. reflexivity.
Qed.

Lemma analyzeAndAct_failures_witness :
  exists decision,
    Agent.analyzeAndAct (Agent.Message [ {| Agent.text := None |} ])
    = Return decision
    /\ is_object decision = true
    /\ decision = Agent.completeWith "Invalid response format".
Proof.
  destruct (analyzeAndAct_failures
              (Agent.Message [ {| Agent.text := None |} ]))
    as (decision & Hreturn & Hobject & Hfallback).
  exists decision. split; [exact Hreturn |]. split; [exact Hobject |].
  apply Hfallback. reflexivity.
Defined.

(** ** Executing a decision: the checks that precede the page call *)

(** The result [executeAction] gives from its [catch] block. *)
Definition rejected (kind message : string) : Result :=
  {| r_success := false;
     r_message := ("Failed to execute " ++ kind)%string;
     r_error := Some message |}.

Ltac decision_object action Hname :=
  destruct action; try discriminate Hname;
  cbn [Json.get] in *;
  repeat match goal with
         | H : Return _ = Return _ |- _ => inversion H; clear H
         end;
  unfold Agent.executeAction; cbn [Json.get bind]; subst;
  match goal with
  | H : Json.lookup_last _ _ _ = Some _ |- _ => rewrite H
  end.

(** A decision that lacks a required argument never reaches the page.
    Whatever the driver would do, a 'click', 'type' or 'navigate' decision
    whose target is missing or falsy, and a 'type' decision whose value is
    missing or falsy, is answered with success=false and the message of
    the check that failed as its error; a 'complete' decision is answered
    with success without a page call. *)
Theorem unusable_decision_never_reaches_the_page :
  forall (driver : outcome unit) (action : Json.value)
         (target value : option Json.value),
    Json.get "target" action = Return target ->
    Json.get "value" action = Return value ->
    (Json.get "action" action = Return (Some (Json.JString "click")) ->
     Agent.js_truthy target = false ->
     Agent.executeAction driver action
     = Return (rejected "click" "Click action requires a target selector"))
    /\ (Json.get "action" action = Return (Some (Json.JString "type")) ->
        Agent.js_truthy target = false ->
        Agent.executeAction driver action
        = Return (rejected "type" "Type action requires a target selector"))
    /\ (Json.get "action" action = Return (Some (Json.JString "type")) ->
        Agent.js_truthy target = true ->
        Agent.js_truthy value = false ->
        Agent.executeAction driver action
        = Return (rejected "type" "Type action requires a value"))
    /\ (Json.get "action" action = Return (Some (Json.JString "navigate")) ->
        Agent.js_truthy target = false ->
        Agent.executeAction driver action
        = Return (rejected "navigate" "Navigate action requires a target URL"))
    /\ (Json.get "action" action = Return (Some (Json.JString "complete")) ->
        Agent.executeAction driver action
        = Return (Agent.ok "Testing complete")).
Proof.
  intros driver action target value Htarget Hvalue.
  split; [| split; [| split; [| split]]].
  - intros Hname Hfalsy. decision_object action Hname.
    rewrite Hfalsy. reflexivity.
  - intros Hname Hfalsy. decision_object action Hname.
    rewrite Hfalsy. reflexivity.
  - intros Hname Htruthy Hfalsy. decision_object action Hname.
    rewrite Htruthy, Hfalsy. reflexivity.
  - intros Hname Hfalsy. decision_object action Hname.
    rewrite Hfalsy. reflexivity.
  - intros Hname. decision_object action Hname. reflexivity.
Qed.

Lemma unusable_decision_never_reaches_the_page_witness :
  Agent.executeAction (Return tt)
    (Json.JObject [("action", Json.JString "type");
                   ("target", Json.JString "#email");
                   ("value", Json.JString "")])
  = Return (rejected "type" "Type action requires a value").
Proof.
  apply (unusable_decision_never_reaches_the_page (Return tt)
           (Json.JObject [("action", Json.JString "type");
                          ("target", Json.JString "#email");
                          ("value", Json.JString "")])
           (Some (Json.JString "#email")) (Some (Json.JString "")));
    reflexivity.
Defined.

(** ** The testing loop: the shape of the log *)

(** The log of a visit is never empty and never longer than sixteen
    entries: fifteen iterations at most, and one entry for the error that
    ended the visit, if one did. *)
Theorem testWebsite_log_bounds :
  forall (visit : Agent.Visit),
    (1 <= length (Agent.testWebsite visit) <= 16)%nat.
Proof.
  intros visit. unfold Agent.testWebsite.
  destruct (do _ <- (if Agent.has_viewport visit then Return tt
                     else Agent.set_viewport visit);
            Agent.goto visit) as [[] | msg].
  - destruct (testWebsite_while_adds (Agent.turns visit) Agent.maxActions 0 [])
      as (added & Hfst & Hlen & Hsome & _).
    destruct (Agent.testWebsite_while Agent.maxActions (Agent.turns visit) 0
                []) as [actionLog [msg |]]; cbn [fst snd] in *.
    + rewrite length_app, Hfst. simpl. unfold Agent.maxActions in Hlen. lia.
    + rewrite Hfst. simpl. unfold Agent.maxActions in Hlen.
      assert (added <> []) as Hne by (apply Hsome; [discriminate | reflexivity]).
      destruct added; [destruct (Hne eq_refl) |]. simpl in *. lia.
  - simpl. lia.
Qed.

(** A 'complete' decision ends the log: an entry that logs one is the
    last entry of the visit's log.  In particular the entry for an error
    never follows it. *)
Theorem complete_decision_is_last :
  forall (visit : Agent.Visit) (i : nat) (entry : Agent.LogEntry),
    Agent.testWebsite visit !! i = Some entry ->
    decided "complete" entry = true ->
    S i = length (Agent.testWebsite visit).
Proof.
  intros visit i entry Hlookup Hdecided.
  assert (Hsplit : forall log : list Agent.LogEntry,
             log !! i = Some entry ->
             (forall before after,
                 log = before ++ entry :: after -> after = []) ->
             S i = length log).
  { intros log Hi Honly.
    pose proof (take_drop_middle log i entry Hi) as Hmiddle.
    pose proof (Honly _ _ (eq_sym Hmiddle)) as Hafter.
    pose proof (lookup_lt_Some _ _ _ Hi) as Hlt.
    apply (f_equal (@length _)) in Hafter. rewrite length_drop in Hafter.
    simpl in Hafter. lia. }
  apply Hsplit; [exact Hlookup |]. clear Hsplit Hlookup i.
  unfold Agent.testWebsite.
  destruct (do _ <- (if Agent.has_viewport visit then Return tt
                     else Agent.set_viewport visit);
            Agent.goto visit) as [[] | msg].
  - destruct (testWebsite_while_adds (Agent.turns visit) Agent.maxActions 0 [])
      as (added & Hfst & _ & _ & Hlast).
    destruct (Agent.testWebsite_while Agent.maxActions (Agent.turns visit) 0
                []) as [actionLog [msg |]]; cbn [fst snd] in *.
    + intros before after Hlog. simpl in Hfst. subst actionLog.
      destruct after as [| next after'] using rev_ind; [reflexivity |].
      clear IHafter'.
      rewrite app_comm_cons, app_assoc in Hlog.
      apply app_inj_tail in Hlog. destruct Hlog as [Hadded _].
      destruct (Hlast before entry after' Hadded Hdecided) as [_ Hnone].
      discriminate.
    + intros before after Hlog. simpl in Hfst. subst actionLog.
      apply (Hlast before entry after Hlog Hdecided).
  - intros [| ? [| ? ?]] after Hlog; try discriminate.
    inversion Hlog. subst entry. discriminate.
Qed.

Lemma complete_decision_is_last_witness :
  length (Agent.testWebsite sample_visit) = 2%nat.
Proof.
  symmetry.
  apply (complete_decision_is_last sample_visit 1
           {| Agent.entry_timestamp := 1760349604000;
              Agent.entry_action :=
                Agent.completeWith "Could not parse action from response";
              Agent.entry_result := Agent.ok "Testing completed by AI";
              Agent.entry_context :=
                {| c_url := "https://example.com/";
                   c_title := Some "Example Domain" |} |});
    vm_compute; reflexivity.
Defined.

(** ** A drain pass over runs that already have a row *)

(** A row that records a failure. *)
Definition failed_row (row : Db.TestRow) : Prop :=
  Db.status row = "failed" /\ exists msg, Db.error row = Some msg.

Lemma updateTestStatus_failed (now testId : string) (error : option string)
    (db : gmap string Db.TestRow) :
  Db.updateTestStatus now testId "failed" error db
  = alter (Db.set_finished now "failed" error) testId db.
Proof. reflexivity. Qed.

(** An iteration of the drain loop on a run that has a row ends in the
    loop's [catch] block: either no session is created, or the INSERT of
    [createTest] meets the row that was written when the run was
    queued. *)
Lemma processQueue_while_stored (clk : Routes.Clock)
    (create : nat -> outcome Browserbase.ProviderSession) (n : nat)
    (q : Routes.QueuedTest) (rest : list Routes.QueuedTest)
    (s : Routes.Server) :
  size (Routes.activeSessions s) = 0%nat ->
  is_Some (Routes.tests s !! Routes.q_testId q) ->
  exists msg,
    Routes.processQueue_while clk create n (q :: rest) s
    = Routes.processQueue_while clk create (S n) rest
        (Routes.updateTestStatus clk (Routes.q_testId q) "failed" (Some msg)
           (Routes.with_testQueue rest s)).
Proof.
  intros Hsize [row Hrow]. cbn [Routes.processQueue_while].
  rewrite Hsize. cbn [Nat.leb].
  destruct (Browserbase.createSession (create n)) as [session | msg];
    cbn [bind]; [| eexists; reflexivity].
  unfold Db.createTest.
  change (Routes.tests (Routes.with_testQueue rest s)) with (Routes.tests s).
  rewrite Hrow. cbn [bind]. eexists; reflexivity.
Qed.

Lemma processQueue_while_fails_stored (clk : Routes.Clock)
    (create : nat -> outcome Browserbase.ProviderSession) :
  forall (queue : list Routes.QueuedTest) (n : nat) (s : Routes.Server),
    size (Routes.activeSessions s) = 0%nat ->
    (forall q, In q queue -> is_Some (Routes.tests s !! Routes.q_testId q)) ->
    Routes.activeSessions (Routes.processQueue_while clk create n queue s)
    = Routes.activeSessions s
    /\ (queue <> [] ->
        Routes.testQueue (Routes.processQueue_while clk create n queue s) = [])
    /\ (forall q, In q queue ->
          exists row,
            Routes.tests (Routes.processQueue_while clk create n queue s)
              !! Routes.q_testId q = Some row
            /\ failed_row row)
    /\ (forall testId row,
          Routes.tests s !! testId = Some row -> failed_row row ->
          exists row',
            Routes.tests (Routes.processQueue_while clk create n queue s)
              !! testId = Some row'
            /\ failed_row row').
Proof.
  induction queue as [| q rest IH]; intros n s Hsize Hrows.
  - cbn [Routes.processQueue_while]. split; [reflexivity |].
    split; [intros H; destruct (H eq_refl) |].
    split; [intros q [] |]. intros testId row Hrow Hfailed. eauto.
  - destruct (processQueue_while_stored clk create n q rest s Hsize
                (Hrows q (or_introl eq_refl))) as [msg ->].
    set (s2 := Routes.updateTestStatus clk (Routes.q_testId q) "failed"
                 (Some msg) (Routes.with_testQueue rest s)).
    assert (Htests2 : Routes.tests s2
                      = alter (Db.set_finished (Routes.dbNow clk) "failed"
                                 (Some msg))
                          (Routes.q_testId q) (Routes.tests s))
      by reflexivity.
    assert (Hkept : forall testId row,
               Routes.tests s !! testId = Some row -> failed_row row ->
               exists row', Routes.tests s2 !! testId = Some row'
                            /\ failed_row row').
    { intros testId row Hrow Hfailed. rewrite Htests2.
      destruct (decide (testId = Routes.q_testId q)) as [-> | Hne].
      - rewrite lookup_alter_eq, Hrow. eexists. split; [reflexivity |].
        split; [reflexivity | eexists; reflexivity].
      - rewrite lookup_alter_ne by congruence. eauto. }
    assert (Hrows2 : forall q', In q' rest ->
               is_Some (Routes.tests s2 !! Routes.q_testId q')).
    { intros q' Hin. rewrite Htests2, <- updateTestStatus_failed.
      apply updateTestStatus_is_Some. apply Hrows. right. exact Hin. }
    destruct (IH (S n) s2 Hsize Hrows2) as (Hactive & Hempty & Hqueued & Hstay).
    split; [exact Hactive |]. split; [| split].
    + intros _. destruct rest as [| q' rest']; [reflexivity |].
      apply Hempty. discriminate.
    + intros q' [Heq | Hin]; [subst q' | apply Hqueued; exact Hin].
      destruct (Hrows q (or_introl eq_refl)) as [row Hrow].
      apply (Hstay (Routes.q_testId q)
               (Db.set_finished (Routes.dbNow clk) "failed" (Some msg) row)).
      * rewrite Htests2, lookup_alter_eq, Hrow. reflexivity.
      * split; [reflexivity | eexists; reflexivity].
    + intros testId row Hrow Hfailed.
      destruct (Hkept testId row Hrow Hfailed) as (row2 & Hrow2 & Hfailed2).
      apply (Hstay testId row2 Hrow2 Hfailed2).
Qed.

Lemma processQueue_while_paused (clk : Routes.Clock)
    (create : nat -> outcome Browserbase.ProviderSession) (n : nat)
    (queue : list Routes.QueuedTest) (s : Routes.Server) :
  size (Routes.activeSessions s) <> 0%nat ->
  Routes.processQueue_while clk create n queue s = s.
Proof.
  intros Hsize. destruct queue as [| q rest]; [reflexivity |].
  cbn [Routes.processQueue_while].
  destruct (size (Routes.activeSessions s)); [destruct (Hsize eq_refl) |].
  reflexivity.
Qed.

(** The drain pass cannot start a queued run.  A queued run has had its
    row since it was queued, so [createTest] in the drain loop throws on
    it even when a session was created.  Hence, over a queue whose runs
    all have a row, [processQueue] leaves the set of sessions as it was;
    and when nothing blocks the pass (no session is held and no pass is
    under way) it empties the queue and leaves every run that waited
    'failed' with an error message. *)
Theorem queued_run_cannot_be_started :
  forall (clk : Routes.Clock)
         (create : nat -> outcome Browserbase.ProviderSession)
         (s : Routes.Server),
    (forall q, In q (Routes.testQueue s) ->
       is_Some (Routes.tests s !! Routes.q_testId q)) ->
    Routes.activeSessions (Routes.processQueue clk create s)
    = Routes.activeSessions s
    /\ (size (Routes.activeSessions s) = 0%nat ->
        Routes.isProcessingQueue s = false ->
        Routes.testQueue (Routes.processQueue clk create s) = []
        /\ forall q, In q (Routes.testQueue s) ->
             exists row msg,
               Routes.tests (Routes.processQueue clk create s)
                 !! Routes.q_testId q = Some row
               /\ Db.status row = "failed"
               /\ Db.error row = Some msg).
Proof.
  intros clk create s Hrows.
  assert (Hloop : size (Routes.activeSessions s) = 0%nat ->
            Routes.activeSessions
              (Routes.processQueue_while clk create 0 (Routes.testQueue s)
                 (Routes.with_isProcessingQueue true s))
            = Routes.activeSessions s
            /\ (Routes.testQueue s <> [] ->
                Routes.testQueue
                  (Routes.processQueue_while clk create 0 (Routes.testQueue s)
                     (Routes.with_isProcessingQueue true s)) = [])
            /\ (forall q, In q (Routes.testQueue s) ->
                  exists row,
                    Routes.tests
                      (Routes.processQueue_while clk create 0
                         (Routes.testQueue s)
                         (Routes.with_isProcessingQueue true s))
                      !! Routes.q_testId q = Some row
                    /\ failed_row row)).
  { intros Hsize.
    destruct (processQueue_while_fails_stored clk create (Routes.testQueue s)
                0 (Routes.with_isProcessingQueue true s) Hsize Hrows)
      as (Hactive & Hempty & Hqueued & _).
    split; [exact Hactive |]. split; [exact Hempty | exact Hqueued]. }
  split.
  - unfold Routes.processQueue.
    destruct (Routes.isProcessingQueue s
              || (length (Routes.testQueue s) =? 0)%nat); [reflexivity |].
    change (Routes.testQueue (Routes.with_isProcessingQueue true s))
      with (Routes.testQueue s).
    destruct (size (Routes.activeSessions s)) as [| held] eqn:Hsize.
    + apply (proj1 (Hloop eq_refl)).
    + rewrite processQueue_while_paused; [reflexivity |].
      change (size (Routes.activeSessions s) <> 0%nat). rewrite Hsize.
      discriminate.
  - intros Hsize Hidle. destruct (Hloop Hsize) as (_ & Hempty & Hqueued).
    unfold Routes.processQueue. rewrite Hidle.
    change (Routes.testQueue (Routes.with_isProcessingQueue true s))
      with (Routes.testQueue s).
    destruct (Routes.testQueue s) as [| q rest] eqn:Hqueue.
    + split; [simpl; exact Hqueue | intros q []].
    + cbn [length Nat.eqb orb]. split.
      * apply Hempty. discriminate.
      * intros q' Hin.
        destruct (Hqueued q' Hin) as (row & Hrow & Hstatus & msg & Herror).
        exists row, msg. split; [exact Hrow |]. split; assumption.
Qed.

Lemma queued_run_cannot_be_started_witness :
  Routes.statusOf "run-2"
    (Routes.processQueue sample_clock (fun _ => provider_ok "sess-2")
       drainable_server)
  = Some "failed".
Proof.
  destruct (queued_run_cannot_be_started sample_clock
              (fun _ => provider_ok "sess-2") drainable_server) as [_ Hdrain].
  - intros q [<- | []]. eexists. reflexivity.
  - destruct Hdrain as [_ Hfailed]; [reflexivity | reflexivity |].
    destruct (Hfailed {| Routes.q_testId := "run-2";
                         Routes.q_url := "https://example.org";
                         Routes.q_queuedAt := "2025-10-13T09:59:00.000Z" |}
                (or_introl eq_refl)) as (row & msg & Hrow & Hstatus & _).
    cbn [Routes.q_testId] in Hrow.
    unfold Routes.statusOf, Db.getTest. rewrite Hrow.
    cbn [fmap option_fmap option_map].
    rewrite Hstatus. reflexivity.
Defined.

(** ** What no request and no job takes away *)

(** [row'] is the row of the same run as [row]: the columns that are
    written once, when the row is inserted, agree. *)
Definition same_run (row row' : Db.TestRow) : Prop :=
  Db.url row' = Db.url row
  /\ Db.created_at row' = Db.created_at row
  /\ Db.browserbase_session_id row' = Db.browserbase_session_id row.

(** [s'] holds every run and every report that [s] holds. *)
Definition extends (s s' : Routes.Server) : Prop :=
  (forall testId row,
      Routes.tests s !! testId = Some row ->
      exists row', Routes.tests s' !! testId = Some row' /\ same_run row row')
  /\ (exists added,
         Db.reports (Routes.store s')
         = Db.reports (Routes.store s) ++ added).

Lemma extends_refl (s : Routes.Server) : extends s s.
Proof.
  split.
  - intros testId row Hrow. exists row. repeat split. exact Hrow.
  - exists []. rewrite app_nil_r. reflexivity.
Qed.

Lemma extends_trans (s1 s2 s3 : Routes.Server) :
  extends s1 s2 -> extends s2 s3 -> extends s1 s3.
Proof.
  intros [Hrows12 [added12 Hreports12]] [Hrows23 [added23 Hreports23]]. split.
  - intros testId row Hrow.
    destruct (Hrows12 testId row Hrow) as (row2 & Hrow2 & Hu & Hc & Hb).
    destruct (Hrows23 testId row2 Hrow2) as (row3 & Hrow3 & Hu' & Hc' & Hb').
    exists row3. split; [exact Hrow3 |]. repeat split; congruence.
  - exists (added12 ++ added23).
    rewrite Hreports23, Hreports12, app_assoc. reflexivity.
Qed.

Lemma extends_same_store (s s' : Routes.Server) :
  Routes.store s' = Routes.store s -> extends s s'.
Proof.
  intros Hstore. split.
  - intros testId row Hrow. exists row. unfold Routes.tests. rewrite Hstore.
    repeat split. exact Hrow.
  - exists []. rewrite Hstore, app_nil_r. reflexivity.
Qed.

Lemma extends_updateTestStatus (clk : Routes.Clock) (testId status : string)
    (error : option string) (s : Routes.Server) :
  extends s (Routes.updateTestStatus clk testId status error s).
Proof.
  split; [| exists []; rewrite app_nil_r; reflexivity].
  intros id row Hrow.
  change (Routes.tests (Routes.updateTestStatus clk testId status error s))
    with (Db.updateTestStatus (Routes.dbNow clk) testId status error
            (Routes.tests s)).
  unfold Db.updateTestStatus.
  destruct (String.eqb status "running");
    [| destruct (String.eqb status "completed" || String.eqb status "failed")];
    (destruct (decide (id = testId)) as [-> | Hne];
     [rewrite lookup_alter_eq, Hrow; eexists; split; [reflexivity |];
      repeat split
     | rewrite lookup_alter_ne by congruence; exists row; repeat split;
       exact Hrow]).
Qed.

Lemma extends_createTest (now testId url : string) (sid : option string)
    (tests' : gmap string Db.TestRow) (s : Routes.Server) :
  Db.createTest now testId url sid (Routes.tests s) = Return tests' ->
  extends s (Routes.with_tests tests' s).
Proof.
  unfold Db.createTest.
  destruct (Routes.tests s !! testId) as [existing |] eqn:Hfree;
    [discriminate |].
  intros H. inversion H. subst tests'. clear H.
  split; [| exists []; rewrite app_nil_r; reflexivity].
  intros id row Hrow. exists row. split; [| repeat split].
  unfold Routes.tests, Routes.with_tests. cbn [Routes.store Db.tests].
  rewrite lookup_insert_ne; [exact Hrow |]. intros ->. congruence.
Qed.

Lemma extends_begin (clk : Routes.Clock) (testId : string) (s : Routes.Server) :
  extends s (Routes.runTestInBackground_begin clk testId s).
Proof.
  apply (extends_trans _ (Routes.updateTestStatus clk testId "running" None s));
    [apply extends_updateTestStatus | apply extends_same_store; reflexivity].
Qed.

Lemma extends_processQueue_while (clk : Routes.Clock)
    (create : nat -> outcome Browserbase.ProviderSession) :
  forall (queue : list Routes.QueuedTest) (n : nat) (s : Routes.Server),
    extends s (Routes.processQueue_while clk create n queue s).
Proof.
  induction queue as [| q rest IH]; intros n s; [apply extends_refl |].
  cbn [Routes.processQueue_while].
  destruct (1 <=? size (Routes.activeSessions s))%nat; [apply extends_refl |].
  apply (extends_trans _ (Routes.with_testQueue rest s));
    [apply extends_same_store; reflexivity |].
  destruct (Browserbase.createSession (create n)) as [session | msg];
    cbn [bind].
  - destruct (Db.createTest (Routes.dbNow clk) (Routes.q_testId q)
                (Routes.q_url q) (Some (Browserbase.sessionId session))
                (Routes.tests (Routes.with_testQueue rest s)))
      as [tests' | msg] eqn:Hcreate; cbn [bind].
    + eapply extends_trans; [| apply IH].
      eapply extends_trans; [| apply extends_begin].
      apply (extends_createTest _ _ _ _ _ _ Hcreate).
    + eapply extends_trans; [| apply IH]. apply extends_updateTestStatus.
  - eapply extends_trans; [| apply IH]. apply extends_updateTestStatus.
Qed.

Lemma extends_processQueue (clk : Routes.Clock)
    (create : nat -> outcome Browserbase.ProviderSession) (s : Routes.Server) :
  extends s (Routes.processQueue clk create s).
Proof.
  unfold Routes.processQueue.
  destruct (Routes.isProcessingQueue s
            || (length (Routes.testQueue s) =? 0)%nat); [apply extends_refl |].
  apply (extends_trans _ (Routes.with_isProcessingQueue true s));
    [apply extends_same_store; reflexivity |].
  eapply extends_trans; [apply extends_processQueue_while |].
  apply extends_same_store. reflexivity.
Qed.

Lemma extends_post_start (clk : Routes.Clock) (url : option string)
    (urlParses : bool) (uuid : string)
    (create : outcome Browserbase.ProviderSession) (s : Routes.Server) :
  extends s (snd (Routes.post_start clk url urlParses uuid create s)).
Proof.
  unfold Routes.post_start.
  destruct (or_null url) as [url' |]; [| apply extends_refl].
  destruct urlParses; cbn [negb]; [| apply extends_refl].
  destruct (1 <=? size (Routes.activeSessions s))%nat.
  - destruct (Db.createTest (Routes.dbNow clk) uuid url' None (Routes.tests s))
      as [tests' | msg] eqn:Hcreate; [| apply extends_refl].
    cbn [snd Routes.respond].
    apply (extends_trans _ (Routes.updateTestStatus clk uuid "queued" None
                              (Routes.with_tests tests' s))).
    + eapply extends_trans; [apply (extends_createTest _ _ _ _ _ _ Hcreate) |].
      apply extends_updateTestStatus.
    + apply extends_same_store. reflexivity.
  - destruct (Browserbase.createSession create) as [session | msg];
      [| apply extends_refl].
    destruct (Db.createTest (Routes.dbNow clk) uuid url'
                (Some (Browserbase.sessionId session)) (Routes.tests s))
      as [tests' | msg] eqn:Hcreate; [| apply extends_refl].
    cbn [snd Routes.respond].
    eapply extends_trans; [apply (extends_createTest _ _ _ _ _ _ Hcreate) |].
    apply extends_begin.
Qed.

Lemma extends_post_stop (clk : Routes.Clock) (testId : string)
    (s : Routes.Server) :
  extends s (snd (Routes.post_stop clk testId s)).
Proof.
  unfold Routes.post_stop.
  destruct (Db.getTest testId (Routes.tests s)) as [test |];
    [| apply extends_refl].
  destruct (negb (String.eqb (Db.status test) "running"));
    [apply extends_refl |].
  cbn [snd Routes.respond].
  eapply extends_trans; [apply extends_updateTestStatus |].
  apply extends_same_store. reflexivity.
Qed.

Lemma extends_job_end (clk : Routes.Clock)
    (create : nat -> outcome Browserbase.ProviderSession)
    (testId sid : string) (run : Routes.JobRun) (s : Routes.Server) :
  extends s (Routes.runTestInBackground_end clk create testId sid run s).
Proof.
  unfold Routes.runTestInBackground_end.
  eapply extends_trans; [| apply extends_processQueue].
  eapply extends_trans; [| apply extends_same_store; reflexivity].
  destruct run as [msg | actionLogs retrieve];
    [apply extends_updateTestStatus |].
  unfold ReportService.generateReport, Db.createReport.
  destruct (Db.tests (Routes.store s) !! testId);
    [| apply extends_updateTestStatus].
  eapply extends_trans; [| apply extends_updateTestStatus].
  split.
  - intros id row Hrow. exists row. repeat split. exact Hrow.
  - eexists. reflexivity.
Qed.

(** Nothing is taken away.  Whatever start requests, stop requests and
    job ends a server goes through, in whatever order, every run it held
    is still held, with the URL, the creation time and the session id it
    was inserted with, and every report it held is still there, in
    place: no handler deletes a run or a report or rewrites those
    columns. *)
Theorem history_is_kept :
  forall (events : list Routes.Event) (s : Routes.Server),
    (forall testId row,
        Routes.tests s !! testId = Some row ->
        exists row',
          Routes.tests (Routes.run events s) !! testId = Some row'
          /\ Db.url row' = Db.url row
          /\ Db.created_at row' = Db.created_at row
          /\ Db.browserbase_session_id row' = Db.browserbase_session_id row)
    /\ (exists added,
           Db.reports (Routes.store (Routes.run events s))
           = Db.reports (Routes.store s) ++ added).
Proof.
  intros events s.
  change (extends s (Routes.run events s)).
  revert s. induction events as [| e rest IH]; intros s;
    [apply extends_refl |].
  change (Routes.run (e :: rest) s) with (Routes.run rest (Routes.step s e)).
  apply (extends_trans _ (Routes.step s e)); [| apply IH].
  destruct e as [clk url urlParses uuid create | clk testId
                | clk create testId sid run]; cbn [Routes.step].
  - apply extends_post_start.
  - apply extends_post_stop.
  - apply extends_job_end.
Qed.

Lemma history_is_kept_witness :
  exists row',
    Routes.tests
      (Routes.run [ start "2025-10-13 10:02:00" "run-9" "https://example.net";
                    Routes.StopRequest sample_clock "run-1";
                    crashes "2025-10-13 10:03:00" "run-1" ] sample_server)
      !! "run-1" = Some row'
    /\ Db.url row' = Db.url sample_row
    /\ Db.created_at row' = Db.created_at sample_row
    /\ Db.browserbase_session_id row' = Db.browserbase_session_id sample_row.
Proof.
  apply (proj1 (history_is_kept
                  [ start "2025-10-13 10:02:00" "run-9" "https://example.net";
                    Routes.StopRequest sample_clock "run-1";
                    crashes "2025-10-13 10:03:00" "run-1" ] sample_server)).
  reflexivity.
Defined.
